(** * PowerGridEnvironment: a shallow embedding of [environment/power_env.py]

    The dispatch environment is a Gymnasium object whose methods mutate the
    object and may raise.  It is embedded as explicit state passing over a
    record of the object's attributes, in a state-and-exception monad that
    keeps the (possibly half-updated) object when a Python exception
    escapes.

    Numbers.  NumPy floats are modelled as exact rationals extended with
    the three IEEE special values; arithmetic on finite values is exact
    (no rounding, no overflow, no signed zero), while NaN and the
    infinities follow the IEEE rules that NumPy implements.  Where a
    property is about signs or order rather than about which value goes
    where, the function takes the rounding of its operations as a
    parameter: the reward engine and the split of the data do. *)

From Stdlib Require Import QArith Qabs Qround Lqa ZArith Lia List Bool.
From stdpp Require Import base option list gmap strings sorting.

Local Open Scope Z_scope.

(* ===================================================================== *)
(** ** Floating-point values *)
(* ===================================================================== *)

Module NpFloat.

Inductive fnum : Type :=
| Fin (q : Q)
| PInf
| NInf
| NaN.

Definition Qltb (a b : Q) : bool := negb (Qle_bool b a).

Definition isnan (x : fnum) : bool :=
  match x with NaN => true | _ => false end.

(** [np.isfinite] *)
Definition isfinite (x : fnum) : bool :=
  match x with Fin _ => true | _ => false end.

Definition fneg (x : fnum) : fnum :=
  match x with
  | Fin q => Fin (- q)
  | PInf => NInf
  | NInf => PInf
  | NaN => NaN
  end.

(** [np.abs] *)
Definition fabs (x : fnum) : fnum :=
  match x with
  | Fin q => Fin (Qabs q)
  | PInf | NInf => PInf
  | NaN => NaN
  end.

Definition fadd (x y : fnum) : fnum :=
  match x, y with
  | NaN, _ | _, NaN => NaN
  | Fin a, Fin b => Fin (a + b)
  | PInf, NInf | NInf, PInf => NaN
  | PInf, _ | _, PInf => PInf
  | NInf, _ | _, NInf => NInf
  end.

Definition fsub (x y : fnum) : fnum := fadd x (fneg y).

(** The product of an infinity with a finite factor [q]. *)
Definition inf_times (pos : bool) (q : Q) : fnum :=
  if Qeq_bool q 0 then NaN
  else if xorb pos (Qltb 0 q) then NInf else PInf.

Definition fmul (x y : fnum) : fnum :=
  match x, y with
  | NaN, _ | _, NaN => NaN
  | Fin a, Fin b => Fin (a * b)
  | PInf, Fin b | Fin b, PInf => inf_times true b
  | NInf, Fin b | Fin b, NInf => inf_times false b
  | PInf, PInf | NInf, NInf => PInf
  | PInf, NInf | NInf, PInf => NInf
  end.

(** NumPy division does not raise on a zero divisor: it yields an
    infinity, or NaN for 0/0. *)
Definition fdiv (x y : fnum) : fnum :=
  match x, y with
  | NaN, _ | _, NaN => NaN
  | Fin a, Fin b =>
      if Qeq_bool b 0 then
        if Qeq_bool a 0 then NaN
        else if Qltb 0 a then PInf else NInf
      else Fin (a / b)
  | Fin _, (PInf | NInf) => Fin 0
  | PInf, Fin b => if Qltb b 0 then NInf else PInf
  | NInf, Fin b => if Qltb b 0 then PInf else NInf
  | (PInf | NInf), (PInf | NInf) => NaN
  end.

(** Comparisons; every comparison with NaN is false. *)
Definition fleb (x y : fnum) : bool :=
  match x, y with
  | NaN, _ | _, NaN => false
  | Fin a, Fin b => Qle_bool a b
  | NInf, _ | _, PInf => true
  | PInf, _ | _, NInf => false
  end.

Definition fltb (x y : fnum) : bool :=
  match x, y with
  | NaN, _ | _, NaN => false
  | Fin a, Fin b => Qltb a b
  | PInf, _ | _, NInf => false
  | NInf, _ | _, PInf => true
  end.

(** [np.maximum] and [np.minimum] propagate NaN. *)
Definition fmax (x y : fnum) : fnum :=
  match x, y with
  | NaN, _ | _, NaN => NaN
  | _, _ => if fleb x y then y else x
  end.

Definition fmin (x y : fnum) : fnum :=
  match x, y with
  | NaN, _ | _, NaN => NaN
  | _, _ => if fleb x y then x else y
  end.

(** Scalar [np.clip]: [minimum(maximum(x, lo), hi)]. *)
Definition fclip (x lo hi : fnum) : fnum := fmin (fmax x lo) hi.

(** Equality of values, up to the representation of the rational. *)
Definition feqb (x y : fnum) : bool :=
  match x, y with
  | Fin a, Fin b => Qeq_bool a b
  | PInf, PInf | NInf, NInf | NaN, NaN => true
  | _, _ => false
  end.

Definition of_Z (z : Z) : fnum := Fin (inject_Z z).

End NpFloat.
Export NpFloat.

Declare Scope fnum_scope.
Delimit Scope fnum_scope with F.
Bind Scope fnum_scope with fnum.
Infix "+" := fadd : fnum_scope.
Infix "-" := fsub : fnum_scope.
Infix "*" := fmul : fnum_scope.
Infix "/" := fdiv : fnum_scope.
Notation "- x" := (fneg x) : fnum_scope.

(* ===================================================================== *)
(** ** Exceptions and the object monad *)
(* ===================================================================== *)

(** The Python exceptions the environment can let escape. *)
Inductive exn : Type := IndexError | ValueError | KeyError.

Inductive result (A : Type) : Type :=
| Ok (a : A)
| Raise (e : exn).
Arguments Ok {A} a.
Arguments Raise {A} e.

Definition is_ok {A} (r : result A) : bool :=
  match r with Ok _ => true | Raise _ => false end.

(** A method of an object with attributes [S]: it returns or raises, and in
    both cases leaves an updated object behind. *)
Definition M (S A : Type) : Type := S -> result A * S.

Definition ret {S A} (a : A) : M S A := fun s => (Ok a, s).
Definition raise {S A} (e : exn) : M S A := fun s => (Raise e, s).
Definition bind {S A B} (c : M S A) (k : A -> M S B) : M S B :=
  fun s => match c s with
           | (Ok a, s') => k a s'
           | (Raise e, s') => (Raise e, s')
           end.
Definition get {S} : M S S := fun s => (Ok s, s).
Definition gets {S A} (f : S -> A) : M S A := fun s => (Ok (f s), s).
Definition modify {S} (f : S -> S) : M S unit := fun s => (Ok tt, f s).
Definition lift {S A} (r : result A) : M S A := fun s => (r, s).

Declare Scope obj_scope.
Delimit Scope obj_scope with obj.
Notation "'let*' x ':=' c 'in' k" := (bind c (fun x => k))
  (at level 10, x pattern, c at level 100, k at level 200) : obj_scope.
Notation "c ';;' k" := (bind c (fun _ => k))
  (at level 100, k at level 200, right associativity) : obj_scope.

(* ===================================================================== *)
(** ** One-dimensional NumPy arrays *)
(* ===================================================================== *)

Module Np.

Definition len (a : list fnum) : Z := Z.of_nat (length a).

(** [a[i]] with Python's negative indices. *)
Definition index (a : list fnum) (i : Z) : result fnum :=
  let j := if i <? 0 then i + len a else i in
  if j <? 0 then Raise IndexError
  else match a !! Z.to_nat j with
       | Some x => Ok x
       | None => Raise IndexError
       end.

(** Normalisation of a slice bound. *)
Definition bound (a : list fnum) (i : Z) : Z :=
  if i <? 0 then Z.max 0 (i + len a) else Z.min i (len a).

(** [a[start:stop]] and [a[start:]]. *)
Definition slice (a : list fnum) (start stop : Z) : list fnum :=
  let s := bound a start in
  let e := bound a stop in
  take (Z.to_nat (e - s)) (drop (Z.to_nat s) a).

Definition slice_from (a : list fnum) (start : Z) : list fnum :=
  drop (Z.to_nat (bound a start)) a.

(** [np.full(n, v)]; the guard at its only call site keeps [n] positive. *)
Definition full (n : Z) (v : fnum) : list fnum := replicate (Z.to_nat n) v.

(** [np.zeros(n)] raises on a negative dimension. *)
Definition zeros (n : Z) : result (list fnum) :=
  if n <? 0 then Raise ValueError else Ok (replicate (Z.to_nat n) (Fin 0)).

(** [np.sum] *)
Definition sum (a : list fnum) : fnum := foldr fadd (Fin 0) a.

(** [np.max] raises on an empty array and propagates NaN. *)
Definition max (a : list fnum) : result fnum :=
  match a with
  | [] => Raise ValueError
  | x :: r => Ok (foldr fmax x r)
  end.

(** A binary ufunc on two one-dimensional operands: equal shapes combine
    pointwise, a length-one operand is stretched, anything else raises. *)
Definition broadcast2 (f : fnum -> fnum -> fnum) (a b : list fnum)
  : result (list fnum) :=
  if (length a =? length b)%nat then Ok (zip_with f a b)
  else match a, b with
       | [x], _ => Ok (map (f x) b)
       | _, [y] => Ok (map (fun x => f x y) a)
       | _, _ => Raise ValueError
       end.

(** [a += b]: the broadcast shape has to be the shape of [a]. *)
Definition iadd (a b : list fnum) : result (list fnum) :=
  match broadcast2 fadd a b with
  | Ok r => if (length r =? length a)%nat then Ok r else Raise ValueError
  | Raise e => Raise e
  end.

(** A configuration value used as an operand: a number or a sequence. *)
Inductive array_like : Type :=
| Scalar (x : fnum)
| Array (l : list fnum).

Definition mul (a : list fnum) (b : array_like) : result (list fnum) :=
  match b with
  | Scalar x => Ok (map (fun v => v * x)%F a)
  | Array l => broadcast2 fmul a l
  end.

Definition scale (a : list fnum) (x : fnum) : list fnum :=
  map (fun v => v * x)%F a.

Definition div_scalar (a : list fnum) (x : fnum) : list fnum :=
  map (fun v => v / x)%F a.

(** [np.clip(a, lo, hi)] with scalar bounds. *)
Definition clip (a : list fnum) (lo hi : fnum) : list fnum :=
  map (fun v => fclip v lo hi) a.

(** [np.clip(a, lo, hi)] with a scalar lower and an array upper bound. *)
Definition clip_upto (a : list fnum) (lo : fnum) (hi : list fnum)
  : result (list fnum) :=
  broadcast2 (fun v h => fclip v lo h) a hi.

End Np.

(* ===================================================================== *)
(** ** The environment object *)
(* ===================================================================== *)

(** The [environment] section of the configuration mapping.  A key that is
    absent from the mapping is [None]. *)
Record config : Type := {
  cfg_num_generators : option Z;
  cfg_generator_capacities : option (list fnum);
  cfg_generator_costs : option (list fnum);
  cfg_max_ramping : option Np.array_like;
  cfg_reward_weights : option (gmap string fnum);
}.

(** [config[key]] *)
Definition subscript {A} (v : option A) : result A :=
  match v with Some a => Ok a | None => Raise KeyError end.

(** [w[key]] on a dictionary. *)
Definition getitem (w : gmap string fnum) (key : string) : result fnum :=
  subscript (w !! key).

(** The attributes of a [PowerGridEnvironment] instance.  [np_random_seed]
    is the seed Gymnasium's [Env.reset] stores for the generator owned by
    the instance; Gymnasium accepts non-negative integer seeds only. *)
Record PowerGridEnvironment : Type := {
  load_data : list fnum;
  mode : string;
  num_generators : Z;
  capacities : list fnum;
  costs : list fnum;
  max_ramping : Np.array_like;
  reward_weights : gmap string fnum;
  obs_dim : Z;
  current_step : Z;
  current_output : list fnum;
  max_steps : Z;
  np_random_seed : option N;
}.

Definition set_current_step (v : Z) (self : PowerGridEnvironment) :=
  {| load_data := load_data self; mode := mode self;
     num_generators := num_generators self; capacities := capacities self;
     costs := costs self; max_ramping := max_ramping self;
     reward_weights := reward_weights self; obs_dim := obs_dim self;
     current_step := v; current_output := current_output self;
     max_steps := max_steps self; np_random_seed := np_random_seed self |}.

Definition set_current_output (v : list fnum) (self : PowerGridEnvironment) :=
  {| load_data := load_data self; mode := mode self;
     num_generators := num_generators self; capacities := capacities self;
     costs := costs self; max_ramping := max_ramping self;
     reward_weights := reward_weights self; obs_dim := obs_dim self;
     current_step := current_step self; current_output := v;
     max_steps := max_steps self; np_random_seed := np_random_seed self |}.

Definition set_np_random_seed (v : option N) (self : PowerGridEnvironment) :=
  {| load_data := load_data self; mode := mode self;
     num_generators := num_generators self; capacities := capacities self;
     costs := costs self; max_ramping := max_ramping self;
     reward_weights := reward_weights self; obs_dim := obs_dim self;
     current_step := current_step self; current_output := current_output self;
     max_steps := max_steps self; np_random_seed := v |}.

(** The weights [__init__] substitutes when [reward_weights] is absent. *)
Definition default_reward_weights : gmap string fnum :=
  {[ "generation_cost" := Fin 1;
     "supply_demand_gap" := Fin 10;
     "ramping_penalty" := Fin (1 # 10);
     "overload_penalty" := Fin 50 ]}.

(** [PowerGridEnvironment.__init__].  The action space, the observation
    space and the zero output vector are all built with [num_generators]
    as a dimension, which NumPy rejects when negative. *)
Definition init (data : list fnum) (cfg : config) (mode_ : string)
  : result PowerGridEnvironment :=
  match subscript (cfg_num_generators cfg) with Raise e => Raise e | Ok n =>
  match subscript (cfg_generator_capacities cfg) with Raise e => Raise e | Ok caps =>
  match subscript (cfg_generator_costs cfg) with Raise e => Raise e | Ok cs =>
  match subscript (cfg_max_ramping cfg) with Raise e => Raise e | Ok ramp =>
  let w := default default_reward_weights (cfg_reward_weights cfg) in
  match Np.zeros n with Raise e => Raise e | Ok zeros =>
  Ok {| load_data := data; mode := mode_;
        num_generators := n; capacities := caps; costs := cs;
        max_ramping := ramp; reward_weights := w;
        obs_dim := 1 + n + 4 + 2;
        current_step := 0; current_output := zeros;
        max_steps := Np.len data - 5; np_random_seed := None |}
  end end end end end.

(** What [step] returns. *)
(** Rounding.  NumPy computes in binary32 and binary64: the result of an
    arithmetic operation is its exact result rounded to the format of the
    operation, which the dtypes of the operands decide, and [np.sum] adds
    in an order of its own.  A [rounding] gives, for each place of a
    function where it computes, the rounding of that operation ([rnd]) or
    the sum NumPy returns there ([rsum]); roundings may overflow to an
    infinity and underflow to zero. *)
Record rounding : Type := {
  rnd : nat -> fnum -> fnum;
  rsum : nat -> list fnum -> fnum;
}.

(** The arithmetic without rounding. *)
Definition unrounded : rounding :=
  {| rnd := fun _ x => x; rsum := fun _ => Np.sum |}.

Record step_result : Type := {
  observation : list fnum;
  reward : fnum;
  terminated : bool;
  truncated : bool;
  info : gmap string fnum;
}.

Section Methods.

(** The two time features, [np.sin(2 * np.pi * hour / 24)] and
    [np.cos(2 * np.pi * hour / 24)], as functions of the hour. *)
Variable sin_hour cos_hour : Z -> fnum.

(** The process-wide generator behind [np.random]: its state, and the
    sample [np.random.randint(low, high)] takes from a state when the
    range is not empty. *)
Variable G : Type.
Variable draw : Z -> Z -> G -> Z * G.

Local Open Scope obj_scope.

(** [PowerGridEnvironment._get_observation] *)
Definition _get_observation : M PowerGridEnvironment (list fnum) :=
  let* self := get in
  let* current_load := lift (Np.index (load_data self) (current_step self)) in
  let forecast_steps := 4 in
  let* forecast :=
    if Np.len (load_data self) <? current_step self + 1 + forecast_steps then
      let remaining := Np.len (load_data self) - (current_step self + 1) in
      let forecast := Np.slice_from (load_data self) (current_step self + 1) in
      if remaining <? forecast_steps then
        let* last := lift (Np.index (load_data self) (-1)) in
        let padding := Np.full (forecast_steps - remaining) last in
        ret (forecast ++ padding)
      else ret forecast
    else
      ret (Np.slice (load_data self) (current_step self + 1)
                    (current_step self + 1 + forecast_steps)) in
  let hour := current_step self mod 24 in
  let time_features := [sin_hour hour; cos_hour hour] in
  let norm_load := Np.div_scalar [current_load] (Fin 10000) in
  let* top := lift (Np.max (capacities self)) in
  let norm_output := Np.div_scalar (current_output self) top in
  let norm_forecast := Np.div_scalar forecast (Fin 10000) in
  ret (norm_load ++ norm_output ++ norm_forecast ++ time_features).

(** [PowerGridEnvironment._calculate_reward], in the arithmetic [R]: every
    product, quotient, sum and difference is rounded at its place;
    [np.abs], the negation and the comparison are exact. *)
Definition _calculate_reward (R : rounding)
    (load generation : fnum) (adjustments : list fnum)
  : M PowerGridEnvironment (fnum * gmap string fnum) :=
  let* self := get in
  let* weighted :=
    lift (Np.broadcast2 (fun o c => rnd R 0 (o * c)%F)
                        (current_output self) (costs self)) in
  let op_cost := rsum R 1 weighted in
  let gap := fabs (rnd R 2 (generation - load)%F) in
  let ramping_cost := rsum R 3 (map fabs adjustments) in
  let overload :=
    if fltb (rnd R 4 (Fin (1 # 10) * load)%F) gap
    then rnd R 5 (gap * Fin 2)%F else Fin 0 in
  let w := reward_weights self in
  let* w_cost := lift (getitem w "generation_cost") in
  let* w_gap := lift (getitem w "supply_demand_gap") in
  let* w_ramp := lift (getitem w "ramping_penalty") in
  let* w_over := lift (getitem w "overload_penalty") in
  let reward :=
    (- rnd R 16 (rnd R 15 (rnd R 14 (
          rnd R 7 (w_cost * rnd R 6 (op_cost / Fin 10000)) +
          rnd R 9 (w_gap * rnd R 8 (gap / Fin 1000))) +
          rnd R 11 (w_ramp * rnd R 10 (ramping_cost / Fin 100))) +
          rnd R 13 (w_over * rnd R 12 (overload / Fin 1000))))%F in
  let info : gmap string fnum :=
    {[ "step_reward" := reward; "cost" := op_cost; "gap" := gap;
       "ramping" := ramping_cost; "overload" := overload ]} in
  ret (reward, info).

(** [PowerGridEnvironment.step] *)
Definition step (action : list fnum) : M PowerGridEnvironment step_result :=
  let action := Np.clip action (Fin (-1)) (Fin 1) in
  let* self := get in
  let* adjustments := lift (Np.mul action (max_ramping self)) in
  let* moved := lift (Np.iadd (current_output self) adjustments) in
  modify (set_current_output moved) ;;
  let* clamped := lift (Np.clip_upto moved (Fin 0) (capacities self)) in
  modify (set_current_output clamped) ;;
  let* self := get in
  let* current_load := lift (Np.index (load_data self) (current_step self)) in
  let total_generation := Np.sum (current_output self) in
  let* (reward, reward_info) :=
    _calculate_reward unrounded current_load total_generation adjustments in
  modify (fun s => set_current_step (current_step s + 1) s) ;;
  let* self := get in
  let terminated := false in
  let truncated := max_steps self <=? current_step self in
  let* observation := _get_observation in
  let* cost := lift (getitem reward_info "cost") in
  let* gap := lift (getitem reward_info "gap") in
  let info : gmap string fnum :=
    reward_info ∪ {[ "load" := current_load; "generation" := total_generation;
                     "cost" := cost; "gap" := gap ]} in
  ret {| observation := observation; reward := reward;
         terminated := terminated; truncated := truncated; info := info |}.

(** A method of the object run in the process, whose state also holds the
    global generator. *)
Definition on_self {A} (c : M PowerGridEnvironment A)
  : M (PowerGridEnvironment * G) A :=
  fun '(self, g) => let '(r, self') := c self in (r, (self', g)).

(** [np.random.randint(low, high)]: raises on an empty range, otherwise
    samples from the global generator and advances it. *)
Definition np_random_randint (low high : Z) : M (PowerGridEnvironment * G) Z :=
  fun '(self, g) =>
    if high <=? low then (Raise ValueError, (self, g))
    else let '(v, g') := draw low high g in (Ok v, (self, g')).

(** Gymnasium's [Env.reset(seed=seed)]: seeds the generator owned by the
    instance when a seed is given. *)
Definition super_reset (seed : option N) : M PowerGridEnvironment unit :=
  match seed with
  | Some z => modify (set_np_random_seed (Some z))
  | None => ret tt
  end.

(** [PowerGridEnvironment.reset] *)
Definition reset (seed : option N)
  : M (PowerGridEnvironment * G) (list fnum * gmap string fnum) :=
  on_self (super_reset seed) ;;
  let* self := on_self get in
  (if String.eqb (mode self) "train" then
     let* start := np_random_randint 0 (max_steps self - 24) in
     on_self (modify (set_current_step start))
   else
     on_self (modify (set_current_step 0))) ;;
  on_self (modify (fun s => set_current_output (Np.scale (capacities s) (Fin (1 # 2))) s)) ;;
  let* observation := on_self _get_observation in
  let info : gmap string fnum := ∅ in
  ret (observation, info).

End Methods.

(* ===================================================================== *)
(** ** Vocabulary of the statements *)
(* ===================================================================== *)

(** Order and equality as propositions. *)
Definition fle (x y : fnum) : Prop := fleb x y = true.
Definition feq (x y : fnum) : Prop := feqb x y = true.

(** Pointwise equality of arrays. *)
Definition arr_eq (a b : list fnum) : Prop := Forall2 feq a b.

(** No entry of the array is NaN. *)
Definition nan_free (a : list fnum) : Prop := Forall (fun x => isnan x = false) a.

(** Every entry of the array is finite ([np.all(np.isfinite(a))]). *)
Definition all_finite (a : list fnum) : bool := forallb isfinite a.

(** [preserves f c]: running [c] does not change the view [f] of the
    object, whether [c] returns or raises. *)
Definition preserves {S A X} (f : S -> X) (c : M S A) : Prop :=
  forall s, f (snd (c s)) = f s.


(** The attributes fixed at construction. *)
Definition registry (s : PowerGridEnvironment) :=
  (load_data s, mode s, num_generators s, capacities s, costs s,
   max_ramping s, reward_weights s, obs_dim s, max_steps s).

(** [k in w] *)
Definition has_key (w : gmap string fnum) (k : string) : bool :=
  match w !! k with Some _ => true | None => false end.

Definition weights_complete (w : gmap string fnum) : bool :=
  has_key w "generation_cost" && has_key w "supply_demand_gap" &&
  has_key w "ramping_penalty" && has_key w "overload_penalty".

(** The ramp limit is one number, or one number per generator. *)
Definition ramp_fits (n : nat) (r : Np.array_like) : bool :=
  match r with
  | Np.Scalar _ => true
  | Np.Array l => (length l =? n)%nat
  end.

(** A consistent object: one capacity, one cost and one output per
    generator, at least one generator, the four weights present, and the
    horizon the constructor computes. *)
Definition shape_ok (s : PowerGridEnvironment) : bool :=
  (length (current_output s) =? length (capacities s))%nat &&
  (length (costs s) =? length (capacities s))%nat &&
  negb (length (capacities s) =? 0)%nat &&
  ramp_fits (length (capacities s)) (max_ramping s) &&
  weights_complete (reward_weights s) &&
  (max_steps s =? Np.len (load_data s) - 5).

(** An action the array operations of [step] accept: one entry per
    generator, or a single entry that NumPy stretches. *)
Definition action_fits (a : list fnum) (s : PowerGridEnvironment) : Prop :=
  length a = length (capacities s) \/ length a = 1%nat.

(** The physical bounds: every output is a number between zero, the lower
    bound [step] clamps to, and the capacity of its generator. *)
Definition in_bounds (s : PowerGridEnvironment) : Prop :=
  Forall2 (fun o c => fle (Fin 0) o /\ fle o c)
          (current_output s) (capacities s).

Definition ramp_finite (r : Np.array_like) : bool :=
  match r with
  | Np.Scalar x => isfinite x
  | Np.Array l => forallb isfinite l
  end.

(** A well-formed generator registry: as many capacities and costs as
    generators, at least one generator, non-negative capacities, finite
    ramp limits, and all four reward weights. *)
Definition config_ok (cfg : config) : bool :=
  match cfg_num_generators cfg, cfg_generator_capacities cfg,
        cfg_generator_costs cfg, cfg_max_ramping cfg with
  | Some n, Some caps, Some cs, Some ramp =>
      (n =? Np.len caps) && (0 <? n) &&
      (length cs =? length caps)%nat &&
      ramp_fits (length caps) ramp &&
      forallb (fleb (Fin 0)) caps &&
      ramp_finite ramp &&
      weights_complete (default default_reward_weights (cfg_reward_weights cfg))
  | _, _, _, _ => false
  end.

(** The object after Gymnasium's part of [reset]. *)
Definition seeded (seed : option N) (s : PowerGridEnvironment) :=
  match seed with
  | Some z => set_np_random_seed (Some z) s
  | None => s
  end.

(** The object once [reset] has chosen the start offset [start]. *)
Definition restarted (start : Z) (s : PowerGridEnvironment) :=
  set_current_output (Np.scale (capacities s) (Fin (1 # 2)))
                     (set_current_step start s).

Section Reachability.
Variable sin_hour cos_hour : Z -> fnum.
Variable G : Type.
Variable draw : Z -> Z -> G -> Z * G.

(** The objects a program can produce from [s0] by calling [reset] and
    [step], the latter on actions satisfying [P]; a call that raises still
    leaves its object behind. *)
Inductive reachable (P : list fnum -> Prop) (s0 : PowerGridEnvironment)
  : PowerGridEnvironment -> Prop :=
| reach_init : reachable P s0 s0
| reach_reset s seed g :
    reachable P s0 s ->
    reachable P s0 (fst (snd (reset sin_hour cos_hour G draw seed (s, g))))
| reach_step s a :
    reachable P s0 s -> P a ->
    reachable P s0 (snd (step sin_hour cos_hour a s)).

(** Feeding a list of actions to [step], one after the other. *)
Fixpoint run (actions : list (list fnum))
  : M PowerGridEnvironment (list step_result) :=
  match actions with
  | [] => ret []
  | a :: rest =>
      bind (step sin_hour cos_hour a) (fun r =>
      bind (run rest) (fun rs => ret (r :: rs)))
  end.

End Reachability.

(** *** Concrete data for the examples *)

(** The scenario of the specification: five generators of 100 MW. *)
Definition scenario_config (w : option (gmap string fnum)) : config :=
  {| cfg_num_generators := Some 5;
     cfg_generator_capacities := Some (map of_Z [100; 100; 100; 100; 100]);
     cfg_generator_costs := Some (map of_Z [10; 30; 50; 0; 0]);
     cfg_max_ramping := Some (Np.Scalar (of_Z 10));
     cfg_reward_weights := w |}.

Definition demand10 : list fnum :=
  map of_Z [300; 310; 320; 330; 340; 350; 360; 370; 380; 390].

(** Forty hourly samples, enough for a training episode. *)
Definition demand40 : list fnum :=
  map (fun k => of_Z (300 + Z.of_nat k)) (seq 0 40).

(** Stand-ins for the sine and cosine tables and for the global generator:
    a counter whose value picks the sample. *)
Definition sin_table (hour : Z) : fnum := Fin 0.
Definition cos_table (hour : Z) : fnum := Fin 1.
Definition counter_draw (low high : Z) (g : Z) : Z * Z :=
  (low + g mod (high - low), g + 1).

(** An object to fall back on when a constructor call of an example would
    have raised. *)
Definition no_env : PowerGridEnvironment :=
  {| load_data := []; mode := ""; num_generators := 0; capacities := [];
     costs := []; max_ramping := Np.Scalar (Fin 0); reward_weights := ∅;
     obs_dim := 0; current_step := 0; current_output := [];
     max_steps := 0; np_random_seed := None |}.

Definition built (r : result PowerGridEnvironment) : PowerGridEnvironment :=
  match r with Ok s => s | Raise _ => no_env end.

(** The scenario environment in evaluation mode on ten samples, and the
    object after its first [reset]. *)
Definition scenario_env : PowerGridEnvironment :=
  built (init demand10 (scenario_config None) "test").

Definition scenario_started : PowerGridEnvironment :=
  fst (snd (reset sin_table cos_table Z counter_draw None (scenario_env, 0))).

(** What [reset] returns once the object has been restarted: the
    observation of the restarted object and an empty diagnostics record,
    or the exception of the observation builder. *)
Definition observed (sin_hour cos_hour : Z -> fnum) (s : PowerGridEnvironment)
  : result (list fnum * gmap string fnum) :=
  match fst (_get_observation sin_hour cos_hour s) with
  | Ok obs => Ok (obs, ∅)
  | Raise e => Raise e
  end.

(** A finite, non-negative number. *)
Definition nonneg (x : fnum) : bool :=
  match x with Fin q => Qle_bool 0 q | _ => false end.

(** The rational a finite value stands for. *)
Definition to_Q (x : fnum) : Q :=
  match x with Fin q => q | _ => 0%Q end.

(** The weight a dictionary gives to a cost component. *)
Definition weight_of (w : gmap string fnum) (key : string) : Q :=
  match w !! key with Some x => to_Q x | None => 0%Q end.

Definition weight_nonneg (w : gmap string fnum) (key : string) : bool :=
  match w !! key with Some x => nonneg x | None => false end.

(** A feasible situation for the reward engine: finite non-negative
    outputs, costs, weights and load, one cost per output, and finite
    generation and adjustments. *)
Definition feasible (s : PowerGridEnvironment) (load generation : fnum)
    (adjustments : list fnum) : bool :=
  forallb nonneg (current_output s) && forallb nonneg (costs s) &&
  (length (current_output s) =? length (costs s))%nat &&
  weight_nonneg (reward_weights s) "generation_cost" &&
  weight_nonneg (reward_weights s) "supply_demand_gap" &&
  weight_nonneg (reward_weights s) "ramping_penalty" &&
  weight_nonneg (reward_weights s) "overload_penalty" &&
  nonneg load && isfinite generation && forallb isfinite adjustments.

(** Not negative: NaN, zero, a positive number or plus infinity. *)
Definition not_negative (x : fnum) : bool := isnan x || fleb (Fin 0) x.

(** What rounding to any IEEE format does, whatever else it does: it never
    makes a negative result of one that is not negative, and a sum of
    terms that are not negative is not negative. *)
Definition keeps_sign (R : rounding) : Prop :=
  (forall i x, not_negative x = true -> not_negative (rnd R i x) = true) /\
  (forall i l, Forall (fun x => not_negative x = true) l ->
               not_negative (rsum R i l) = true).

(** The overload penalty for a load and a gap: twice the gap when the gap
    exceeds a tenth of the load. *)
Definition overload_of (R : rounding) (load gap : fnum) : fnum :=
  if fltb (rnd R 4 (Fin (1 # 10) * load)%F) gap
  then rnd R 5 (gap * Fin 2)%F else Fin 0.

(** The negated weighted sum of the four components, each over its
    scale, added from left to right. *)
Definition weighted_sum (R : rounding) (w_cost w_gap w_ramp w_over : fnum)
    (cost gap ramping overload : fnum) : fnum :=
  let t1 := rnd R 7 (w_cost * rnd R 6 (cost / Fin 10000))%F in
  let t2 := rnd R 9 (w_gap * rnd R 8 (gap / Fin 1000))%F in
  let t3 := rnd R 11 (w_ramp * rnd R 10 (ramping / Fin 100))%F in
  let t4 := rnd R 13 (w_over * rnd R 12 (overload / Fin 1000))%F in
  (- rnd R 16 (rnd R 15 (rnd R 14 (t1 + t2) + t3) + t4))%F.

(** A format that overflows beyond [top] and is exact below. *)
Definition overflowing (top : Q) : rounding :=
  let r x :=
    match x with
    | Fin q => if Qltb top q then PInf
               else if Qltb q (- top) then NInf else x
    | _ => x
    end in
  {| rnd := fun _ => r; rsum := fun _ l => r (Np.sum l) |}.

(** Reward weights that are all zero, and the scenario environment with
    them, after its first [reset]. *)
Definition zero_weights : gmap string fnum :=
  {[ "generation_cost" := Fin 0; "supply_demand_gap" := Fin 0;
     "ramping_penalty" := Fin 0; "overload_penalty" := Fin 0 ]}.

Definition unweighted_started : PowerGridEnvironment :=
  fst (snd (reset sin_table cos_table Z counter_draw None
              (built (init demand10 (scenario_config (Some zero_weights)) "test"),
               0))).

(** The scenario environment in training mode on forty samples. *)
Definition training_env : PowerGridEnvironment :=
  built (init demand40 (scenario_config None) "train").

(* ===================================================================== *)
(** ** Vocabulary for the observation *)
(* ===================================================================== *)

(** The demand sample at position [j]. *)
Definition sample (data : list fnum) (j : Z) : fnum :=
  default NaN (data !! Z.to_nat j).

(** The forecast window seen from position [t]: the next four samples,
    each position beyond the series replaced by the last one. *)
Definition forecast_window (data : list fnum) (t : Z) : list fnum :=
  map (fun i => sample data (Z.min (t + 1 + i) (Np.len data - 1)))
      [0; 1; 2; 3].

(** A generator behind [np.random] that samples inside the range it is
    given. *)
Definition draws_in_range {G : Type} (draw : Z -> Z -> G -> Z * G) : Prop :=
  forall low high g, low < high -> low <= fst (draw low high g) < high.

(** The scenario environment after nine transitions from its first
    [reset]: the position is the last sample of the ten. *)
Definition scenario_exhausted : PowerGridEnvironment :=
  snd (run sin_table cos_table (replicate 9 (replicate 5 (Fin 0)))
           scenario_started).

(* ===================================================================== *)
(** ** Baseline policies ([agent/baseline_policies.py]) *)
(* ===================================================================== *)

Module Py.

(** [l[i]] on a sequence, with Python's negative indices. *)
Definition index {A} (l : list A) (i : Z) : result A :=
  let j := if i <? 0 then i + Z.of_nat (length l) else i in
  if j <? 0 then Raise IndexError
  else match l !! Z.to_nat j with
       | Some x => Ok x
       | None => Raise IndexError
       end.

(** [l[i] = v] on an array. *)
Definition setitem {A} (l : list A) (i : Z) (v : A) : result (list A) :=
  let j := if i <? 0 then i + Z.of_nat (length l) else i in
  if (j <? 0) || (Z.of_nat (length l) <=? j) then Raise IndexError
  else Ok (<[Z.to_nat j := v]> l).

End Py.

(** The order [np.argsort] sorts by: NaN compares as the largest value. *)
Definition sort_le (x y : fnum) : bool := isnan y || fleb x y.

(** [idx] is a result [np.argsort] may give for [c]: the positions of [c],
    each once, in an order of non-decreasing value.  Which of two equal
    values comes first is left open, as it is by NumPy's default sort. *)
Definition argsorts (c : list fnum) (idx : list Z) : Prop :=
  idx ≡ₚ (Z.of_nat <$> seq 0 (length c)) /\
  StronglySorted (fun i j => sort_le (sample c i) (sample c j) = true) idx.

(** The policy objects.  A configuration is the [environment] section as
    for the environment; [None] stands for a missing or empty mapping. *)
Record GreedyPolicy : Type := {
  gp_num_generators : Z;
  gp_costs : list fnum;
}.

Record RuleBasedPolicy : Type := {
  rb_num_generators : Z;
}.

(** [GreedyPolicy.__init__] *)
Definition greedy_init (cfg : option config) : result GreedyPolicy :=
  match cfg with
  | Some c =>
      match subscript (cfg_num_generators c) with Raise e => Raise e | Ok n =>
      match subscript (cfg_generator_costs c) with Raise e => Raise e | Ok cs =>
      Ok {| gp_num_generators := n; gp_costs := cs |}
      end end
  | None =>
      Ok {| gp_num_generators := 5;
            gp_costs := map of_Z [10; 30; 50; 0; 0] |}
  end.

(** [RuleBasedPolicy.__init__] *)
Definition rule_based_init (cfg : option config) : result RuleBasedPolicy :=
  match cfg with
  | Some c =>
      match subscript (cfg_num_generators c) with Raise e => Raise e | Ok n =>
      Ok {| rb_num_generators := n |}
      end
  | None => Ok {| rb_num_generators := 5 |}
  end.

(** [RuleBasedPolicy.select_action] *)
Definition rule_based_select_action (self : RuleBasedPolicy)
    (observation : list fnum) : result (list fnum) :=
  Np.zeros (rb_num_generators self).

Section Greedy.

(** [np.argsort] *)
Variable argsort : list fnum -> list Z.

(** [GreedyPolicy.select_action] *)
Definition greedy_select_action (self : GreedyPolicy)
    (observation : list fnum) : result (list fnum) :=
  let sorted_indices := argsort (gp_costs self) in
  match Np.zeros (gp_num_generators self) with Raise e => Raise e | Ok action =>
  match Py.index sorted_indices 0 with Raise e => Raise e | Ok i0 =>
  match Py.setitem action i0 (Fin 1) with Raise e => Raise e | Ok action =>
  match Py.index sorted_indices 1 with Raise e => Raise e | Ok i1 =>
  match Py.setitem action i1 (Fin (1 # 2)) with Raise e => Raise e | Ok action =>
  match Py.index sorted_indices (-1) with Raise e => Raise e | Ok i2 =>
  match Py.setitem action i2 (Fin (-1)) with Raise e => Raise e | Ok action =>
  match Py.index sorted_indices (-2) with Raise e => Raise e | Ok i3 =>
  match Py.setitem action i3 (Fin (- (1 # 2))) with Raise e => Raise e | Ok action =>
  Ok action
  end end end end end end end end end.

End Greedy.

(** A concrete argsort for the examples: insertion of each position, from
    the last to the first, before the first position of larger value. *)
Fixpoint insert_index (c : list fnum) (i : Z) (sorted : list Z) : list Z :=
  match sorted with
  | [] => [i]
  | j :: rest =>
      if sort_le (sample c i) (sample c j) then i :: sorted
      else j :: insert_index c i rest
  end.

Definition insertion_argsort (c : list fnum) : list Z :=
  foldr (insert_index c) [] (Z.of_nat <$> seq 0 (length c)).

(** The fallback policy [GreedyPolicy()] builds without a configuration. *)
Definition default_greedy : GreedyPolicy :=
  {| gp_num_generators := 5; gp_costs := map of_Z [10; 30; 50; 0; 0] |}.

(** The values [GreedyPolicy.select_action] writes into an action. *)
Definition greedy_levels : list fnum :=
  [Fin 1; Fin (1 # 2); Fin 0; Fin (-1); Fin (- (1 # 2))].

(** Reward weights that lack the overload entry, and the scenario
    configuration that carries them. *)
Definition partial_weights : gmap string fnum :=
  {[ "generation_cost" := Fin 1; "supply_demand_gap" := Fin 10;
     "ramping_penalty" := Fin (1 # 10) ]}.

(* ===================================================================== *)
(** ** Episode data ([data/preprocessor.py]) *)
(* ===================================================================== *)

(** [prepare_data_for_environment], on the [load_mw] column of the frame. *)
Definition prepare_data_for_environment (df : list fnum)
    (start_idx episode_length : Z) : result (list fnum) :=
  let end_idx := Z.min (start_idx + episode_length) (Np.len df) in
  let episode_data := Np.slice df start_idx end_idx in
  if Np.len episode_data <? episode_length then
    match Np.index episode_data (-1) with
    | Raise e => Raise e
    | Ok last =>
        let padding := Np.full (episode_length - Np.len episode_data) last in
        Ok (episode_data ++ padding)
    end
  else Ok episode_data.

(* ===================================================================== *)
(** ** Splitting the data ([data/data_loader.py]) *)
(* ===================================================================== *)

(** The [data] section of the configuration mapping.  Ratios are YAML
    numbers, finite by type. *)
Record data_config : Type := {
  dc_dataset_url : option string;
  dc_local_path : option string;
  dc_train_ratio : option Q;
  dc_val_ratio : option Q;
  dc_test_ratio : option Q;
}.

(** The attributes of a [PowerDataLoader]. *)
Record PowerDataLoader : Type := {
  dl_config : data_config;
  dataset_url : string;
  local_path : string;
  train_ratio : Q;
  val_ratio : Q;
  test_ratio : Q;
}.

(** [PowerDataLoader.__init__] *)
Definition loader_init (cfg : data_config) : result PowerDataLoader :=
  match subscript (dc_local_path cfg) with
  | Raise e => Raise e
  | Ok path =>
      Ok {| dl_config := cfg;
            dataset_url := default ""%string (dc_dataset_url cfg);
            local_path := path;
            train_ratio := default (7 # 10) (dc_train_ratio cfg);
            val_ratio := default (15 # 100) (dc_val_ratio cfg);
            test_ratio := default (15 # 100) (dc_test_ratio cfg) |}
  end.

(** [int(x)] on a finite number: truncation towards zero. *)
Definition py_int (x : Q) : Z := Z.quot (Qnum x) (Z.pos (Qden x)).

(** [df.iloc[start:stop]], either bound possibly left out. *)
Definition iloc {A} (df : list A) (start stop : option Z) : list A :=
  let n := Z.of_nat (length df) in
  let bound i := if i <? 0 then Z.max 0 (i + n) else Z.min i n in
  let s := match start with Some i => bound i | None => 0 end in
  let e := match stop with Some i => bound i | None => n end in
  take (Z.to_nat (e - s)) (drop (Z.to_nat s) df).

(** [PowerDataLoader.split_data].  Python multiplies and adds the ratios
    in binary64: [round] is the rounding of a result to that format. *)
Definition split_data {A} (round : Q -> Q) (self : PowerDataLoader)
    (df : list A) : result (list A * list A * list A) :=
  let n := inject_Z (Z.of_nat (length df)) in
  match subscript (dc_train_ratio (dl_config self)) with Raise e => Raise e | Ok r1 =>
  let train_end := py_int (round (n * r1)%Q) in
  match subscript (dc_train_ratio (dl_config self)) with Raise e => Raise e | Ok r1' =>
  match subscript (dc_val_ratio (dl_config self)) with Raise e => Raise e | Ok r2 =>
  let val_end := py_int (round (n * round (r1' + r2)%Q)%Q) in
  let train_df := iloc df None (Some train_end) in
  let val_df := iloc df (Some train_end) (Some val_end) in
  let test_df := iloc df (Some val_end) None in
  Ok (train_df, val_df, test_df)
  end end end.

(** What rounding to nearest does within the range of a format: it keeps
    the order and it keeps zero. *)
Definition rounds_in_order (round : Q -> Q) : Prop :=
  (forall x y, (x <= y)%Q -> (round x <= round y)%Q) /\ (round 0 == 0)%Q.

(** A number of the format. *)
Definition representable (round : Q -> Q) (x : Q) : Prop := (round x == x)%Q.

(** A rounding that is not exact: towards minus infinity, to ten binary
    places. *)
Definition chop (x : Q) : Q := Qfloor (x * 1024) # 1024.

(* ===================================================================== *)
(** ** The evaluation loop ([training/evaluate.py]) *)
(* ===================================================================== *)

(** The locals of one pass of the episode loop of [evaluate_policy]. *)
Record episode : Type := {
  ep_reward : fnum;
  ep_cost : fnum;
  ep_gap : fnum;
  step_data : list (gmap string fnum);
}.

(** The lists [evaluate_policy] fills, one entry per episode, and the
    trajectory it keeps of episode 0. *)
Record evaluation : Type := {
  total_rewards : list fnum;
  total_costs : list fnum;
  supply_gaps : list fnum;
  trajectories : list (gmap string fnum);
}.

(** The three sums of an episode. *)
Definition totals (e : episode) : fnum * fnum * fnum :=
  (ep_reward e, ep_cost e, ep_gap e).

(** The locals after one more transition with diagnostics [load],
    [generation], [cost] and [gap]. *)
Definition advance (ep : Z) (r : step_result) (load generation cost gap : fnum)
    (e : episode) : episode :=
  {| ep_reward := (ep_reward e + reward r)%F;
     ep_cost := (ep_cost e + cost)%F;
     ep_gap := (ep_gap e + gap)%F;
     step_data :=
       if (ep =? 0) && (Z.of_nat (length (step_data e)) <? 168) then
         step_data e ++ [ ({[ "load" := load; "generation" := generation;
                              "cost" := cost; "gap" := gap ]}
                           : gmap string fnum) ]
       else step_data e |}.

Section Evaluate.
Variable sin_hour cos_hour : Z -> fnum.
Variable G : Type.
Variable draw : Z -> Z -> G -> Z * G.

(** The policy: [policy.predict(obs, deterministic=True)[0]] when it has
    that method, [policy.select_action(obs)] otherwise, for a policy whose
    action is a function of the observation. *)
Variable act : list fnum -> result (list fnum).

Local Open Scope obj_scope.

(** The [while not (done or truncated)] loop of [evaluate_policy], entered
    with both flags false.  [fuel] bounds the number of passes: the result
    is [None] when the loop has not ended within them. *)
Fixpoint episode_loop (fuel : nat) (ep : Z) (obs : list fnum) (e : episode)
  : M PowerGridEnvironment (option episode) :=
  match fuel with
  | O => ret None
  | S fuel =>
      let* action := lift (act obs) in
      let* r := step sin_hour cos_hour action in
      let ep_reward' := (ep_reward e + reward r)%F in
      let* cost := lift (getitem (info r) "cost") in
      let ep_cost' := (ep_cost e + cost)%F in
      let* gap := lift (getitem (info r) "gap") in
      let ep_gap' := (ep_gap e + gap)%F in
      let* step_data' :=
        if (ep =? 0) && (Z.of_nat (length (step_data e)) <? 168) then
          let* load := lift (getitem (info r) "load") in
          let* generation := lift (getitem (info r) "generation") in
          let* cost := lift (getitem (info r) "cost") in
          let* gap := lift (getitem (info r) "gap") in
          ret (step_data e ++ [ ({[ "load" := load; "generation" := generation;
                                    "cost" := cost; "gap" := gap ]}
                                 : gmap string fnum) ])
        else ret (step_data e) in
      let e' := {| ep_reward := ep_reward'; ep_cost := ep_cost';
                   ep_gap := ep_gap'; step_data := step_data' |} in
      if terminated r || truncated r then ret (Some e')
      else episode_loop fuel ep (observation r) e'
  end.

(** The [for ep in ...] loop of [evaluate_policy] over the episode numbers
    [eps]. *)
Fixpoint evaluate_episodes (fuel : nat) (eps : list Z) (ev : evaluation)
  : M (PowerGridEnvironment * G) (option evaluation) :=
  match eps with
  | [] => ret (Some ev)
  | ep :: rest =>
      let* first := reset sin_hour cos_hour G draw None in
      let obs := fst first in
      let* done :=
        on_self G (episode_loop fuel ep obs
                     {| ep_reward := Fin 0; ep_cost := Fin 0; ep_gap := Fin 0;
                        step_data := [] |}) in
      match done with
      | None => ret None
      | Some e =>
          evaluate_episodes fuel rest
            {| total_rewards := total_rewards ev ++ [ep_reward e];
               total_costs := total_costs ev ++ [ep_cost e];
               supply_gaps := supply_gaps ev ++ [ep_gap e];
               trajectories :=
                 if ep =? 0 then step_data e else trajectories ev |}
      end
  end.

(** [evaluate_policy], up to the lists its metrics are computed from; the
    mean and the standard deviation NumPy takes of them are not part of
    the model. *)
Definition evaluate_policy (fuel : nat) (episodes : Z)
  : M (PowerGridEnvironment * G) (option evaluation) :=
  evaluate_episodes fuel (Z.of_nat <$> seq 0 (Z.to_nat episodes))
    {| total_rewards := []; total_costs := []; supply_gaps := [];
       trajectories := [] |}.

End Evaluate.

(** The locals an episode starts with, and the empty lists of
    [evaluate_policy]. *)
Definition episode_start : episode :=
  {| ep_reward := Fin 0; ep_cost := Fin 0; ep_gap := Fin 0; step_data := [] |}.

(** The number of transitions of an evaluation episode on a series of
    [n] samples. *)
Definition episode_steps (n : Z) : nat := Z.to_nat (Z.max 1 (n - 5)).

(** A policy that answers every observation with one entry per generator. *)
Definition well_shaped (act : list fnum -> result (list fnum))
    (s : PowerGridEnvironment) : Prop :=
  forall obs, exists a, act obs = Ok a /\ length a = length (capacities s).
(* ===================================================================== *)
(** ** Facts about floating-point values *)
(* ===================================================================== *)

Lemma Qle_bool_false (a b : Q) : Qle_bool a b = false -> (b < a)%Q.
Proof.
  intros H. apply Qnot_le_lt. intros Hle.
  apply Qle_bool_iff in Hle. congruence.
Qed.

Lemma Qltb_true (a b : Q) : Qltb a b = true -> (a < b)%Q.
Proof.
  unfold Qltb. intros H. apply negb_true_iff in H.
  now apply Qle_bool_false.
Qed.

Lemma Qltb_false (a b : Q) : Qltb a b = false -> (b <= a)%Q.
Proof.
  unfold Qltb. intros H. apply negb_false_iff in H.
  now apply Qle_bool_iff.
Qed.

Lemma Qeq_bool_true (a b : Q) : Qeq_bool a b = true -> (a == b)%Q.
Proof. apply Qeq_bool_iff. Qed.

Lemma Qeq_bool_false (a b : Q) : Qeq_bool a b = false -> ~ (a == b)%Q.
Proof. intros H He. apply Qeq_bool_iff in He. congruence. Qed.

Lemma Qltb_intro (a b : Q) : (a < b)%Q -> Qltb a b = true.
Proof.
  intros H. unfold Qltb. destruct (Qle_bool b a) eqn:E; [|reflexivity].
  apply Qle_bool_iff in E. lra.
Qed.

Lemma Qltb_false_intro (a b : Q) : (b <= a)%Q -> Qltb a b = false.
Proof.
  intros H. unfold Qltb. apply Qle_bool_iff in H. now rewrite H.
Qed.

Lemma Qeq_bool_false_intro (a b : Q) : ~ (a == b)%Q -> Qeq_bool a b = false.
Proof.
  intros H. destruct (Qeq_bool a b) eqn:E; [|reflexivity].
  apply Qeq_bool_iff in E. contradiction.
Qed.

(** Turn every boolean comparison of rationals among the hypotheses into
    the proposition it decides. *)
Ltac q_reflect :=
  repeat match goal with
    | H : Qle_bool _ _ = true |- _ => apply Qle_bool_iff in H
    | H : Qle_bool _ _ = false |- _ => apply Qle_bool_false in H
    | H : Qltb _ _ = true |- _ => apply Qltb_true in H
    | H : Qltb _ _ = false |- _ => apply Qltb_false in H
    | H : Qeq_bool _ _ = true |- _ => apply Qeq_bool_true in H
    | H : Qeq_bool _ _ = false |- _ => apply Qeq_bool_false in H
    end.

(** Split on the tests an expression branches on. *)
Ltac q_cases :=
  repeat match goal with
    | |- context [if ?b then _ else _] => destruct b eqn:?
    end.

Lemma Qle_bool_intro (a b : Q) : (a <= b)%Q -> Qle_bool a b = true.
Proof. apply Qle_bool_iff. Qed.

Lemma fle_Fin (a b : Q) : fle (Fin a) (Fin b) <-> (a <= b)%Q.
Proof. unfold fle; simpl. apply Qle_bool_iff. Qed.

Lemma fle_not_nan_l (x y : fnum) : fle x y -> isnan x = false.
Proof. destruct x, y; simpl; unfold fle; simpl; congruence. Qed.

Lemma fle_not_nan_r (x y : fnum) : fle x y -> isnan y = false.
Proof. destruct x, y; simpl; unfold fle; simpl; congruence. Qed.

(** The scalar clamp lands between its bounds whenever its argument is a
    number and the bounds are ordered. *)
Lemma fclip_bounds (x lo hi : fnum) :
  isnan x = false -> fle lo hi ->
  fle lo (fclip x lo hi) /\ fle (fclip x lo hi) hi.
Proof.
  unfold fle, fclip.
  destruct x as [a| | |], lo as [l| | |], hi as [h| | |];
    simpl; intros Hx Hb; try discriminate; split;
    q_cases; simpl; q_cases; simpl; try reflexivity; try discriminate;
    q_reflect; try (apply Qle_bool_intro; lra); try lra.
Qed.

(** The clamp of the action: a number ends up finite in [[-1, 1]]. *)
Lemma fclip_unit (x : fnum) :
  isnan x = false ->
  exists q, fclip x (Fin (-1)) (Fin 1) = Fin q /\ (-1 <= q <= 1)%Q.
Proof.
  intros Hx. destruct x as [a| | |]; try discriminate; unfold fclip; simpl.
  - q_cases; simpl; q_cases; q_reflect; eexists; split; try reflexivity; lra.
  - exists 1%Q. split; [reflexivity | lra].
  - exists (-1)%Q. split; [reflexivity | lra].
Qed.

(** NaN goes through the clamp. *)
Lemma fclip_nan (lo hi : fnum) : fclip NaN lo hi = NaN.
Proof. reflexivity. Qed.

Lemma fadd_nan_l (y : fnum) : fadd NaN y = NaN.
Proof. reflexivity. Qed.

Lemma fadd_fin_not_nan (x : fnum) (q : Q) :
  isnan x = false -> isnan (x + Fin q)%F = false.
Proof. destruct x; simpl; congruence. Qed.

(** Half of a non-negative capacity lies between zero and the capacity. *)
Lemma half_capacity_bounds (c : fnum) :
  fle (Fin 0) c ->
  fle (Fin 0) (c * Fin (1 # 2))%F /\ fle (c * Fin (1 # 2))%F c.
Proof.
  unfold fle. destruct c as [a| | |]; simpl; try discriminate.
  - intros H. q_reflect. split; apply Qle_bool_intro; lra.
  - intros _. split; reflexivity.
Qed.

(* ===================================================================== *)
(** ** Framing: what a method leaves alone *)
(* ===================================================================== *)

Section Frame.
Context {S X : Type} (f : S -> X).

Lemma preserves_ret {A} (a : A) : preserves f (ret a).
Proof. intros s. reflexivity. Qed.

Lemma preserves_raise {A} (e : exn) : preserves f (@raise S A e).
Proof. intros s. reflexivity. Qed.

Lemma preserves_lift {A} (r : result A) : preserves f (lift r).
Proof. intros s. reflexivity. Qed.

Lemma preserves_get : preserves f get.
Proof. intros s. reflexivity. Qed.

Lemma preserves_modify (g : S -> S) :
  (forall s, f (g s) = f s) -> preserves f (modify g).
Proof. intros H s. apply H. Qed.

Lemma preserves_bind {A B} (c : M S A) (k : A -> M S B) :
  preserves f c -> (forall a, preserves f (k a)) -> preserves f (bind c k).
Proof.
  intros Hc Hk s. unfold bind.
  destruct (c s) as [[a|e] s'] eqn:E.
  - rewrite Hk. specialize (Hc s). now rewrite E in Hc.
  - specialize (Hc s). now rewrite E in Hc.
Qed.

Lemma preserves_if {A} (b : bool) (c1 c2 : M S A) :
  preserves f c1 -> preserves f c2 -> preserves f (if b then c1 else c2).
Proof. now destruct b. Qed.

End Frame.

Lemma preserves_any {S A X} (f : S -> X) (c : M S A) :
  preserves (fun s => s) c -> preserves f c.
Proof. intros H s. now rewrite H. Qed.

(** Discharge a [preserves] goal by following the structure of the code. *)
Ltac frame :=
  repeat first
    [ apply preserves_ret | apply preserves_raise | apply preserves_lift
    | apply preserves_get
    | apply preserves_bind
    | apply preserves_if
    | apply preserves_modify; intros; reflexivity
    | match goal with
      | |- forall p : _ * _, _ => intros [? ?]
      | |- forall _, _ => intro
      | |- preserves _ (match ?x with Some _ => _ | None => _ end) => destruct x
      end ].

(** Running the monad one statement at a time. *)
Lemma bind_lift_ok {S A B} (a : A) (k : A -> M S B) (s : S) :
  bind (lift (Ok a)) k s = k a s.
Proof. reflexivity. Qed.

Lemma bind_lift_raise {S A B} (e : exn) (k : A -> M S B) (s : S) :
  bind (lift (Raise e)) k s = (Raise e, s).
Proof. reflexivity. Qed.

Lemma bind_get {S B} (k : S -> M S B) (s : S) : bind get k s = k s s.
Proof. reflexivity. Qed.

Lemma bind_modify {S B} (g : S -> S) (k : unit -> M S B) (s : S) :
  bind (modify g) k s = k tt (g s).
Proof. reflexivity. Qed.

Lemma bind_ret {S A B} (a : A) (k : A -> M S B) (s : S) :
  bind (ret a) k s = k a s.
Proof. reflexivity. Qed.

Lemma bind_returns {S A B} (c : M S A) (k : A -> M S B) (s s' : S) (a : A) :
  c s = (Ok a, s') -> bind c k s = k a s'.
Proof. intros H. unfold bind. now rewrite H. Qed.

Lemma bind_raises {S A B} (c : M S A) (k : A -> M S B) (s s' : S) (e : exn) :
  c s = (Raise e, s') -> bind c k s = (Raise e, s').
Proof. intros H. unfold bind. now rewrite H. Qed.

(* ===================================================================== *)
(** ** Facts about arrays *)
(* ===================================================================== *)

Lemma broadcast2_same (f : fnum -> fnum -> fnum) (a b : list fnum) :
  length a = length b -> Np.broadcast2 f a b = Ok (zip_with f a b).
Proof.
  intros H. unfold Np.broadcast2.
  now rewrite (proj2 (Nat.eqb_eq _ _) H).
Qed.

Lemma broadcast2_stretch_l (f : fnum -> fnum -> fnum) (x : fnum) (b : list fnum) :
  Np.broadcast2 f [x] b = Ok (map (f x) b).
Proof. destruct b as [|y [|z b]]; reflexivity. Qed.

Lemma broadcast2_stretch_r (f : fnum -> fnum -> fnum) (a : list fnum) (y : fnum) :
  Np.broadcast2 f a [y] = Ok (map (fun x => f x y) a).
Proof. destruct a as [|x [|z a]]; reflexivity. Qed.


Lemma index_ok (a : list fnum) (i : Z) :
  0 <= i < Np.len a -> exists x, Np.index a i = Ok x /\ a !! Z.to_nat i = Some x.
Proof.
  intros [H0 H1]. unfold Np.index, Np.len in *.
  destruct (Z.ltb_spec i 0) as [|_]; [lia|].
  destruct (Z.ltb_spec i 0) as [|_]; [lia|].
  destruct (a !! Z.to_nat i) as [x|] eqn:E.
  - exists x. split; reflexivity.
  - apply lookup_ge_None in E. lia.
Qed.

Lemma index_last_ok (a : list fnum) :
  0 < Np.len a -> exists x, Np.index a (-1) = Ok x.
Proof.
  intros H. unfold Np.index, Np.len in *. simpl.
  destruct (Z.ltb_spec (-1 + Z.of_nat (length a)) 0) as [|_]; [lia|].
  destruct (a !! Z.to_nat (-1 + Z.of_nat (length a))) as [x|] eqn:E.
  - now exists x.
  - apply lookup_ge_None in E. lia.
Qed.

Lemma index_raises (a : list fnum) (i : Z) :
  Np.len a <= i -> Np.index a i = Raise IndexError.
Proof.
  intros H. unfold Np.index, Np.len in *.
  destruct (Z.ltb_spec i 0) as [|_]; [lia|].
  destruct (Z.ltb_spec i 0) as [|_]; [lia|].
  destruct (a !! Z.to_nat i) as [x|] eqn:E; [|reflexivity].
  apply lookup_lt_Some in E. lia.
Qed.

Lemma max_ok (a : list fnum) : a <> [] -> exists x, Np.max a = Ok x.
Proof. destruct a; [congruence | eauto]. Qed.

Lemma lookup_has_key (w : gmap string fnum) (k : string) :
  has_key w k = true -> exists x, getitem w k = Ok x.
Proof.
  unfold has_key, getitem. destruct (w !! k) as [x|]; [eauto | discriminate].
Qed.

Lemma shape_ok_inv (s : PowerGridEnvironment) :
  shape_ok s = true ->
  length (current_output s) = length (capacities s) /\
  length (costs s) = length (capacities s) /\
  capacities s <> [] /\
  ramp_fits (length (capacities s)) (max_ramping s) = true /\
  weights_complete (reward_weights s) = true /\
  max_steps s = Np.len (load_data s) - 5.
Proof.
  unfold shape_ok. rewrite !andb_true_iff.
  intros [[[[[H1 H2] H3] H4] H5] H6].
  apply Nat.eqb_eq in H1, H2. apply Z.eqb_eq in H6.
  apply negb_true_iff, Nat.eqb_neq in H3.
  repeat split; try assumption.
  intros E. now rewrite E in H3.
Qed.

Lemma shape_ok_transfer (s s' : PowerGridEnvironment) :
  registry s' = registry s ->
  length (current_output s') = length (current_output s) ->
  shape_ok s = true -> shape_ok s' = true.
Proof.
  unfold registry, shape_ok. intros Hr Hl. inversion Hr as [[E1 E2 E3 E4 E5 E6 E7 E8 E9]].
  now rewrite Hl, E1, E4, E5, E6, E7, E9.
Qed.

(** The first three statements of [step] succeed on an action that fits. *)
Lemma apply_action_ok (a : list fnum) (s : PowerGridEnvironment) :
  shape_ok s = true -> action_fits a s ->
  exists adj moved,
    Np.mul (Np.clip a (Fin (-1)) (Fin 1)) (max_ramping s) = Ok adj /\
    Np.iadd (current_output s) adj = Ok moved /\
    length moved = length (current_output s).
Proof.
  intros Hs Ha. apply shape_ok_inv in Hs as (Ho & _ & _ & Hr & _).
  assert (Hadj : exists adj,
    Np.mul (Np.clip a (Fin (-1)) (Fin 1)) (max_ramping s) = Ok adj /\
    (length adj = length (current_output s) \/ length adj = 1%nat)).
  { destruct (max_ramping s) as [x|l]; simpl in *.
    - eexists; split; [reflexivity|].
      unfold Np.clip. rewrite !length_map. destruct Ha; [left | right]; congruence.
    - apply Nat.eqb_eq in Hr. destruct Ha as [Ha|Ha].
      + rewrite broadcast2_same by (unfold Np.clip; rewrite length_map; congruence).
        eexists; split; [reflexivity|]. left.
        rewrite length_zip_with. unfold Np.clip. rewrite length_map. lia.
      + destruct a as [|x [|y a]]; try discriminate. unfold Np.clip; simpl map.
        rewrite broadcast2_stretch_l.
        eexists; split; [reflexivity|]. left. rewrite length_map. congruence. }
  destruct Hadj as (adj & Hmul & Hlen). exists adj.
  unfold Np.iadd. destruct Hlen as [Hlen|Hlen].
  - rewrite broadcast2_same by congruence.
    assert (E : length (zip_with fadd (current_output s) adj) = length (current_output s))
      by (rewrite length_zip_with; lia).
    rewrite (proj2 (Nat.eqb_eq _ _) E). eauto.
  - destruct adj as [|y [|z adj]]; try discriminate.
    rewrite broadcast2_stretch_r.
    assert (E : length (map (fun x => fadd x y) (current_output s)) = length (current_output s))
      by apply length_map.
    rewrite (proj2 (Nat.eqb_eq _ _) E). eauto.
Qed.

(* ===================================================================== *)
(** ** Facts about the methods *)
(* ===================================================================== *)

Ltac env_simpl :=
  cbn [load_data mode num_generators capacities costs max_ramping
       reward_weights obs_dim current_step current_output max_steps
       np_random_seed set_current_step set_current_output
       set_np_random_seed fst snd] in *.

Section MethodFacts.
Variable sin_hour cos_hour : Z -> fnum.

(** The observation builder and the reward engine only read the object. *)
Lemma get_observation_readonly :
  preserves (fun s => s) (_get_observation sin_hour cos_hour).
Proof. unfold _get_observation. frame. Qed.

Lemma calculate_reward_readonly R load generation adjustments :
  preserves (fun s => s) (_calculate_reward R load generation adjustments).
Proof. unfold _calculate_reward. frame. Qed.

(** [step] never touches what the constructor fixed. *)
Lemma step_preserves_registry (a : list fnum) :
  preserves registry (step sin_hour cos_hour a).
Proof.
  unfold step.
  repeat first
    [ apply preserves_any, get_observation_readonly
    | apply preserves_any, calculate_reward_readonly
    | progress frame ].
Qed.

Lemma get_observation_returns (s : PowerGridEnvironment) :
  capacities s <> [] ->
  0 <= current_step s < Np.len (load_data s) ->
  exists obs, _get_observation sin_hour cos_hour s = (Ok obs, s).
Proof.
  intros Hc Hi. unfold _get_observation.
  rewrite bind_get; cbv beta.
  destruct (index_ok _ _ Hi) as (x & Hx & _).
  rewrite Hx, bind_lift_ok.
  destruct (max_ok _ Hc) as (top & Ht).
  destruct (index_last_ok (load_data s)) as (y & Hy); [lia|].
  q_cases; rewrite ?Hy, ?bind_lift_ok, ?bind_ret, ?Ht, ?bind_lift_ok;
    eexists; reflexivity.
Qed.

Lemma get_observation_raises (s : PowerGridEnvironment) :
  Np.len (load_data s) <= current_step s ->
  _get_observation sin_hour cos_hour s = (Raise IndexError, s).
Proof.
  intros Hi. unfold _get_observation.
  rewrite bind_get; cbv beta.
  now rewrite index_raises, bind_lift_raise.
Qed.

Lemma calculate_reward_returns R load generation adj (s : PowerGridEnvironment) :
  shape_ok s = true ->
  exists rw inf,
    _calculate_reward R load generation adj s = (Ok (rw, inf), s) /\
    has_key inf "cost" = true /\ has_key inf "gap" = true.
Proof.
  intros Hs. apply shape_ok_inv in Hs as (Ho & Hk & _ & _ & Hw & _).
  unfold weights_complete in Hw. rewrite !andb_true_iff in Hw.
  destruct Hw as [[[W1 W2] W3] W4].
  apply lookup_has_key in W1 as (w1 & W1), W2 as (w2 & W2),
    W3 as (w3 & W3), W4 as (w4 & W4).
  unfold _calculate_reward. rewrite bind_get; cbv beta.
  rewrite broadcast2_same by congruence. rewrite bind_lift_ok.
  rewrite W1, bind_lift_ok, W2, bind_lift_ok, W3, bind_lift_ok, W4, bind_lift_ok.
  eexists _, _. split; [reflexivity|]. split; reflexivity.
Qed.

(** [step] on a consistent object, with an action that fits and a demand
    sample left after the current one, returns normally. *)
Lemma step_returns (a : list fnum) (s : PowerGridEnvironment) :
  shape_ok s = true -> action_fits a s ->
  0 <= current_step s -> current_step s + 1 < Np.len (load_data s) ->
  exists r s',
    step sin_hour cos_hour a s = (Ok r, s') /\
    terminated r = false /\
    truncated r = (max_steps s <=? current_step s + 1) /\
    current_step s' = current_step s + 1 /\
    registry s' = registry s /\
    length (current_output s') = length (current_output s).
Proof.
  intros Hs Ha H0 H1.
  destruct (apply_action_ok a s Hs Ha) as (adj & moved & Hmul & Hadd & Hlen).
  pose proof (shape_ok_inv s Hs) as (Ho & Hk & Hc & Hr & Hw & Hm).
  unfold step. rewrite bind_get; cbv beta.
  rewrite Hmul, bind_lift_ok, Hadd, bind_lift_ok, bind_modify.
  unfold Np.clip_upto. env_simpl.
  rewrite broadcast2_same by congruence.
  rewrite bind_lift_ok, bind_modify, bind_get. env_simpl.
  destruct (index_ok (load_data s) (current_step s)) as (x & Hx & _); [lia|].
  rewrite Hx, bind_lift_ok.
  set (clamped := zip_with _ moved (capacities s)).
  set (s2 := set_current_output clamped _).
  assert (Hs2 : shape_ok s2 = true).
  { apply (shape_ok_transfer s); [reflexivity | | assumption].
    subst s2 clamped; env_simpl. rewrite length_zip_with. lia. }
  destruct (calculate_reward_returns unrounded x (Np.sum clamped) adj s2 Hs2)
    as (rw & inf & Hrw & Kc & Kg).
  rewrite (bind_returns _ _ _ _ _ Hrw). cbv beta iota.
  rewrite bind_modify, bind_get. env_simpl.
  set (s3 := set_current_step _ s2).
  destruct (get_observation_returns s3) as (obs & Hobs).
  { assumption. }
  { subst s3 s2; env_simpl. lia. }
  rewrite (bind_returns _ _ _ _ _ Hobs).
  apply lookup_has_key in Kc as (c & Kc), Kg as (g & Kg).
  rewrite Kc, bind_lift_ok, Kg, bind_lift_ok.
  eexists _, s3. split; [reflexivity|].
  subst s3 s2 clamped; env_simpl.
  repeat split; try reflexivity.
  rewrite length_zip_with. lia.
Qed.

End MethodFacts.

(* ===================================================================== *)
(** ** Construction *)
(* ===================================================================== *)

Lemma forallb_fle (caps : list fnum) :
  forallb (fleb (Fin 0)) caps = true -> Forall (fun c => fle (Fin 0) c) caps.
Proof. intros H. apply Forall_forall. intros c Hc. apply list_elem_of_In in Hc. eapply forallb_forall in H; eauto. Qed.

Lemma zero_in_bounds (caps : list fnum) :
  Forall (fun c => fle (Fin 0) c) caps ->
  Forall2 (fun o c => fle (Fin 0) o /\ fle o c)
          (replicate (length caps) (Fin 0)) caps.
Proof.
  induction 1 as [|c caps Hc _ IH]; simpl; constructor; auto.
  split; [reflexivity | assumption].
Qed.

(** A well-formed configuration builds a consistent object at step 0 with
    all outputs at zero. *)
Lemma init_ok (data : list fnum) (cfg : config) (mode_ : string) :
  config_ok cfg = true ->
  exists s0,
    init data cfg mode_ = Ok s0 /\
    shape_ok s0 = true /\ in_bounds s0 /\
    ramp_finite (max_ramping s0) = true /\
    current_step s0 = 0 /\ load_data s0 = data /\ mode s0 = mode_ /\
    cfg_generator_capacities cfg = Some (capacities s0) /\
    current_output s0 = replicate (length (capacities s0)) (Fin 0) /\
    reward_weights s0 = default default_reward_weights (cfg_reward_weights cfg).
Proof.
  unfold config_ok, init.
  destruct (cfg_num_generators cfg) as [n|]; [|discriminate].
  destruct (cfg_generator_capacities cfg) as [caps|]; [|discriminate].
  destruct (cfg_generator_costs cfg) as [cs|]; [|discriminate].
  destruct (cfg_max_ramping cfg) as [ramp|]; [|discriminate].
  rewrite !andb_true_iff. intros [[[[[[Hn Hpos] Hcs] Hr] Hcaps] Hfin] Hw].
  apply Z.eqb_eq in Hn. apply Z.ltb_lt in Hpos.
  simpl subscript. cbv iota. unfold Np.zeros.
  destruct (Z.ltb_spec n 0) as [|_]; [lia|].
  assert (Hlen : Z.to_nat n = length caps) by (unfold Np.len in Hn; lia).
  eexists. split; [reflexivity|].
  unfold shape_ok, in_bounds; env_simpl.
  rewrite Hlen, length_replicate, Nat.eqb_refl, Hcs, Hr, Hw, Z.eqb_refl.
  assert (Hne : (length caps =? 0)%nat = false) by (apply Nat.eqb_neq; lia).
  rewrite Hne.
  repeat split; auto using zero_in_bounds, forallb_fle.
Qed.

(* ===================================================================== *)
(** ** The physical bounds *)
(* ===================================================================== *)

Lemma zip_with_Forall (P Q R : fnum -> Prop) (f : fnum -> fnum -> fnum) :
  (forall x y, P x -> Q y -> R (f x y)) ->
  forall a b, Forall P a -> Forall Q b -> Forall R (zip_with f a b).
Proof.
  intros Hf a b Ha. revert b.
  induction Ha as [|x a Hx _ IH]; intros b Hb; simpl; [constructor|].
  destruct Hb as [|y b Hy Hb]; constructor; auto.
Qed.

(** A property of the entries carries over to the result of a broadcast. *)
Lemma broadcast2_Forall (P Q R : fnum -> Prop) (f : fnum -> fnum -> fnum)
      (a b r : list fnum) :
  (forall x y, P x -> Q y -> R (f x y)) ->
  Forall P a -> Forall Q b -> Np.broadcast2 f a b = Ok r -> Forall R r.
Proof.
  intros Hf Ha Hb.
  destruct (Nat.eq_dec (length a) (length b)) as [E|E].
  { rewrite broadcast2_same by assumption.
    intros [= <-]. eauto using zip_with_Forall. }
  assert (Hl : forall x, P x -> Forall R (map (f x) b)).
  { intros x Hx. rewrite Forall_map.
    eapply Forall_impl; [exact Hb | simpl; auto]. }
  assert (Hr : forall y, Q y -> Forall R (map (fun x => f x y) a)).
  { intros y Hy. rewrite Forall_map.
    eapply Forall_impl; [exact Ha | simpl; auto]. }
  destruct a as [|x [|x' a]].
  - destruct b as [|y [|y' b]]; [congruence | | discriminate].
    rewrite broadcast2_stretch_r. intros [= <-]. constructor.
  - rewrite broadcast2_stretch_l. intros [= <-].
    apply Hl. now inversion Ha.
  - destruct b as [|y [|y' b]]; [discriminate | | ].
    + rewrite broadcast2_stretch_r. intros [= <-].
      apply Hr. now inversion Hb.
    + unfold Np.broadcast2.
      destruct (Nat.eqb_spec (length (x :: x' :: a)) (length (y :: y' :: b)));
        [congruence | discriminate].
Qed.

Lemma clip_finite (a : list fnum) :
  nan_free a -> Forall (fun x => isfinite x = true) (Np.clip a (Fin (-1)) (Fin 1)).
Proof.
  intros H. unfold Np.clip. rewrite Forall_map.
  eapply Forall_impl; [exact H|]. simpl. intros x Hx.
  destruct (fclip_unit x Hx) as (q & -> & _). reflexivity.
Qed.

Lemma ramp_finite_Forall (l : list fnum) :
  forallb isfinite l = true -> Forall (fun x => isfinite x = true) l.
Proof.
  intros H. apply Forall_forall. intros x Hx.
  apply list_elem_of_In in Hx. eapply forallb_forall in H; eauto.
Qed.

Lemma fmul_finite (x y : fnum) :
  isfinite x = true -> isfinite y = true -> isfinite (x * y)%F = true.
Proof. destruct x, y; simpl; congruence. Qed.

(** The adjustments computed from a NaN-free action and finite ramp limits
    are finite. *)
Lemma adjustments_finite (a adj : list fnum) (ramp : Np.array_like) :
  nan_free a -> ramp_finite ramp = true ->
  Np.mul (Np.clip a (Fin (-1)) (Fin 1)) ramp = Ok adj ->
  Forall (fun x => isfinite x = true) adj.
Proof.
  intros Ha Hr. apply clip_finite in Ha.
  destruct ramp as [x|l]; simpl in *.
  - intros [= <-]. rewrite Forall_map.
    eapply Forall_impl; [exact Ha|]. simpl. intros v Hv. now apply fmul_finite.
  - apply broadcast2_Forall with (P := fun x => isfinite x = true)
                                 (Q := fun x => isfinite x = true);
      auto using fmul_finite, ramp_finite_Forall.
Qed.

Lemma fadd_finite_not_nan (x y : fnum) :
  isnan x = false -> isfinite y = true -> isnan (x + y)%F = false.
Proof. destruct x, y; simpl; congruence. Qed.

Lemma clamp_in_bounds (moved caps : list fnum) :
  length moved = length caps ->
  Forall (fun x => isnan x = false) moved ->
  Forall (fun c => fle (Fin 0) c) caps ->
  Forall2 (fun o c => fle (Fin 0) o /\ fle o c)
          (zip_with (fun v h => fclip v (Fin 0) h) moved caps) caps.
Proof.
  intros Hl Hm. revert caps Hl.
  induction Hm as [|x moved Hx _ IH]; intros [|c caps] Hl Hc;
    simpl in *; try discriminate; constructor.
  - inversion Hc; subst. now apply fclip_bounds.
  - inversion Hc; subst. apply IH; [lia | assumption].
Qed.

Lemma iadd_length (a b r : list fnum) :
  Np.iadd a b = Ok r -> length r = length a.
Proof.
  unfold Np.iadd. destruct (Np.broadcast2 fadd a b) as [r'|]; [|discriminate].
  destruct (Nat.eqb_spec (length r') (length a)); [|discriminate].
  now intros [= <-].
Qed.

Lemma iadd_Forall (P Q R : fnum -> Prop) (a b r : list fnum) :
  (forall x y, P x -> Q y -> R (x + y)%F) ->
  Forall P a -> Forall Q b -> Np.iadd a b = Ok r -> Forall R r.
Proof.
  intros Hf Ha Hb. unfold Np.iadd.
  destruct (Np.broadcast2 fadd a b) as [r'|] eqn:E; [|discriminate].
  destruct (length r' =? length a)%nat; [|discriminate].
  intros [= <-]. eapply broadcast2_Forall; eauto.
Qed.

Section Bounds.
Variable sin_hour cos_hour : Z -> fnum.
Variable G : Type.
Variable draw : Z -> Z -> G -> Z * G.

(** The outputs [step] leaves behind, by how far its first three
    statements get; nothing after them writes the outputs. *)
Lemma step_output (a : list fnum) (s : PowerGridEnvironment) :
  let s' := snd (step sin_hour cos_hour a s) in
  match Np.mul (Np.clip a (Fin (-1)) (Fin 1)) (max_ramping s) with
  | Raise _ => current_output s' = current_output s
  | Ok adj =>
      match Np.iadd (current_output s) adj with
      | Raise _ => current_output s' = current_output s
      | Ok moved =>
          match Np.clip_upto moved (Fin 0) (capacities s) with
          | Raise _ => current_output s' = moved
          | Ok clamped => current_output s' = clamped
          end
      end
  end.
Proof.
  cbv zeta. unfold step. rewrite bind_get; cbv beta.
  destruct (Np.mul _ _) as [adj|e]; [|reflexivity].
  rewrite bind_lift_ok.
  destruct (Np.iadd _ _) as [moved|e]; [|reflexivity].
  rewrite bind_lift_ok, bind_modify.
  destruct (Np.clip_upto _ _ _) as [clamped|e]; [|reflexivity].
  rewrite bind_lift_ok, bind_modify.
  match goal with
  | |- current_output (snd (?c ?s2)) = _ =>
      change (current_output (snd (c s2)) = current_output s2);
      generalize s2; change (preserves current_output c)
  end.
  repeat first
    [ apply preserves_any, get_observation_readonly
    | apply preserves_any, calculate_reward_readonly
    | progress frame ].
Qed.

(** One transition keeps the outputs within bounds, provided the action
    has no NaN entry. *)
Lemma step_keeps_bounds (a : list fnum) (s : PowerGridEnvironment) :
  in_bounds s -> ramp_finite (max_ramping s) = true -> nan_free a ->
  in_bounds (snd (step sin_hour cos_hour a s)).
Proof.
  intros Hb Hr Ha. unfold in_bounds in *.
  pose proof (step_preserves_registry sin_hour cos_hour a s) as Hreg.
  unfold registry in Hreg. injection Hreg as _ _ _ Hcaps _ _ _ _ _.
  rewrite Hcaps.
  pose proof (step_output a s) as Hout. cbv zeta in Hout.
  destruct (Np.mul _ _) as [adj|e] eqn:Hmul; [|now rewrite Hout].
  destruct (Np.iadd _ _) as [moved|e] eqn:Hadd; [|now rewrite Hout].
  assert (Hlen : length moved = length (capacities s)).
  { rewrite (iadd_length _ _ _ Hadd). eapply Forall2_length; eauto. }
  unfold Np.clip_upto in Hout. rewrite broadcast2_same in Hout by assumption.
  assert (Hnn : Forall (fun o => isnan o = false) (current_output s)).
  { eapply Forall2_Forall_l; [exact Hb|].
    apply Forall_forall. intros c _ o [H0 _]. eapply fle_not_nan_r; eauto. }
  assert (Hpos : Forall (fun c => fle (Fin 0) c) (capacities s)).
  { eapply Forall2_Forall_r; [exact Hb|].
    apply Forall_forall. intros o _ c [H0 H1].
    destruct o, c; unfold fle in *; cbn [fleb] in *;
      try discriminate; try reflexivity.
    q_reflect. apply Qle_bool_intro. lra. }
  assert (Hfin : Forall (fun x => isfinite x = true) adj)
    by exact (adjustments_finite _ _ _ Ha Hr Hmul).
  rewrite Hout. apply clamp_in_bounds; [assumption | | assumption].
  exact (iadd_Forall _ _ _ _ _ _ fadd_finite_not_nan Hnn Hfin Hadd).
Qed.

End Bounds.

(* ===================================================================== *)
(** ** What [reset] does *)
(* ===================================================================== *)

Section Reset.
Variable sin_hour cos_hour : Z -> fnum.
Variable G : Type.
Variable draw : Z -> Z -> G -> Z * G.


Lemma observe_restarted (s1 : PowerGridEnvironment) (g : G) :
  bind (on_self G (_get_observation sin_hour cos_hour))
       (fun obs => ret (obs, (∅ : gmap string fnum))) (s1, g)
  = (observed sin_hour cos_hour s1, (s1, g)).
Proof.
  unfold bind, on_self, observed.
  pose proof (get_observation_readonly sin_hour cos_hour s1) as Hro.
  destruct (_get_observation sin_hour cos_hour s1) as [[obs|e] s1'];
    simpl in *; subst; reflexivity.
Qed.

(** Outside training mode [reset] starts at offset 0 and never consults
    the global generator. *)
Lemma reset_eval (seed : option N) (s : PowerGridEnvironment) (g : G) :
  String.eqb (mode s) "train" = false ->
  reset sin_hour cos_hour G draw seed (s, g) =
    (observed sin_hour cos_hour (restarted 0 (seeded seed s)),
     (restarted 0 (seeded seed s), g)).
Proof.
  intros Hm. unfold reset.
  assert (Hm' : String.eqb (mode (seeded seed s)) "train" = false)
    by (destruct seed; exact Hm).
  rewrite <- observe_restarted.
  destruct seed; unfold bind at 1 2 3 4; simpl; rewrite Hm; reflexivity.
Qed.

(** In training mode the range of the draw is empty when the series has
    fewer than thirty samples, and [reset] raises before it restarts. *)
Lemma reset_train_raises (seed : option N) (s : PowerGridEnvironment) (g : G) :
  String.eqb (mode s) "train" = true -> max_steps s - 24 <= 0 ->
  reset sin_hour cos_hour G draw seed (s, g) = (Raise ValueError, (seeded seed s, g)).
Proof.
  intros Hm Hr. unfold reset.
  apply Z.leb_le in Hr.
  destruct seed; unfold bind, np_random_randint; simpl; rewrite Hm; simpl;
    rewrite Hr; reflexivity.
Qed.

(** In training mode with a non-empty range the start offset is the sample
    of the global generator. *)
Lemma reset_train (seed : option N) (s : PowerGridEnvironment) (g : G) :
  String.eqb (mode s) "train" = true -> 0 < max_steps s - 24 ->
  reset sin_hour cos_hour G draw seed (s, g) =
    (observed sin_hour cos_hour (restarted (fst (draw 0 (max_steps s - 24) g)) (seeded seed s)),
     (restarted (fst (draw 0 (max_steps s - 24) g)) (seeded seed s),
      snd (draw 0 (max_steps s - 24) g))).
Proof.
  intros Hm Hr. unfold reset.
  rewrite <- observe_restarted.
  assert (Hr' : (max_steps s - 24 <=? 0) = false) by (apply Z.leb_gt; lia).
  destruct seed; unfold bind at 1 2 3 4, np_random_randint; simpl;
    rewrite Hm; unfold bind at 1; simpl; rewrite Hr';
    destruct (draw 0 (max_steps s - 24) g) as [v g']; reflexivity.
Qed.

End Reset.

Section ReachableBounds.
Variable sin_hour cos_hour : Z -> fnum.
Variable G : Type.
Variable draw : Z -> Z -> G -> Z * G.

(** [reset] leaves the object seeded, or seeded and restarted. *)
Lemma reset_state_cases (seed : option N) (s : PowerGridEnvironment) (g : G) :
  let s' := fst (snd (reset sin_hour cos_hour G draw seed (s, g))) in
  s' = seeded seed s \/ exists v, s' = restarted v (seeded seed s).
Proof.
  cbv zeta. destruct (String.eqb (mode s) "train") eqn:Hm.
  - destruct (Z_le_gt_dec (max_steps s - 24) 0) as [Hr|Hr].
    + rewrite reset_train_raises by assumption. now left.
    + rewrite reset_train by (assumption || lia). right. eexists; reflexivity.
  - rewrite reset_eval by assumption. right. eexists; reflexivity.
Qed.

Lemma seeded_registry (seed : option N) (s : PowerGridEnvironment) :
  registry (seeded seed s) = registry s /\
  current_output (seeded seed s) = current_output s /\
  current_step (seeded seed s) = current_step s.
Proof. destruct seed; repeat split. Qed.

Lemma reset_preserves_registry (seed : option N) (s : PowerGridEnvironment) (g : G) :
  registry (fst (snd (reset sin_hour cos_hour G draw seed (s, g)))) = registry s.
Proof.
  destruct (reset_state_cases seed s g) as [-> | [v ->]];
    destruct seed; reflexivity.
Qed.

Lemma half_in_bounds (caps : list fnum) :
  Forall (fun c => fle (Fin 0) c) caps ->
  Forall2 (fun o c => fle (Fin 0) o /\ fle o c)
          (Np.scale caps (Fin (1 # 2))) caps.
Proof.
  induction 1 as [|c caps Hc _ IH]; simpl; constructor; auto.
  now apply half_capacity_bounds.
Qed.

Lemma in_bounds_capacities (s : PowerGridEnvironment) :
  in_bounds s -> Forall (fun c => fle (Fin 0) c) (capacities s).
Proof.
  intros Hb. eapply Forall2_Forall_r; [exact Hb|].
  apply Forall_forall. intros o _ c [H0 H1].
  destruct o, c; unfold fle in *; cbn [fleb] in *;
    try discriminate; try reflexivity.
  q_reflect. apply Qle_bool_intro. lra.
Qed.

Lemma reset_keeps_bounds (seed : option N) (s : PowerGridEnvironment) (g : G) :
  in_bounds s ->
  in_bounds (fst (snd (reset sin_hour cos_hour G draw seed (s, g)))).
Proof.
  intros Hb.
  destruct (reset_state_cases seed s g) as [-> | [v ->]].
  - destruct seed; exact Hb.
  - unfold in_bounds, restarted; env_simpl.
    replace (capacities (seeded seed s)) with (capacities s)
      by (destruct seed; reflexivity).
    now apply half_in_bounds, in_bounds_capacities.
Qed.

(** The bounds hold in every object reachable through NaN-free actions. *)
Lemma reachable_in_bounds (s0 s : PowerGridEnvironment) :
  in_bounds s0 -> ramp_finite (max_ramping s0) = true ->
  reachable sin_hour cos_hour G draw nan_free s0 s ->
  in_bounds s /\ ramp_finite (max_ramping s) = true.
Proof.
  intros Hb Hr. induction 1 as [|s seed g _ [IHb IHr]|s a _ [IHb IHr] Ha].
  - now split.
  - split; [now apply reset_keeps_bounds|].
    pose proof (reset_preserves_registry seed s g) as E.
    unfold registry in E. injection E as _ _ _ _ _ E _ _ _. now rewrite E.
  - split; [now apply step_keeps_bounds|].
    pose proof (step_preserves_registry sin_hour cos_hour a s) as E.
    unfold registry in E. injection E as _ _ _ _ _ E _ _ _. now rewrite E.
Qed.

End ReachableBounds.

(** What the clamp does achieve.  In the environment built from a
    well-formed configuration, take any object reached by calls of [reset]
    and of [step] on actions without NaN entries, and any further action
    without NaN entries (finite, infinite or outside [-1, 1]): after
    [step], whether it returned or raised, every generator output lies
    between 0 and the capacity of its generator.  The lower bound is the
    constant 0 of the clamp; the registry has no per-generator minimum. *)
Theorem step_keeps_outputs_within_capacity
    (sin_hour cos_hour : Z -> fnum) (G : Type) (draw : Z -> Z -> G -> Z * G)
    (data : list fnum) (cfg : config) (mode_ : string)
    (s0 s : PowerGridEnvironment) (a : list fnum) :
  config_ok cfg = true ->
  init data cfg mode_ = Ok s0 ->
  reachable sin_hour cos_hour G draw nan_free s0 s ->
  nan_free a ->
  in_bounds (snd (step sin_hour cos_hour a s)).
Proof.
  intros Hcfg Hinit Hreach Ha.
  destruct (init_ok data cfg mode_ Hcfg) as (s0' & E & _ & Hb & Hr & _).
  rewrite Hinit in E. injection E as <-.
  destruct (reachable_in_bounds _ _ _ _ _ _ Hb Hr Hreach) as [Hb' Hr'].
  now apply step_keeps_bounds.
Qed.

Lemma step_keeps_outputs_within_capacity_witness :
  in_bounds (snd (step sin_table cos_table
                       (map of_Z [1; 1; -1; -1; 0]) scenario_started)).
Proof.
  apply (step_keeps_outputs_within_capacity sin_table cos_table Z counter_draw
           demand10 (scenario_config None) "test" scenario_env).
  - reflexivity.
  - reflexivity.
  - apply reach_reset, reach_init.
  - repeat constructor.
Defined.

(** C1.  The bounds are not kept for every action: in the scenario
    environment after its first [reset], a reachable object, [step] on an
    action whose first entry is NaN leaves the first output NaN, which is
    neither at least 0 nor at most the capacity.  The clamp of the action
    and the clamp of the outputs both let NaN through. *)
Lemma nan_action_breaks_bounds :
  reachable sin_table cos_table Z counter_draw (fun _ => True)
            scenario_env scenario_started /\
  ~ in_bounds (snd (step sin_table cos_table
                         [NaN; Fin 0; Fin 0; Fin 0; Fin 0] scenario_started)).
Proof.
  split; [apply reach_reset, reach_init|].
  intros H. vm_compute in H.
  inversion H as [|o c outs caps [H0 _] _]. discriminate H0.
Qed.

(* ===================================================================== *)
(** ** The scenario of the specification *)
(* ===================================================================== *)

Section Scenario.
Variable sin_hour cos_hour : Z -> fnum.
Variable G : Type.
Variable draw : Z -> Z -> G -> Z * G.

(** A [reset] that returned has restarted the object. *)
Lemma reset_ok_restarted (seed : option N) (s : PowerGridEnvironment) (g : G) r :
  fst (reset sin_hour cos_hour G draw seed (s, g)) = Ok r ->
  exists v, fst (snd (reset sin_hour cos_hour G draw seed (s, g)))
            = restarted v (seeded seed s).
Proof.
  destruct (String.eqb (mode s) "train") eqn:Hm.
  - destruct (Z_le_gt_dec (max_steps s - 24) 0) as [Hr|Hr].
    + rewrite reset_train_raises by assumption. discriminate.
    + rewrite reset_train by (assumption || lia). eauto.
  - rewrite reset_eval by assumption. eauto.
Qed.

End Scenario.

(** C8.  Five generators of capacity 100, costs [10, 30, 50, 0, 0] and a
    ramp limit of 10, on any demand series, in any mode and with any reward
    weights: once [reset] has returned, the outputs are [50, 50, 50, 50, 50];
    [step] on the action [1, 1, -1, -1, 0] then computes the adjustments
    [10, 10, -10, -10, 0] and leaves the outputs [60, 60, 40, 40, 50]. *)
Theorem scenario_reset_then_step
    (sin_hour cos_hour : Z -> fnum) (G : Type) (draw : Z -> Z -> G -> Z * G)
    (data : list fnum) (mode_ : string) (w : option (gmap string fnum))
    (seed : option N) (g : G) (s0 : PowerGridEnvironment)
    (r : list fnum * gmap string fnum) :
  init data (scenario_config w) mode_ = Ok s0 ->
  fst (reset sin_hour cos_hour G draw seed (s0, g)) = Ok r ->
  let s1 := fst (snd (reset sin_hour cos_hour G draw seed (s0, g))) in
  let action := map of_Z [1; 1; -1; -1; 0] in
  arr_eq (current_output s1) (map of_Z [50; 50; 50; 50; 50]) /\
  (exists adjustments,
     Np.mul (Np.clip action (Fin (-1)) (Fin 1)) (max_ramping s1)
       = Ok adjustments /\
     arr_eq adjustments (map of_Z [10; 10; -10; -10; 0])) /\
  arr_eq (current_output (snd (step sin_hour cos_hour action s1)))
         (map of_Z [60; 60; 40; 40; 50]).
Proof.
  intros Hinit Hok. cbv zeta.
  destruct (reset_ok_restarted _ _ _ _ _ _ _ _ Hok) as (v & E).
  pose proof (step_output sin_hour cos_hour (map of_Z [1; 1; -1; -1; 0])
                (fst (snd (reset sin_hour cos_hour G draw seed (s0, g)))))
    as Hout.
  cbv zeta in Hout. rewrite E in *. clear E Hok.
  set (out := current_output (snd (step _ _ _ _))) in *. clearbody out.
  injection Hinit as <-.
  destruct seed; cbn [seeded restarted] in *; env_simpl;
    vm_compute in Hout; subst out;
    (split; [|split]);
    try (eexists; split; [reflexivity|]);
    repeat constructor.
Qed.

Lemma scenario_reset_then_step_witness :
  arr_eq (current_output scenario_started) (map of_Z [50; 50; 50; 50; 50]) /\
  arr_eq (current_output
            (snd (step sin_table cos_table (map of_Z [1; 1; -1; -1; 0])
                       scenario_started)))
         (map of_Z [60; 60; 40; 40; 50]).
Proof.
  edestruct (scenario_reset_then_step sin_table cos_table Z counter_draw
               demand10 "test" None None 0 scenario_env)
    as (H1 & _ & H3).
  - reflexivity.
  - vm_compute. reflexivity.
  - split; assumption.
Defined.

(* ===================================================================== *)
(** ** Actions the environment does not check *)
(* ===================================================================== *)

(** An infinite entry is clamped to the nearer end of [[-1, 1]]. *)
Lemma infinite_entry_is_clamped :
  fclip PInf (Fin (-1)) (Fin 1) = Fin 1 /\
  fclip NInf (Fin (-1)) (Fin 1) = Fin (-1).
Proof. split; reflexivity. Qed.

(** C2 (the code at the failing input).  In the scenario environment after
    [reset], [step] on an action whose first entry is NaN returns normally,
    and the NaN has gone through both clamps: the reward is NaN, the
    observation is not all finite, and the first output is NaN. *)
Theorem nan_action_is_not_sanitized (sin_hour cos_hour : Z -> fnum) :
  let out := step sin_hour cos_hour [NaN; Fin 0; Fin 0; Fin 0; Fin 0]
                  scenario_started in
  exists r,
    fst out = Ok r /\
    reward r = NaN /\
    all_finite (observation r) = false /\
    (isnan <$> current_output (snd out) !! 0%nat) = Some true.
Proof.
  cbv zeta. eexists. split; [vm_compute; reflexivity|].
  repeat split; vm_compute; reflexivity.
Qed.

(** C3 (the code at the failing input).  With five generators, [step] on
    an action of length one returns normally: NumPy stretches the single
    entry over all five generators. *)
Theorem short_action_is_broadcast (sin_hour cos_hour : Z -> fnum) :
  let out := step sin_hour cos_hour [Fin 1] scenario_started in
  Np.len (capacities scenario_started) = 5 /\
  is_ok (fst out) = true /\
  arr_eq (current_output (snd out)) (map of_Z [60; 60; 60; 60; 60]).
Proof.
  cbv zeta. split; [reflexivity|]. split; [vm_compute; reflexivity|].
  vm_compute. repeat constructor.
Qed.

(* ===================================================================== *)
(** ** The anatomy of a transition *)
(* ===================================================================== *)

Section Transitions.
Variable sin_hour cos_hour : Z -> fnum.

(** What a [step] that returned has done. *)
Lemma step_ok_inv (a : list fnum) (s s' : PowerGridEnvironment) (r : step_result) :
  step sin_hour cos_hour a s = (Ok r, s') ->
  terminated r = false /\
  truncated r = (max_steps s <=? current_step s + 1) /\
  current_step s' = current_step s + 1 /\
  registry s' = registry s /\
  exists adj moved,
    Np.mul (Np.clip a (Fin (-1)) (Fin 1)) (max_ramping s) = Ok adj /\
    Np.iadd (current_output s) adj = Ok moved /\
    Np.clip_upto moved (Fin 0) (capacities s) = Ok (current_output s').
Proof.
  unfold step. rewrite bind_get; cbv beta.
  destruct (Np.mul _ _) as [adj|e] eqn:Hmul; [|discriminate].
  rewrite bind_lift_ok.
  destruct (Np.iadd _ _) as [moved|e] eqn:Hadd; [|discriminate].
  rewrite bind_lift_ok, bind_modify. env_simpl.
  destruct (Np.clip_upto _ _ _) as [clamped|e] eqn:Hclip; [|discriminate].
  rewrite bind_lift_ok, bind_modify, bind_get. env_simpl.
  destruct (Np.index _ _) as [x|e]; [|discriminate].
  rewrite bind_lift_ok.
  set (s2 := set_current_output clamped _).
  pose proof (calculate_reward_readonly unrounded x (Np.sum clamped) adj s2) as Hro.
  destruct (_calculate_reward _ _ _ _ s2) as [[[rw inf]|e] s2'] eqn:Hrw;
    simpl in Hro; subst s2';
    [rewrite (bind_returns _ _ _ _ _ Hrw)
    |rewrite (bind_raises _ _ _ _ _ Hrw); discriminate].
  cbv beta iota. rewrite bind_modify, bind_get.
  set (s3 := set_current_step _ s2).
  pose proof (get_observation_readonly sin_hour cos_hour s3) as Hro'.
  destruct (_get_observation _ _ s3) as [[obs|e] s3'] eqn:Hobs;
    simpl in Hro'; subst s3';
    [rewrite (bind_returns _ _ _ _ _ Hobs)
    |rewrite (bind_raises _ _ _ _ _ Hobs); discriminate].
  destruct (getitem inf "cost") as [c|e]; [|discriminate].
  rewrite bind_lift_ok.
  destruct (getitem inf "gap") as [gp|e]; [|discriminate].
  rewrite bind_lift_ok. unfold ret. intros [= <- <-].
  subst s3 s2; env_simpl. repeat split; try reflexivity.
  exists adj, moved. repeat split; assumption.
Qed.

Lemma clip_upto_length (moved caps clamped : list fnum) :
  length moved = length caps ->
  Np.clip_upto moved (Fin 0) caps = Ok clamped ->
  length clamped = length caps.
Proof.
  intros Hl. unfold Np.clip_upto. rewrite broadcast2_same by assumption.
  intros [= <-]. rewrite length_zip_with. lia.
Qed.

(** A [step] that returned leaves a consistent object consistent. *)
Lemma step_ok_shape (a : list fnum) (s s' : PowerGridEnvironment) (r : step_result) :
  shape_ok s = true ->
  step sin_hour cos_hour a s = (Ok r, s') ->
  shape_ok s' = true.
Proof.
  intros Hs Hstep.
  destruct (step_ok_inv _ _ _ _ Hstep)
    as (_ & _ & _ & Hreg & adj & moved & _ & Hadd & Hclip).
  apply (shape_ok_transfer s); [assumption | | assumption].
  pose proof (shape_ok_inv s Hs) as (Ho & _).
  apply iadd_length in Hadd.
  rewrite (clip_upto_length _ _ _ (eq_trans Hadd Ho) Hclip). now rewrite Ho.
Qed.

(** Past the last demand sample the transition raises, after it has moved
    the outputs. *)
Lemma step_raises_at_end (a : list fnum) (s : PowerGridEnvironment) :
  shape_ok s = true -> action_fits a s ->
  0 <= current_step s -> Np.len (load_data s) <= current_step s + 1 ->
  fst (step sin_hour cos_hour a s) = Raise IndexError.
Proof.
  intros Hs Ha H0 H1.
  destruct (apply_action_ok a s Hs Ha) as (adj & moved & Hmul & Hadd & Hlen).
  pose proof (shape_ok_inv s Hs) as (Ho & Hk & Hc & Hr & Hw & Hm).
  unfold step. rewrite bind_get; cbv beta.
  rewrite Hmul, bind_lift_ok, Hadd, bind_lift_ok, bind_modify.
  unfold Np.clip_upto. env_simpl.
  rewrite broadcast2_same by congruence.
  rewrite bind_lift_ok, bind_modify, bind_get. env_simpl.
  destruct (Z_lt_le_dec (current_step s) (Np.len (load_data s))) as [Hin|Hout].
  2:{ now rewrite index_raises, bind_lift_raise. }
  destruct (index_ok (load_data s) (current_step s)) as (x & Hx & _); [lia|].
  rewrite Hx, bind_lift_ok.
  set (clamped := zip_with _ moved (capacities s)).
  set (s2 := set_current_output clamped _).
  assert (Hs2 : shape_ok s2 = true).
  { apply (shape_ok_transfer s); [reflexivity | | assumption].
    subst s2 clamped; env_simpl. rewrite length_zip_with. lia. }
  destruct (calculate_reward_returns unrounded x (Np.sum clamped) adj s2 Hs2)
    as (rw & inf & Hrw & Kc & Kg).
  rewrite (bind_returns _ _ _ _ _ Hrw). cbv beta iota.
  rewrite bind_modify, bind_get.
  set (s3 := set_current_step _ s2).
  rewrite (bind_raises _ _ _ s3 IndexError); [reflexivity|].
  apply get_observation_raises. subst s3 s2; env_simpl. lia.
Qed.

Lemma broadcast2_mismatch (f : fnum -> fnum -> fnum) (a b : list fnum) :
  length a <> length b -> length a <> 1%nat -> length b <> 1%nat ->
  Np.broadcast2 f a b = Raise ValueError.
Proof.
  intros Hne Ha Hb. unfold Np.broadcast2.
  destruct (Nat.eqb_spec (length a) (length b)); [congruence|].
  destruct a as [|x [|x' a]], b as [|y [|y' b]]; simpl in *;
    congruence.
Qed.

Lemma iadd_raises (a b : list fnum) :
  length b <> length a -> length b <> 1%nat ->
  Np.iadd a b = Raise ValueError.
Proof.
  intros Hne Hb. unfold Np.iadd.
  destruct (Nat.eq_dec (length a) 1%nat) as [Ha|Ha].
  - destruct a as [|o [|o' a]]; try discriminate.
    rewrite broadcast2_stretch_l, length_map.
    destruct (Nat.eqb_spec (length b) (length [o])); [congruence | reflexivity].
  - rewrite broadcast2_mismatch by congruence. reflexivity.
Qed.

(** X7.  Any other length than one entry per generator, or a single entry,
    is rejected by NumPy's broadcasting with a [ValueError], before the
    object is touched: the object is left exactly as it was. *)
Lemma step_rejects_other_lengths (a : list fnum) (s : PowerGridEnvironment) :
  shape_ok s = true ->
  length a <> length (capacities s) -> length a <> 1%nat ->
  step sin_hour cos_hour a s = (Raise ValueError, s).
Proof.
  intros Hs Hn H1.
  pose proof (shape_ok_inv s Hs) as (Ho & _ & Hc & Hr & _).
  unfold step. rewrite bind_get; cbv beta.
  set (c := Np.clip a (Fin (-1)) (Fin 1)).
  assert (Hclip : length c = length a) by apply length_map.
  assert (Hmul : Np.mul c (max_ramping s) = Raise ValueError \/
                 exists adj, Np.mul c (max_ramping s) = Ok adj /\
                             length adj = length a).
  { destruct (max_ramping s) as [x|l]; simpl in *.
    - right. eexists. split; [reflexivity|]. now rewrite length_map.
    - apply Nat.eqb_eq in Hr.
      destruct (Nat.eq_dec (length l) 1%nat) as [Hl|Hl].
      + destruct l as [|z [|z' l]]; try discriminate.
        rewrite broadcast2_stretch_r. right.
        eexists. split; [reflexivity|]. now rewrite length_map.
      + left. apply broadcast2_mismatch; congruence. }
  destruct Hmul as [E | (adj & E & Hadj)]; rewrite E.
  - now rewrite bind_lift_raise.
  - rewrite bind_lift_ok, iadd_raises by congruence.
    now rewrite bind_lift_raise.
Qed.

End Transitions.

(* ===================================================================== *)
(** ** Episodes *)
(* ===================================================================== *)

Lemma registry_inv (s s' : PowerGridEnvironment) :
  registry s' = registry s ->
  load_data s' = load_data s /\ capacities s' = capacities s /\
  max_steps s' = max_steps s /\ reward_weights s' = reward_weights s /\
  mode s' = mode s.
Proof. unfold registry. intros [= -> -> _ -> _ _ -> _ ->]. repeat split. Qed.

Section Episodes.
Variable sin_hour cos_hour : Z -> fnum.

(** As long as demand samples remain, a sequence of well-shaped actions
    runs to its end, and the flags of its transitions are determined by
    the absolute position in the series. *)
Lemma run_returns (actions : list (list fnum)) :
  forall s : PowerGridEnvironment,
  shape_ok s = true -> 0 <= current_step s ->
  Forall (fun a => length a = length (capacities s)) actions ->
  current_step s + Z.of_nat (length actions) < Np.len (load_data s) ->
  exists rs s',
    run sin_hour cos_hour actions s = (Ok rs, s') /\
    length rs = length actions /\
    current_step s' = current_step s + Z.of_nat (length actions) /\
    registry s' = registry s /\
    forall (i : nat) r, rs !! i = Some r ->
      terminated r = false /\
      truncated r = (max_steps s <=? current_step s + Z.of_nat i + 1).
Proof.
  induction actions as [|a rest IH]; intros s Hs H0 Hall Hroom.
  - exists [], s. simpl.
    split; [reflexivity|]. split; [reflexivity|]. split; [lia|].
    split; [reflexivity|].
    intros i r Hi. rewrite lookup_nil in Hi. discriminate.
  - inversion Hall as [|? ? Ha Hrest]; subst. simpl length in Hroom.
    destruct (step_returns sin_hour cos_hour a s Hs (or_introl Ha) H0)
      as (r & s1 & Hstep & Hterm & Htrunc & Hcs & Hreg & Hlen); [lia|].
    destruct (registry_inv _ _ Hreg) as (Hld & Hcaps & Hms & _).
    destruct (IH s1) as (rs & s' & Hrun & Hlrs & Hcs' & Hreg' & Hflags).
    + apply (shape_ok_transfer s); assumption.
    + lia.
    + now rewrite Hcaps.
    + rewrite Hld. lia.
    + exists (r :: rs), s'. cbn [run].
      rewrite (bind_returns _ _ _ _ _ Hstep), (bind_returns _ _ _ _ _ Hrun).
      split; [reflexivity|]. simpl length.
      split; [lia|]. split; [lia|]. split; [congruence|].
      intros i r' Hi. destruct i as [|i]; simpl in Hi.
      * injection Hi as <-. split; [assumption|].
        rewrite Htrunc. f_equal. lia.
      * apply Hflags in Hi as [Ht ->]. split; [assumption|].
        rewrite Hms, Hcs. f_equal. lia.
Qed.

End Episodes.

(** C5 (as amended).  From a consistent object at offset [current_step s]
    (the offset [reset] chose), feed [step] any actions with one entry per
    generator while demand samples remain: every transition returns, its
    [terminated] flag is false, and its [truncated] flag is true exactly
    when the absolute index it advanced to, offset plus number of steps
    taken, has reached the series length minus 5. *)
Theorem truncation_at_length_minus_five
    (sin_hour cos_hour : Z -> fnum)
    (s : PowerGridEnvironment) (actions : list (list fnum)) :
  shape_ok s = true -> 0 <= current_step s ->
  Forall (fun a => length a = length (capacities s)) actions ->
  current_step s + Z.of_nat (length actions) < Np.len (load_data s) ->
  exists rs s',
    run sin_hour cos_hour actions s = (Ok rs, s') /\
    length rs = length actions /\
    forall (i : nat) r, rs !! i = Some r ->
      terminated r = false /\
      (truncated r = true <->
       Np.len (load_data s) - 5 <= current_step s + Z.of_nat i + 1).
Proof.
  intros Hs H0 Hall Hroom.
  destruct (run_returns sin_hour cos_hour actions s Hs H0 Hall Hroom)
    as (rs & s' & Hrun & Hlen & _ & _ & Hflags).
  pose proof (shape_ok_inv s Hs) as (_ & _ & _ & _ & _ & Hm).
  exists rs, s'. split; [assumption|]. split; [assumption|].
  intros i r Hi. apply Hflags in Hi as [Ht E]. split; [assumption|].
  rewrite E, Hm. apply Z.leb_le.
Qed.

Lemma truncation_at_length_minus_five_witness :
  exists rs s',
    run sin_table cos_table (replicate 6 (replicate 5 (Fin 0))) scenario_started
      = (Ok rs, s') /\
    length rs = 6%nat /\
    forall (i : nat) r, rs !! i = Some r ->
      terminated r = false /\
      (truncated r = true <-> 10 - 5 <= 0 + Z.of_nat i + 1).
Proof.
  apply (truncation_at_length_minus_five sin_table cos_table scenario_started
           (replicate 6 (replicate 5 (Fin 0)))).
  - reflexivity.
  - vm_compute. discriminate.
  - repeat constructor.
  - vm_compute. reflexivity.
Defined.

(** C5 as stated fails: on ten samples in evaluation mode the fifth
    transition after [reset] is already truncated, at index 5, one step
    before the series length minus the forecast horizon of 4. *)
Lemma truncated_before_length_minus_four :
  exists rs s',
    run sin_table cos_table (replicate 5 (replicate 5 (Fin 0))) scenario_started
      = (Ok rs, s') /\
    (truncated <$> rs !! 4%nat) = Some true /\
    current_step s' = 5 /\
    Np.len (load_data s') - 4 = 6.
Proof.
  eexists _, _. split; [vm_compute; reflexivity|].
  repeat split.
Qed.

(** C9 (as amended).  [step] has no guard on the state of the episode.  On
    the object a well-formed configuration builds, without any [reset],
    [step] works on the constructor's state, index 0 and all outputs zero,
    and any sequence of well-shaped actions shorter than the demand series
    gets a normal tuple from every call, including the calls that follow a
    tuple whose [truncated] flag is true. *)
Theorem step_without_reset_returns
    (sin_hour cos_hour : Z -> fnum)
    (data : list fnum) (cfg : config) (mode_ : string)
    (s0 : PowerGridEnvironment) (actions : list (list fnum)) :
  config_ok cfg = true ->
  init data cfg mode_ = Ok s0 ->
  Forall (fun a => length a = length (capacities s0)) actions ->
  Z.of_nat (length actions) < Np.len data ->
  current_step s0 = 0 /\
  current_output s0 = replicate (length (capacities s0)) (Fin 0) /\
  exists rs s',
    run sin_hour cos_hour actions s0 = (Ok rs, s') /\
    length rs = length actions /\
    forall (i : nat) r, rs !! i = Some r ->
      truncated r = (Np.len data - 5 <=? Z.of_nat i + 1).
Proof.
  intros Hcfg Hinit Hall Hroom.
  destruct (init_ok data cfg mode_ Hcfg)
    as (s0' & E & Hs & _ & _ & Hcs & Hld & _ & _ & Hout & _).
  rewrite Hinit in E. injection E as <-.
  split; [assumption|]. split; [assumption|].
  destruct (run_returns sin_hour cos_hour actions s0 Hs) as
    (rs & s' & Hrun & Hlen & _ & _ & Hflags);
    [lia | assumption | rewrite Hcs, Hld; lia |].
  exists rs, s'. split; [assumption|]. split; [assumption|].
  intros i r Hi. apply Hflags in Hi as [_ ->].
  pose proof (shape_ok_inv s0 Hs) as (_ & _ & _ & _ & _ & Hm).
  rewrite Hm, Hcs, Hld. f_equal.
Qed.

Lemma step_without_reset_returns_witness :
  exists rs s',
    run sin_table cos_table (replicate 9 (replicate 5 (Fin 1))) scenario_env
      = (Ok rs, s') /\
    length rs = 9%nat /\
    forall (i : nat) r, rs !! i = Some r ->
      truncated r = (10 - 5 <=? Z.of_nat i + 1).
Proof.
  apply (step_without_reset_returns sin_table cos_table demand10
           (scenario_config None) "test" scenario_env
           (replicate 9 (replicate 5 (Fin 1)))).
  - reflexivity.
  - reflexivity.
  - repeat constructor.
  - vm_compute. reflexivity.
Defined.

(** C9 as stated fails: [step] on the freshly constructed scenario
    environment returns normally, and so does the [step] that follows a
    truncated one. *)
Lemma step_outside_episode_returns :
  is_ok (fst (step sin_table cos_table (replicate 5 (Fin 0)) scenario_env))
    = true /\
  exists rs s',
    run sin_table cos_table (replicate 6 (replicate 5 (Fin 0))) scenario_started
      = (Ok rs, s') /\
    (truncated <$> rs !! 4%nat) = Some true /\
    is_Some (rs !! 5%nat).
Proof.
  split; [vm_compute; reflexivity|].
  eexists _, _. split; [vm_compute; reflexivity|].
  split; [reflexivity | eexists; reflexivity].
Qed.

(* ===================================================================== *)
(** ** [reset] and the length of the demand series *)
(* ===================================================================== *)

Lemma counter_draw_range (low high g : Z) :
  low < high -> low <= fst (counter_draw low high g) < high.
Proof.
  intros H. unfold counter_draw. simpl.
  pose proof (Z.mod_pos_bound g (high - low)). lia.
Qed.

Lemma restarted_fields (v : Z) (seed : option N) (s : PowerGridEnvironment) :
  current_step (restarted v (seeded seed s)) = v /\
  load_data (restarted v (seeded seed s)) = load_data s /\
  capacities (restarted v (seeded seed s)) = capacities s.
Proof. destruct seed; repeat split. Qed.




(* ===================================================================== *)
(** ** The reward engine *)
(* ===================================================================== *)

Lemma forallb_Forall {A} (p : A -> bool) (l : list A) :
  forallb p l = true <-> Forall (fun x => p x = true) l.
Proof.
  induction l as [|x l IH]; simpl.
  - split; constructor.
  - rewrite andb_true_iff, IH. split.
    + intros [? ?]. now constructor.
    + intros H. inversion H. now split.
Qed.

(** The signs of the exact operations, NaN and the infinities included. *)
Lemma nonneg_not_negative (x : fnum) :
  nonneg x = true -> not_negative x = true.
Proof. destruct x; simpl; try discriminate. auto. Qed.

Lemma not_negative_Fin (q : Q) : not_negative (Fin q) = true <-> (0 <= q)%Q.
Proof. unfold not_negative. cbn. apply Qle_bool_iff. Qed.

Lemma fmul_not_negative (x y : fnum) :
  not_negative x = true -> not_negative y = true ->
  not_negative (x * y)%F = true.
Proof.
  destruct x as [a| | |], y as [b| | |]; try discriminate; try reflexivity.
  - cbn [fmul]. rewrite !not_negative_Fin. apply Qmult_le_0_compat.
  - rewrite not_negative_Fin. intros Ha _. cbn [fmul]. unfold inf_times.
    destruct (Qeq_bool a 0) eqn:E; [reflexivity|].
    assert (Hlt : Qltb 0 a = true).
    { apply Qeq_bool_false in E. apply Qltb_intro. lra. }
    rewrite Hlt. reflexivity.
  - rewrite not_negative_Fin. intros _ Hb. cbn [fmul]. unfold inf_times.
    destruct (Qeq_bool b 0) eqn:E; [reflexivity|].
    assert (Hlt : Qltb 0 b = true).
    { apply Qeq_bool_false in E. apply Qltb_intro. lra. }
    rewrite Hlt. reflexivity.
Qed.

Lemma fadd_not_negative (x y : fnum) :
  not_negative x = true -> not_negative y = true ->
  not_negative (x + y)%F = true.
Proof.
  destruct x as [a| | |], y as [b| | |]; try discriminate; try reflexivity.
  cbn [fadd]. rewrite !not_negative_Fin. intros Ha Hb. lra.
Qed.

Lemma fdiv_not_negative (x : fnum) (k : Q) :
  (0 < k)%Q -> not_negative x = true -> not_negative (x / Fin k)%F = true.
Proof.
  intros Hk. destruct x as [a| | |]; try discriminate; try reflexivity.
  - rewrite not_negative_Fin. intros Ha. cbn [fdiv].
    assert (E : Qeq_bool k 0 = false) by (apply Qeq_bool_false_intro; lra).
    rewrite E. apply not_negative_Fin.
    unfold Qdiv. apply Qmult_le_0_compat; [assumption|].
    apply Qlt_le_weak, Qinv_lt_0_compat, Hk.
  - intros _. cbn [fdiv].
    assert (E : Qltb k 0 = false) by (apply Qltb_false_intro; lra).
    rewrite E. reflexivity.
Qed.

Lemma fabs_not_negative (x : fnum) : not_negative (fabs x) = true.
Proof.
  destruct x as [q| | |]; try reflexivity.
  apply not_negative_Fin, Qabs_nonneg.
Qed.

(** The negation of a number that is not negative is not positive: it is
    NaN, or at most zero. *)
Lemma fneg_not_positive (x : fnum) :
  not_negative x = true ->
  fltb (Fin 0) (- x)%F = false /\
  (isnan (- x)%F = false -> fle (- x)%F (Fin 0)).
Proof.
  destruct x as [q| | |]; try discriminate;
    try (intros _; split; [reflexivity | first [reflexivity | discriminate]]).
  rewrite not_negative_Fin. intros Hq. cbn [fneg fltb]. split.
  - apply Qltb_false_intro. lra.
  - intros _. apply fle_Fin. lra.
Qed.

Lemma sum_not_negative (l : list fnum) :
  Forall (fun x => not_negative x = true) l -> not_negative (Np.sum l) = true.
Proof.
  induction 1 as [|x l Hx _ IH]; [reflexivity|].
  cbn [Np.sum foldr]. now apply fadd_not_negative.
Qed.

Lemma unrounded_keeps_sign : keeps_sign unrounded.
Proof.
  split.
  - intros i x Hx. exact Hx.
  - intros i l Hl. now apply sum_not_negative.
Qed.

Lemma overflowing_keeps_sign (top : Q) : (0 <= top)%Q -> keeps_sign (overflowing top).
Proof.
  intros Htop.
  assert (Hr : forall x, not_negative x = true ->
            not_negative
              match x with
              | Fin q => if Qltb top q then PInf
                         else if Qltb q (- top) then NInf else x
              | _ => x
              end = true).
  { intros [q| | |]; try discriminate; try reflexivity.
    rewrite not_negative_Fin. intros Hq.
    destruct (Qltb top q); [reflexivity|].
    assert (E : Qltb q (- top) = false) by (apply Qltb_false_intro; lra).
    rewrite E. now apply not_negative_Fin. }
  split.
  - intros i x Hx. now apply Hr.
  - intros i l Hl. apply Hr. now apply sum_not_negative.
Qed.

Section RewardEngine.
Variable R : rounding.

(** What the engine returns when outputs and costs combine and the four
    weights are there: the four components as computed from its inputs,
    and their weighted sum. *)
Lemma calculate_reward_value (load generation : fnum) (adj : list fnum)
    (s : PowerGridEnvironment) (weighted : list fnum) (w1 w2 w3 w4 : fnum) :
  Np.broadcast2 (fun o c => rnd R 0 (o * c)%F) (current_output s) (costs s)
    = Ok weighted ->
  getitem (reward_weights s) "generation_cost" = Ok w1 ->
  getitem (reward_weights s) "supply_demand_gap" = Ok w2 ->
  getitem (reward_weights s) "ramping_penalty" = Ok w3 ->
  getitem (reward_weights s) "overload_penalty" = Ok w4 ->
  let c := rsum R 1 weighted in
  let gp := fabs (rnd R 2 (generation - load)%F) in
  let rp := rsum R 3 (map fabs adj) in
  let ov := overload_of R load gp in
  let rw := weighted_sum R w1 w2 w3 w4 c gp rp ov in
  _calculate_reward R load generation adj s =
    (Ok (rw, {[ "step_reward" := rw; "cost" := c; "gap" := gp;
                "ramping" := rp; "overload" := ov ]}), s).
Proof.
  intros B G1 G2 G3 G4. cbv zeta.
  unfold _calculate_reward. rewrite bind_get; cbv beta.
  rewrite B, bind_lift_ok, G1, bind_lift_ok, G2, bind_lift_ok, G3,
    bind_lift_ok, G4, bind_lift_ok.
  reflexivity.
Qed.


Hypothesis HR : keeps_sign R.

Lemma rnd_not_negative (i : nat) (x : fnum) :
  not_negative x = true -> not_negative (rnd R i x) = true.
Proof. apply HR. Qed.

Lemma overload_not_negative (load gap : fnum) :
  not_negative gap = true -> not_negative (overload_of R load gap) = true.
Proof.
  intros Hg. unfold overload_of.
  destruct (fltb _ gap); [|reflexivity].
  apply rnd_not_negative, fmul_not_negative; [assumption | reflexivity].
Qed.

Lemma weighted_term_not_negative (i j : nat) (w x : fnum) (k : Q) :
  (0 < k)%Q -> not_negative w = true -> not_negative x = true ->
  not_negative (rnd R i (w * rnd R j (x / Fin k)))%F = true.
Proof.
  intros Hk Hw Hx.
  apply rnd_not_negative, fmul_not_negative; [assumption|].
  now apply rnd_not_negative, fdiv_not_negative.
Qed.

(** The weighted sum of components that are not negative, with weights
    that are not negative, is not positive. *)
Lemma weighted_sum_not_positive (w1 w2 w3 w4 c gp rp ov : fnum) :
  not_negative w1 = true -> not_negative w2 = true ->
  not_negative w3 = true -> not_negative w4 = true ->
  not_negative c = true -> not_negative gp = true ->
  not_negative rp = true -> not_negative ov = true ->
  fltb (Fin 0) (weighted_sum R w1 w2 w3 w4 c gp rp ov) = false /\
  (isnan (weighted_sum R w1 w2 w3 w4 c gp rp ov) = false ->
   fle (weighted_sum R w1 w2 w3 w4 c gp rp ov) (Fin 0)).
Proof.
  intros W1 W2 W3 W4 Hc Hg Hr Ho. unfold weighted_sum. cbv zeta.
  apply fneg_not_positive.
  repeat first
    [ apply weighted_term_not_negative; [reflexivity | assumption | assumption]
    | apply rnd_not_negative
    | apply fadd_not_negative ].
Qed.

End RewardEngine.

Lemma weight_nonneg_inv (w : gmap string fnum) (key : string) :
  weight_nonneg w key = true ->
  getitem w key = Ok (Fin (weight_of w key)) /\
  not_negative (Fin (weight_of w key)) = true.
Proof.
  unfold weight_nonneg, weight_of, getitem.
  destruct (w !! key) as [x|]; [|discriminate].
  destruct x as [q| | |]; try discriminate.
  intros H. split; [reflexivity | exact (nonneg_not_negative _ H)].
Qed.

(** C7 (as amended).  In a feasible situation, in every arithmetic whose
    roundings keep the sign, the reward engine returns: the operating cost
    is the sum of output times cost, the gap the absolute difference of
    generation and load, the ramping cost the sum of the absolute
    adjustments, the overload twice the gap when the gap exceeds a tenth
    of the load and zero otherwise; none of the four is negative; and the
    reward is the negated sum of the four, each over its scale and times
    its weight.  The reward is never positive: it is at most 0 unless it
    is NaN.  Nothing more is said of when it is 0, nor that it is
    finite. *)
Theorem reward_is_nonpositive (R : rounding)
    (load generation : fnum) (adjustments : list fnum)
    (s : PowerGridEnvironment) :
  keeps_sign R ->
  feasible s load generation adjustments = true ->
  let w key := Fin (weight_of (reward_weights s) key) in
  let cost :=
    rsum R 1 (zip_with (fun o c => rnd R 0 (o * c)%F)
                       (current_output s) (costs s)) in
  let gap := fabs (rnd R 2 (generation - load)%F) in
  let ramping := rsum R 3 (map fabs adjustments) in
  let overload := overload_of R load gap in
  let reward :=
    weighted_sum R (w "generation_cost") (w "supply_demand_gap")
                 (w "ramping_penalty") (w "overload_penalty")
                 cost gap ramping overload in
  _calculate_reward R load generation adjustments s =
    (Ok (reward,
         {[ "step_reward" := reward; "cost" := cost; "gap" := gap;
            "ramping" := ramping; "overload" := overload ]}), s) /\
  not_negative cost = true /\ not_negative gap = true /\
  not_negative ramping = true /\ not_negative overload = true /\
  fltb (Fin 0) reward = false /\
  (isnan reward = false -> fle reward (Fin 0)).
Proof.
  intros HR. unfold feasible. rewrite !andb_true_iff.
  intros [[[[[[[[[Ho Hc] Hlen] W1] W2] W3] W4] Hl] Hg] Ha]. cbv zeta.
  apply forallb_Forall in Ho, Hc. apply Nat.eqb_eq in Hlen.
  apply weight_nonneg_inv in W1 as [G1 P1], W2 as [G2 P2],
    W3 as [G3 P3], W4 as [G4 P4].
  assert (Pc : not_negative
                 (rsum R 1 (zip_with (fun o c => rnd R 0 (o * c)%F)
                                     (current_output s) (costs s))) = true).
  { apply HR.
    eapply (zip_with_Forall (fun x => nonneg x = true)
              (fun x => nonneg x = true)); [|exact Ho|exact Hc].
    intros x y Hx Hy. cbv beta.
    apply (rnd_not_negative R HR), fmul_not_negative;
      now apply nonneg_not_negative. }
  assert (Pg : not_negative (fabs (rnd R 2 (generation - load)%F)) = true)
    by apply fabs_not_negative.
  assert (Pr : not_negative (rsum R 3 (map fabs adjustments)) = true).
  { apply HR. rewrite Forall_map. apply Forall_forall.
    intros x _. apply fabs_not_negative. }
  pose proof (overload_not_negative R HR load _ Pg) as Pv.
  split.
  { apply calculate_reward_value; try assumption.
    now apply broadcast2_same. }
  repeat (split; [assumption|]).
  now apply weighted_sum_not_positive.
Qed.

Lemma reward_is_nonpositive_witness :
  exists rw inf,
    _calculate_reward unrounded (Fin 300) (Fin 250) (replicate 5 (Fin 0))
                      scenario_started
      = (Ok (rw, inf), scenario_started) /\
    fle rw (Fin 0).
Proof.
  destruct (reward_is_nonpositive unrounded (Fin 300) (Fin 250)
              (replicate 5 (Fin 0)) scenario_started)
    as (H & _ & _ & _ & _ & _ & Hle).
  - exact unrounded_keeps_sign.
  - vm_compute. reflexivity.
  - eexists _, _. split; [exact H|]. apply Hle. vm_compute. reflexivity.
Defined.

(** Finiteness is a matter of the format: in a format that overflows, a
    feasible situation whose cost overflows beside a zero weight has the
    reward NaN, the product of zero and infinity. *)
Lemma overflow_gives_nan_reward :
  feasible unweighted_started (Fin 300) (Fin 250) (replicate 5 (Fin 0)) = true /\
  keeps_sign (overflowing 40) /\
  exists inf,
    fst (_calculate_reward (overflowing 40) (Fin 300) (Fin 250)
           (replicate 5 (Fin 0)) unweighted_started) = Ok (NaN, inf).
Proof.
  split; [vm_compute; reflexivity|].
  split; [apply overflowing_keeps_sign; lra|].
  eexists. vm_compute. reflexivity.
Qed.

(** C7 as stated fails: zero is a non-negative weight, and with all four
    weights zero a transition that misses the demand by 50 MW is rewarded
    with 0. *)
Lemma zero_weights_give_zero_reward :
  exists r,
    fst (step sin_table cos_table (replicate 5 (Fin 0)) unweighted_started)
      = Ok r /\
    feq (reward r) (Fin 0) /\
    (feqb (Fin 50) <$> info r !! "gap") = Some true /\
    feasible unweighted_started (Fin 300) (Fin 250) (replicate 5 (Fin 0)) = true.
Proof.
  eexists. split; [vm_compute; reflexivity|].
  repeat split; vm_compute; reflexivity.
Qed.

(* ===================================================================== *)
(** ** Seeds and start offsets *)
(* ===================================================================== *)

Section Seeding.
Variable sin_hour cos_hour : Z -> fnum.
Variable G : Type.
Variable draw : Z -> Z -> G -> Z * G.

(** Outside training mode [reset] is a function of the object alone: the
    offset is 0 and the result does not depend on the global generator. *)
Lemma eval_reset_is_deterministic (seed : option N)
    (s : PowerGridEnvironment) (g1 g2 : G) :
  String.eqb (mode s) "train" = false ->
  fst (reset sin_hour cos_hour G draw seed (s, g1))
    = fst (reset sin_hour cos_hour G draw seed (s, g2)) /\
  current_step (fst (snd (reset sin_hour cos_hour G draw seed (s, g1)))) = 0.
Proof.
  intros Hm. rewrite !reset_eval by assumption. cbn [fst snd].
  split; [reflexivity|]. now destruct seed.
Qed.

End Seeding.

(** C6 (the code at the failing input).  In training mode, with a
    non-empty range for the draw, the start offset is the sample of the
    process-wide generator whatever the seed: two resets of the same
    object with the same seed start at different offsets as soon as the
    process-wide generator is in two states that sample differently. *)
Theorem train_reset_ignores_seed
    (sin_hour cos_hour : Z -> fnum) (G : Type) (draw : Z -> Z -> G -> Z * G)
    (seed : option N) (s : PowerGridEnvironment) (g1 g2 : G) :
  String.eqb (mode s) "train" = true ->
  0 < max_steps s - 24 ->
  fst (draw 0 (max_steps s - 24) g1) <> fst (draw 0 (max_steps s - 24) g2) ->
  let offset g sd :=
    current_step (fst (snd (reset sin_hour cos_hour G draw sd (s, g)))) in
  offset g1 seed <> offset g2 seed /\
  (forall seed', offset g1 seed' = fst (draw 0 (max_steps s - 24) g1)) /\
  np_random_seed (fst (snd (reset sin_hour cos_hour G draw seed (s, g1))))
    = np_random_seed (seeded seed s).
Proof.
  intros Hm Hr Hne. cbv zeta.
  assert (Hoff : forall g sd,
    current_step (fst (snd (reset sin_hour cos_hour G draw sd (s, g))))
    = fst (draw 0 (max_steps s - 24) g)).
  { intros g sd. rewrite reset_train by assumption. cbn [fst snd].
    now destruct sd. }
  split; [now rewrite !Hoff|]. split; [intros; apply Hoff|].
  rewrite reset_train by assumption. now destruct seed.
Qed.

Lemma train_reset_ignores_seed_witness :
  current_step (fst (snd (reset sin_table cos_table Z counter_draw (Some 42%N)
                                (training_env, 7))))
  <> current_step (fst (snd (reset sin_table cos_table Z counter_draw (Some 42%N)
                                   (training_env, 8)))).
Proof.
  apply (train_reset_ignores_seed sin_table cos_table Z counter_draw
           (Some 42%N) training_env 7 8).
  - reflexivity.
  - vm_compute. reflexivity.
  - vm_compute. discriminate.
Defined.

(* ===================================================================== *)
(** ** Default reward weights *)
(* ===================================================================== *)

Section Defaults.
Variable sin_hour cos_hour : Z -> fnum.
Variable G : Type.
Variable draw : Z -> Z -> G -> Z * G.

Lemma reachable_registry (P : list fnum -> Prop) (s0 s : PowerGridEnvironment) :
  reachable sin_hour cos_hour G draw P s0 s -> registry s = registry s0.
Proof.
  induction 1 as [|s seed g _ IH|s a _ IH _].
  - reflexivity.
  - now rewrite reset_preserves_registry.
  - now rewrite step_preserves_registry.
Qed.

End Defaults.

(* ===================================================================== *)
(** ** The layout of the observation *)
(* ===================================================================== *)

Lemma index_sample (data : list fnum) (j : Z) :
  0 <= j < Np.len data -> Np.index data j = Ok (sample data j).
Proof.
  intros H. destruct (index_ok data j H) as (x & -> & E).
  unfold sample. now rewrite E.
Qed.

Lemma index_last_sample (data : list fnum) :
  0 < Np.len data -> Np.index data (-1) = Ok (sample data (Np.len data - 1)).
Proof.
  intros H. unfold Np.index, sample.
  change (-1 <? 0) with true. cbv iota.
  destruct (Z.ltb_spec (-1 + Np.len data) 0) as [|_]; [lia|].
  replace (-1 + Np.len data) with (Np.len data - 1) by lia.
  unfold Np.len in *.
  destruct (data !! Z.to_nat (Z.of_nat (length data) - 1)) as [x|] eqn:E;
    [reflexivity|].
  apply lookup_ge_None in E. lia.
Qed.

(** Both branches of the forecast code, in one expression. *)
Lemma padded_window (data : list fnum) (n : nat) :
  (n <= length data)%nat -> data <> [] ->
  take 4 (drop n data)
    ++ replicate (4 - length (drop n data)) (sample data (Np.len data - 1))
  = map (fun i => sample data (Z.min (Z.of_nat n + i) (Np.len data - 1)))
        [0; 1; 2; 3].
Proof.
  intros Hn Hne.
  assert (Hlen : (0 < length data)%nat) by (destruct data; simpl; [congruence | lia]).
  apply list_eq. intros i.
  destruct (Nat.lt_ge_cases i 4) as [Hi|Hi].
  2:{ rewrite !lookup_ge_None_2; [reflexivity | simpl; lia |].
      rewrite length_app, length_take, length_drop, length_replicate. lia. }
  assert (Hmap : (map (fun i => sample data (Z.min (Z.of_nat n + i) (Np.len data - 1)))
                      [0; 1; 2; 3]) !! i
                 = Some (sample data (Z.min (Z.of_nat n + Z.of_nat i) (Np.len data - 1)))).
  { destruct i as [|[|[|[|i]]]]; try reflexivity. lia. }
  rewrite Hmap. unfold Np.len.
  destruct (Nat.lt_ge_cases (n + i) (length data)) as [Hin|Hout].
  - rewrite lookup_app_l by (rewrite length_take, length_drop; lia).
    rewrite lookup_take_lt by lia. rewrite lookup_drop.
    unfold sample.
    replace (Z.to_nat (Z.min (Z.of_nat n + Z.of_nat i) (Z.of_nat (length data) - 1)))
      with (n + i)%nat by lia.
    destruct (data !! (n + i)%nat) as [x|] eqn:E; [reflexivity|].
    apply lookup_ge_None in E. lia.
  - rewrite lookup_app_r by (rewrite length_take, length_drop; lia).
    rewrite length_take, length_drop.
    rewrite lookup_replicate_2 by lia.
    do 2 f_equal. lia.
Qed.

(** At a position inside the demand series the observation is the
    current sample over 10000, the outputs over the largest capacity, the
    forecast window over 10000 and the two time features of the hour
    [current_step mod 24], in this order; the only way it can fail there is
    the [ValueError] of [np.max] on an empty capacity array. *)
Lemma get_observation_layout (sin_hour cos_hour : Z -> fnum)
    (s : PowerGridEnvironment) :
  0 <= current_step s < Np.len (load_data s) ->
  fst (_get_observation sin_hour cos_hour s) =
    match Np.max (capacities s) with
    | Raise e => Raise e
    | Ok top =>
        Ok ([(sample (load_data s) (current_step s) / Fin 10000)%F]
              ++ Np.div_scalar (current_output s) top
              ++ Np.div_scalar (forecast_window (load_data s) (current_step s))
                               (Fin 10000)
              ++ [sin_hour (current_step s mod 24);
                  cos_hour (current_step s mod 24)])
    end.
Proof.
  intros Hcs. set (data := load_data s) in *. set (t := current_step s) in *.
  assert (Hne : data <> []).
  { intros E. rewrite E in Hcs. unfold Np.len in Hcs. simpl in Hcs. lia. }
  assert (Hn : Z.of_nat (Z.to_nat (t + 1)) = t + 1) by lia.
  assert (Hwin : forecast_window data t =
                 take 4 (drop (Z.to_nat (t + 1)) data)
                   ++ replicate (4 - length (drop (Z.to_nat (t + 1)) data))
                                (sample data (Np.len data - 1))).
  { rewrite padded_window; [|unfold Np.len in Hcs; lia | assumption].
    rewrite Hn. reflexivity. }
  assert (Hb : Np.bound data (t + 1) = t + 1).
  { unfold Np.bound. destruct (Z.ltb_spec (t + 1) 0); lia. }
  unfold _get_observation. rewrite bind_get; cbv beta.
  fold data t. rewrite (index_sample data t Hcs), bind_lift_ok.
  assert (Hfc : forall k : list fnum -> M PowerGridEnvironment (list fnum),
    bind (if Np.len data <? t + 1 + 4
          then if Np.len data - (t + 1) <? 4
               then bind (lift (Np.index data (-1)))
                         (fun last => ret (Np.slice_from data (t + 1) ++
                            Np.full (4 - (Np.len data - (t + 1))) last))
               else ret (Np.slice_from data (t + 1))
          else ret (Np.slice data (t + 1) (t + 1 + 4))) k s
    = k (forecast_window data t) s).
  { intros k. rewrite Hwin.
    destruct (Z.ltb_spec (Np.len data) (t + 1 + 4)) as [Htail|Hroom].
    - destruct (Z.ltb_spec (Np.len data - (t + 1)) 4) as [_|]; [|lia].
      rewrite index_last_sample by lia.
      cbv beta iota delta [bind lift ret].
      unfold Np.slice_from, Np.full. rewrite Hb.
      rewrite take_ge by (rewrite length_drop; unfold Np.len in *; lia).
      do 3 f_equal. rewrite length_drop. unfold Np.len in *. lia.
    - rewrite bind_ret. unfold Np.slice. rewrite Hb.
      assert (Hb' : Np.bound data (t + 1 + 4) = t + 1 + 4).
      { unfold Np.bound. destruct (Z.ltb_spec (t + 1 + 4) 0); lia. }
      rewrite Hb'.
      replace (Z.to_nat (t + 1 + 4 - (t + 1))) with 4%nat by lia.
      replace (4 - length (drop (Z.to_nat (t + 1)) data))%nat with 0%nat
        by (rewrite length_drop; unfold Np.len in *; lia).
      now rewrite app_nil_r. }
  rewrite Hfc.
  destruct (Np.max (capacities s)) as [top|e].
  - rewrite bind_lift_ok. reflexivity.
  - rewrite bind_lift_raise. reflexivity.
Qed.

(* ===================================================================== *)
(** ** The object a transition leaves behind *)
(* ===================================================================== *)

Section StepStates.
Variable sin_hour cos_hour : Z -> fnum.

(** Whatever happens in [step], the object it leaves is one of four: the
    object it found; that object with the outputs moved; with the outputs
    moved and clamped; or moved, clamped and one position further. *)
Lemma step_state_cases (a : list fnum) (s : PowerGridEnvironment) :
  let s' := snd (step sin_hour cos_hour a s) in
  s' = s \/
  exists adj moved,
    Np.mul (Np.clip a (Fin (-1)) (Fin 1)) (max_ramping s) = Ok adj /\
    Np.iadd (current_output s) adj = Ok moved /\
    (s' = set_current_output moved s \/
     exists clamped,
       Np.clip_upto moved (Fin 0) (capacities s) = Ok clamped /\
       (s' = set_current_output clamped (set_current_output moved s) \/
        s' = set_current_step (current_step s + 1)
               (set_current_output clamped (set_current_output moved s)))).
Proof.
  cbv zeta. unfold step. rewrite bind_get; cbv beta.
  destruct (Np.mul _ _) as [adj|e] eqn:Hmul; [|now left].
  rewrite bind_lift_ok.
  destruct (Np.iadd _ _) as [moved|e] eqn:Hadd; [|now left].
  right. exists adj, moved.
  split; [first [reflexivity | assumption]|].
  split; [first [reflexivity | assumption]|].
  rewrite bind_lift_ok, bind_modify. env_simpl.
  destruct (Np.clip_upto _ _ _) as [clamped|e] eqn:Hclip; [|now left].
  right. exists clamped. split; [first [reflexivity | assumption]|].
  rewrite bind_lift_ok, bind_modify, bind_get. env_simpl.
  destruct (Np.index _ _) as [x|e]; [|now left].
  rewrite bind_lift_ok.
  set (s2 := set_current_output clamped _).
  pose proof (calculate_reward_readonly unrounded x (Np.sum clamped) adj s2) as Hro.
  destruct (_calculate_reward _ _ _ _ s2) as [[[rw inf]|e] s2'] eqn:Hrw;
    simpl in Hro; subst s2';
    [rewrite (bind_returns _ _ _ _ _ Hrw)
    |rewrite (bind_raises _ _ _ _ _ Hrw); now left].
  cbv beta iota. rewrite bind_modify, bind_get.
  set (s3 := set_current_step _ s2).
  pose proof (get_observation_readonly sin_hour cos_hour s3) as Hro'.
  destruct (_get_observation _ _ s3) as [[obs|e] s3'] eqn:Hobs;
    simpl in Hro'; subst s3';
    [rewrite (bind_returns _ _ _ _ _ Hobs)
    |rewrite (bind_raises _ _ _ _ _ Hobs); now right].
  destruct (getitem inf "cost") as [c|e]; [|now right].
  rewrite bind_lift_ok.
  destruct (getitem inf "gap") as [gp|e]; [|now right].
  rewrite bind_lift_ok. now right.
Qed.

(** A consistent object stays consistent through [step], and its position
    does not move back, whether [step] returns or raises. *)
Lemma step_keeps_shape (a : list fnum) (s : PowerGridEnvironment) :
  shape_ok s = true ->
  shape_ok (snd (step sin_hour cos_hour a s)) = true /\
  current_step s <= current_step (snd (step sin_hour cos_hour a s))
    <= current_step s + 1.
Proof.
  intros Hs. pose proof (shape_ok_inv s Hs) as (Ho & _).
  destruct (step_state_cases a s)
    as [-> | (adj & moved & _ & Hadd & [-> | (clamped & Hclip & [-> | ->])])].
  - split; [assumption | lia].
  - apply iadd_length in Hadd. split; [|env_simpl; lia].
    apply (shape_ok_transfer s); [reflexivity | env_simpl; lia | assumption].
  - apply iadd_length in Hadd.
    apply clip_upto_length in Hclip; [|lia]. split; [|env_simpl; lia].
    apply (shape_ok_transfer s); [reflexivity | env_simpl; lia | assumption].
  - apply iadd_length in Hadd.
    apply clip_upto_length in Hclip; [|lia]. split; [|env_simpl; lia].
    apply (shape_ok_transfer s); [reflexivity | env_simpl; lia | assumption].
Qed.

End StepStates.

Section Anatomy.
Variable sin_hour cos_hour : Z -> fnum.

(** The record of components the reward engine returns always has the
    same five entries. *)
Lemma calculate_reward_ok_inv load generation adj (s : PowerGridEnvironment)
    (rw : fnum) (inf : gmap string fnum) :
  fst (_calculate_reward unrounded load generation adj s) = Ok (rw, inf) ->
  exists weighted ov,
    Np.broadcast2 fmul (current_output s) (costs s) = Ok weighted /\
    ov = (if fltb (Fin (1 # 10) * load)%F (fabs (generation - load))
          then (fabs (generation - load) * Fin 2)%F else Fin 0) /\
    inf = {[ "step_reward" := rw; "cost" := Np.sum weighted;
             "gap" := fabs (generation - load);
             "ramping" := Np.sum (map fabs adj); "overload" := ov ]}.
Proof.
  unfold _calculate_reward. rewrite bind_get; cbv beta.
  cbn [rnd rsum unrounded].
  destruct (Np.broadcast2 _ _ _) as [weighted|e]; [|discriminate].
  rewrite bind_lift_ok.
  destruct (getitem _ "generation_cost") as [w1|e]; [|discriminate].
  rewrite bind_lift_ok.
  destruct (getitem _ "supply_demand_gap") as [w2|e]; [|discriminate].
  rewrite bind_lift_ok.
  destruct (getitem _ "ramping_penalty") as [w3|e]; [|discriminate].
  rewrite bind_lift_ok.
  destruct (getitem _ "overload_penalty") as [w4|e]; [|discriminate].
  rewrite bind_lift_ok. cbn [ret fst]. intros [= <- <-].
  eexists _, _. split; [reflexivity|]. split; reflexivity.
Qed.

(** Everything a [step] that returned has computed. *)
Lemma step_ok_anatomy (a : list fnum) (s s' : PowerGridEnvironment)
    (r : step_result) :
  step sin_hour cos_hour a s = (Ok r, s') ->
  exists adj x inf c gp,
    Np.mul (Np.clip a (Fin (-1)) (Fin 1)) (max_ramping s) = Ok adj /\
    Np.index (load_data s) (current_step s) = Ok x /\
    fst (_calculate_reward unrounded x (Np.sum (current_output s')) adj
           (set_current_step (current_step s) s')) = Ok (reward r, inf) /\
    getitem inf "cost" = Ok c /\ getitem inf "gap" = Ok gp /\
    info r = inf ∪ {[ "load" := x; "generation" := Np.sum (current_output s');
                      "cost" := c; "gap" := gp ]} /\
    fst (_get_observation sin_hour cos_hour s') = Ok (observation r).
Proof.
  unfold step. rewrite bind_get; cbv beta.
  destruct (Np.mul _ _) as [adj|e] eqn:Hmul; [|discriminate].
  rewrite bind_lift_ok.
  destruct (Np.iadd _ _) as [moved|e] eqn:Hadd; [|discriminate].
  rewrite bind_lift_ok, bind_modify. env_simpl.
  destruct (Np.clip_upto _ _ _) as [clamped|e] eqn:Hclip; [|discriminate].
  rewrite bind_lift_ok, bind_modify, bind_get. env_simpl.
  destruct (Np.index _ _) as [x|e] eqn:Hx; [|discriminate].
  rewrite bind_lift_ok.
  set (s2 := set_current_output clamped _).
  pose proof (calculate_reward_readonly unrounded x (Np.sum clamped) adj s2) as Hro.
  destruct (_calculate_reward _ _ _ _ s2) as [[[rw inf]|e] s2'] eqn:Hrw;
    simpl in Hro; subst s2';
    [rewrite (bind_returns _ _ _ _ _ Hrw)
    |rewrite (bind_raises _ _ _ _ _ Hrw); discriminate].
  cbv beta iota. rewrite bind_modify, bind_get.
  set (s3 := set_current_step _ s2).
  pose proof (get_observation_readonly sin_hour cos_hour s3) as Hro'.
  destruct (_get_observation _ _ s3) as [[obs|e] s3'] eqn:Hobs;
    simpl in Hro'; subst s3';
    [rewrite (bind_returns _ _ _ _ _ Hobs)
    |rewrite (bind_raises _ _ _ _ _ Hobs); discriminate].
  destruct (getitem inf "cost") as [c|e] eqn:Kc; [|discriminate].
  rewrite bind_lift_ok.
  destruct (getitem inf "gap") as [gp|e] eqn:Kg; [|discriminate].
  rewrite bind_lift_ok. unfold ret. intros [= <- <-].
  exists adj, x, inf, c, gp. cbn [reward info observation].
  split; [reflexivity|]. split; [reflexivity|].
  split; [change (fst (_calculate_reward unrounded x (Np.sum clamped) adj s2)
                  = Ok (rw, inf)); now rewrite Hrw|].
  split; [assumption|]. split; [assumption|]. split; [reflexivity|].
  now rewrite Hobs.
Qed.

End Anatomy.

(* ===================================================================== *)
(** ** The default weights in every reward *)
(* ===================================================================== *)




(* ===================================================================== *)
(** ** Consistency of every reachable object *)
(* ===================================================================== *)

Lemma counter_draw_in_range : draws_in_range counter_draw.
Proof. intros low high g H. now apply counter_draw_range. Qed.

Lemma init_obs_dim (data : list fnum) (cfg : config) (mode_ : string)
    (s0 : PowerGridEnvironment) :
  config_ok cfg = true -> init data cfg mode_ = Ok s0 ->
  obs_dim s0 = Np.len (capacities s0) + 7 /\
  num_generators s0 = Np.len (capacities s0).
Proof.
  unfold config_ok, init.
  destruct (cfg_num_generators cfg) as [n|]; [|discriminate].
  destruct (cfg_generator_capacities cfg) as [caps|]; [|discriminate].
  destruct (cfg_generator_costs cfg) as [cs|]; [|discriminate].
  destruct (cfg_max_ramping cfg) as [ramp|]; [|discriminate].
  rewrite !andb_true_iff. intros [[[[[[Hn _] _] _] _] _] _].
  apply Z.eqb_eq in Hn. simpl subscript. cbv iota.
  destruct (Np.zeros n); [|discriminate].
  intros [= <-]. env_simpl. split; lia.
Qed.

Section Consistency.
Variable sin_hour cos_hour : Z -> fnum.
Variable G : Type.
Variable draw : Z -> Z -> G -> Z * G.
Hypothesis draw_ok : draws_in_range draw.

(** [reset] keeps a consistent object consistent and leaves it at a
    position that is not negative. *)
Lemma reset_keeps_shape (seed : option N) (s : PowerGridEnvironment) (g : G) :
  shape_ok s = true -> 0 <= current_step s ->
  shape_ok (fst (snd (reset sin_hour cos_hour G draw seed (s, g)))) = true /\
  0 <= current_step (fst (snd (reset sin_hour cos_hour G draw seed (s, g)))).
Proof.
  intros Hs H0.
  assert (Hre : forall v, 0 <= v ->
            shape_ok (restarted v (seeded seed s)) = true /\
            0 <= current_step (restarted v (seeded seed s))).
  { intros v Hv. split; [|destruct seed; exact Hv].
    apply (shape_ok_transfer s); [now destruct seed | | assumption].
    pose proof (shape_ok_inv s Hs) as (Ho & _).
    destruct seed; unfold restarted, seeded, Np.scale; env_simpl;
      rewrite length_map; lia. }
  destruct (String.eqb (mode s) "train") eqn:Hm.
  - destruct (Z_le_gt_dec (max_steps s - 24) 0) as [Hr|Hr].
    + rewrite reset_train_raises by assumption. cbn [fst snd].
      destruct seed; now split.
    + rewrite reset_train by (assumption || lia). cbn [fst snd].
      apply Hre. apply draw_ok. lia.
  - rewrite reset_eval by assumption. cbn [fst snd]. apply Hre. lia.
Qed.

Lemma reachable_consistent (P : list fnum -> Prop)
    (s0 s : PowerGridEnvironment) :
  shape_ok s0 = true -> 0 <= current_step s0 ->
  reachable sin_hour cos_hour G draw P s0 s ->
  shape_ok s = true /\ 0 <= current_step s.
Proof.
  intros Hs H0. induction 1 as [|s seed g _ [IHs IH0]|s a _ [IHs IH0] _].
  - now split.
  - now apply reset_keeps_shape.
  - destruct (step_keeps_shape sin_hour cos_hour a s IHs) as [Hs' Hc].
    split; [assumption | lia].
Qed.

(** A [reset] that returned hands out the observation of the object it
    leaves, with an empty diagnostics record. *)
Lemma reset_ok_observed (seed : option N) (s : PowerGridEnvironment) (g : G)
    (obs : list fnum) (inf : gmap string fnum) :
  fst (reset sin_hour cos_hour G draw seed (s, g)) = Ok (obs, inf) ->
  inf = ∅ /\
  fst (_get_observation sin_hour cos_hour
         (fst (snd (reset sin_hour cos_hour G draw seed (s, g))))) = Ok obs.
Proof.
  assert (Hob : forall s1, observed sin_hour cos_hour s1 = Ok (obs, inf) ->
            inf = ∅ /\ fst (_get_observation sin_hour cos_hour s1) = Ok obs).
  { intros s1. unfold observed.
    destruct (fst (_get_observation sin_hour cos_hour s1)); [|discriminate].
    intros [= <- <-]. now split. }
  destruct (String.eqb (mode s) "train") eqn:Hm.
  - destruct (Z_le_gt_dec (max_steps s - 24) 0) as [Hr|Hr].
    + rewrite reset_train_raises by assumption. discriminate.
    + rewrite reset_train by (assumption || lia). cbn [fst snd]. apply Hob.
  - rewrite reset_eval by assumption. cbn [fst snd]. apply Hob.
Qed.

End Consistency.

Lemma observation_length (sin_hour cos_hour : Z -> fnum)
    (s : PowerGridEnvironment) (obs : list fnum) :
  0 <= current_step s ->
  fst (_get_observation sin_hour cos_hour s) = Ok obs ->
  length obs = (length (current_output s) + 7)%nat.
Proof.
  intros H0 Hobs.
  destruct (Z_lt_le_dec (current_step s) (Np.len (load_data s))) as [Hin|Hout].
  2:{ rewrite get_observation_raises in Hobs by assumption. discriminate. }
  rewrite get_observation_layout in Hobs by lia.
  destruct (Np.max (capacities s)) as [top|e]; [|discriminate].
  injection Hobs as <-.
  cbn [app length]. rewrite !length_app. unfold Np.div_scalar, forecast_window.
  rewrite !length_map. simpl. lia.
Qed.

(** X2.  In an environment built from a well-formed configuration, with a
    global generator that samples within its range, every observation that
    [reset] or [step] hands out, in any reachable object, has the length
    [obs_dim] announced at construction: one entry for the load, one per
    generator, four of forecast and two of time. *)
Theorem observation_length_is_obs_dim
    (sin_hour cos_hour : Z -> fnum) (G : Type) (draw : Z -> Z -> G -> Z * G)
    (data : list fnum) (cfg : config) (mode_ : string)
    (s0 s : PowerGridEnvironment) :
  draws_in_range draw ->
  config_ok cfg = true ->
  init data cfg mode_ = Ok s0 ->
  reachable sin_hour cos_hour G draw (fun _ => True) s0 s ->
  obs_dim s0 = 1 + num_generators s0 + 4 + 2 /\
  (forall a r s', step sin_hour cos_hour a s = (Ok r, s') ->
     Z.of_nat (length (observation r)) = obs_dim s0) /\
  (forall seed g obs inf,
     fst (reset sin_hour cos_hour G draw seed (s, g)) = Ok (obs, inf) ->
     Z.of_nat (length obs) = obs_dim s0).
Proof.
  intros Hdraw Hcfg Hinit Hreach.
  destruct (init_obs_dim _ _ _ _ Hcfg Hinit) as [Hdim Hnum].
  destruct (init_ok data cfg mode_ Hcfg) as (s0' & E & Hs0 & _ & _ & Hcs0 & _).
  rewrite Hinit in E. injection E as <-.
  destruct (reachable_consistent sin_hour cos_hour G draw Hdraw
              (fun _ => True) s0 s Hs0)
    as [Hs H0]; [lia | assumption |].
  pose proof (reachable_registry _ _ _ _ _ _ _ Hreach) as Hreg.
  destruct (registry_inv _ _ Hreg) as (_ & Hcaps & _).
  pose proof (shape_ok_inv s Hs) as (Ho & _).
  split; [lia|]. split.
  - intros a r s' Hstep.
    destruct (step_ok_anatomy _ _ _ _ _ _ Hstep)
      as (adj & x & inf & c & gp & _ & _ & _ & _ & _ & _ & Hobs).
    pose proof (step_ok_shape _ _ _ _ _ _ Hs Hstep) as Hs'.
    destruct (step_ok_inv _ _ _ _ _ _ Hstep) as (_ & _ & Hcs' & Hreg' & _).
    destruct (registry_inv _ _ Hreg') as (_ & Hcaps' & _).
    pose proof (shape_ok_inv s' Hs') as (Ho' & _).
    assert (H0' : 0 <= current_step s') by lia.
    rewrite (observation_length _ _ _ _ H0' Hobs).
    rewrite Hdim, Ho', Hcaps', Hcaps. unfold Np.len. lia.
  - intros seed g obs inf Hres.
    destruct (reset_ok_observed _ _ _ _ _ _ _ _ _ Hres) as [_ Hobs].
    destruct (reset_keeps_shape sin_hour cos_hour G draw Hdraw seed s g Hs H0)
      as [Hs' H0'].
    pose proof (reset_preserves_registry sin_hour cos_hour G draw seed s g)
      as Hreg'.
    destruct (registry_inv _ _ Hreg') as (_ & Hcaps' & _).
    pose proof (shape_ok_inv _ Hs') as (Ho' & _).
    rewrite (observation_length _ _ _ _ H0' Hobs).
    rewrite Hdim, Ho', Hcaps', Hcaps. unfold Np.len. lia.
Qed.

Lemma observation_length_is_obs_dim_witness :
  exists r s',
    step sin_table cos_table (replicate 5 (Fin 1)) scenario_started
      = (Ok r, s') /\
    Z.of_nat (length (observation r)) = obs_dim scenario_env.
Proof.
  destruct (step sin_table cos_table (replicate 5 (Fin 1)) scenario_started)
    as [[r|e] s'] eqn:E; [|vm_compute in E; discriminate].
  exists r, s'. split; [reflexivity|].
  destruct (observation_length_is_obs_dim sin_table cos_table Z counter_draw
              demand10 (scenario_config None) "test" scenario_env
              scenario_started) as (_ & Hstep & _).
  - apply counter_draw_in_range.
  - reflexivity.
  - reflexivity.
  - apply reach_reset, reach_init.
  - exact (Hstep _ _ _ E).
Defined.

(** X1.  The observation a returning [step] hands out describes the
    position it advanced to, not the one it was scored at: the sample at
    [current_step + 1] over 10000, the new outputs over the largest
    capacity, the forecast window from there over 10000 (positions beyond
    the series repeat the last sample), and the time features of the hour
    [(current_step + 1) mod 24]. *)
Theorem step_observation_layout (sin_hour cos_hour : Z -> fnum)
    (a : list fnum) (s s' : PowerGridEnvironment) (r : step_result) :
  0 <= current_step s ->
  step sin_hour cos_hour a s = (Ok r, s') ->
  exists top,
    Np.max (capacities s) = Ok top /\
    observation r =
      [(sample (load_data s) (current_step s + 1) / Fin 10000)%F]
        ++ Np.div_scalar (current_output s') top
        ++ Np.div_scalar (forecast_window (load_data s) (current_step s + 1))
                         (Fin 10000)
        ++ [sin_hour ((current_step s + 1) mod 24);
            cos_hour ((current_step s + 1) mod 24)].
Proof.
  intros H0 Hstep.
  destruct (step_ok_anatomy _ _ _ _ _ _ Hstep)
    as (adj & x & inf & c & gp & _ & _ & _ & _ & _ & _ & Hobs).
  destruct (step_ok_inv _ _ _ _ _ _ Hstep) as (_ & _ & Hcs & Hreg & _).
  destruct (registry_inv _ _ Hreg) as (Hld & Hcaps & _).
  destruct (Z_lt_le_dec (current_step s') (Np.len (load_data s'))) as [Hin|Hout].
  2:{ rewrite get_observation_raises in Hobs by assumption. discriminate. }
  rewrite get_observation_layout in Hobs by lia.
  rewrite Hcaps, Hld, Hcs in Hobs.
  destruct (Np.max (capacities s)) as [top|e]; [|discriminate].
  exists top. split; [reflexivity|]. now injection Hobs as <-.
Qed.

Lemma step_observation_layout_witness :
  exists r s' top,
    step sin_table cos_table (replicate 5 (Fin 0)) scenario_started = (Ok r, s') /\
    Np.max (capacities scenario_started) = Ok top /\
    observation r =
      [(sample (load_data scenario_started) (0 + 1) / Fin 10000)%F]
        ++ Np.div_scalar (current_output s') top
        ++ Np.div_scalar (forecast_window (load_data scenario_started) (0 + 1))
                         (Fin 10000)
        ++ [sin_table ((0 + 1) mod 24); cos_table ((0 + 1) mod 24)].
Proof.
  destruct (step sin_table cos_table (replicate 5 (Fin 0)) scenario_started)
    as [[r|e] s'] eqn:E; [|vm_compute in E; discriminate].
  destruct (step_observation_layout sin_table cos_table (replicate 5 (Fin 0))
              scenario_started s' r) as (top & Ht & Hobs).
  - vm_compute. discriminate.
  - exact E.
  - exists r, s', top. repeat split; assumption.
Defined.

(* ===================================================================== *)
(** ** Clamping of the action *)
(* ===================================================================== *)

Lemma fclip_unit_idem (x : fnum) :
  fclip (fclip x (Fin (-1)) (Fin 1)) (Fin (-1)) (Fin 1)
  = fclip x (Fin (-1)) (Fin 1).
Proof.
  destruct x as [q| | |]; try reflexivity.
  unfold fclip, fmax, fmin. cbn [fleb].
  destruct (Qle_bool q (-1)) eqn:E1; cbn [fleb]; [reflexivity|].
  destruct (Qle_bool q 1) eqn:E2; repeat (cbn [fleb]; rewrite ?E1, ?E2);
    reflexivity.
Qed.

Lemma clip_unit_idem (a : list fnum) :
  Np.clip (Np.clip a (Fin (-1)) (Fin 1)) (Fin (-1)) (Fin 1)
  = Np.clip a (Fin (-1)) (Fin 1).
Proof.
  unfold Np.clip. rewrite map_map. apply map_ext. intros x.
  apply fclip_unit_idem.
Qed.

(** X3.  [step] sees an action only through its clamp to [[-1, 1]]: an
    action with entries outside the interval, infinite ones included, has
    exactly the result and the effect on the object of its clamped
    version. *)
Theorem step_depends_on_clamped_action (sin_hour cos_hour : Z -> fnum)
    (a : list fnum) (s : PowerGridEnvironment) :
  step sin_hour cos_hour a s
  = step sin_hour cos_hour (Np.clip a (Fin (-1)) (Fin 1)) s.
Proof. unfold step. now rewrite clip_unit_idem. Qed.

(* ===================================================================== *)
(** ** The diagnostics record *)
(* ===================================================================== *)

(** X4.  The diagnostics record of a returning [step] has exactly the seven
    entries load, generation, cost, gap, step_reward, ramping and overload.
    Its load is the demand sample at the position the step started from,
    its generation the sum of the outputs after the clamp, its gap the
    absolute difference of the two, and its step_reward the returned
    reward. *)
Theorem step_diagnostics (sin_hour cos_hour : Z -> fnum)
    (a : list fnum) (s s' : PowerGridEnvironment) (r : step_result) :
  step sin_hour cos_hour a s = (Ok r, s') ->
  exists load,
    Np.index (load_data s) (current_step s) = Ok load /\
    dom (info r) = ({[ "load"; "generation"; "cost"; "gap"; "step_reward";
                       "ramping"; "overload" ]} : gset string) /\
    info r !! "load" = Some load /\
    info r !! "generation" = Some (Np.sum (current_output s')) /\
    info r !! "gap" = Some (fabs (Np.sum (current_output s') - load)) /\
    info r !! "step_reward" = Some (reward r).
Proof.
  intros Hstep.
  destruct (step_ok_anatomy _ _ _ _ _ _ Hstep)
    as (adj & x & inf & c & gp & _ & Hx & Hrw & Kc & Kg & Hinfo & _).
  destruct (calculate_reward_ok_inv _ _ _ _ _ _ Hrw)
    as (weighted & ov & _ & _ & Hinf).
  exists x. split; [assumption|]. rewrite Hinfo.
  revert Kc Kg. rewrite Hinf.
  generalize (Np.sum weighted) (Np.sum (map fabs adj)) (reward r)
             (Np.sum (current_output s')) (fabs (Np.sum (current_output s') - x)).
  intros cost ramping rw generation gap Kc Kg.
  change (getitem _ "cost") with (Ok cost) in Kc.
  change (getitem _ "gap") with (Ok gap) in Kg.
  injection Kc as <-. injection Kg as <-.
  split; [|repeat split; reflexivity].
  rewrite dom_union_L, !dom_insert_L, !dom_singleton_L. set_solver.
Qed.

Lemma step_diagnostics_witness :
  exists r s' load,
    step sin_table cos_table (replicate 5 (Fin 1)) scenario_started = (Ok r, s') /\
    info r !! "load" = Some load /\
    info r !! "step_reward" = Some (reward r).
Proof.
  destruct (step sin_table cos_table (replicate 5 (Fin 1)) scenario_started)
    as [[r|e] s'] eqn:E; [|vm_compute in E; discriminate].
  destruct (step_diagnostics sin_table cos_table (replicate 5 (Fin 1))
              scenario_started s' r E) as (load & _ & _ & Hl & _ & _ & Hr).
  exists r, s', load. repeat split; assumption.
Defined.

(* ===================================================================== *)
(** ** What the methods never change, and what a failure leaves behind *)
(* ===================================================================== *)

(** X5.  Neither [reset] nor [step], returning or raising, ever changes
    what the constructor fixed: the demand series, the mode, the number of
    generators, capacities, costs, ramp limit, reward weights, observation
    dimension and horizon are those of the freshly built object in every
    reachable object. *)
Theorem registry_is_never_mutated
    (sin_hour cos_hour : Z -> fnum) (G : Type) (draw : Z -> Z -> G -> Z * G)
    (s0 s : PowerGridEnvironment) :
  reachable sin_hour cos_hour G draw (fun _ => True) s0 s ->
  load_data s = load_data s0 /\ mode s = mode s0 /\
  num_generators s = num_generators s0 /\
  capacities s = capacities s0 /\ costs s = costs s0 /\
  max_ramping s = max_ramping s0 /\
  reward_weights s = reward_weights s0 /\
  obs_dim s = obs_dim s0 /\ max_steps s = max_steps s0.
Proof.
  intros Hreach. apply reachable_registry in Hreach.
  unfold registry in Hreach.
  injection Hreach as -> -> -> -> -> -> -> -> ->. repeat split.
Qed.

Lemma registry_is_never_mutated_witness :
  load_data (snd (step sin_table cos_table [NaN] scenario_started))
    = load_data scenario_env /\
  capacities (snd (step sin_table cos_table [NaN] scenario_started))
    = capacities scenario_env.
Proof.
  destruct (registry_is_never_mutated sin_table cos_table Z counter_draw
              scenario_env
              (snd (step sin_table cos_table [NaN] scenario_started)))
    as (H1 & _ & _ & H2 & _).
  - apply reach_step; [apply reach_reset, reach_init | exact I].
  - split; assumption.
Defined.

Section Failures.
Variable sin_hour cos_hour : Z -> fnum.

(** X6.  A [step] at or beyond the last demand sample raises [IndexError],
    and not atomically: the outputs have already been moved and clamped,
    and when the last sample itself was still there the position has
    already advanced past the series, so that every later [step] raises as
    well until the next [reset]. *)
Theorem step_past_the_series (a : list fnum) (s : PowerGridEnvironment) :
  shape_ok s = true -> action_fits a s ->
  0 <= current_step s -> Np.len (load_data s) <= current_step s + 1 ->
  let s' := snd (step sin_hour cos_hour a s) in
  fst (step sin_hour cos_hour a s) = Raise IndexError /\
  current_step s' =
    (if current_step s <? Np.len (load_data s)
     then current_step s + 1 else current_step s) /\
  Np.len (load_data s') <= current_step s' /\
  exists adj moved,
    Np.mul (Np.clip a (Fin (-1)) (Fin 1)) (max_ramping s) = Ok adj /\
    Np.iadd (current_output s) adj = Ok moved /\
    Np.clip_upto moved (Fin 0) (capacities s) = Ok (current_output s').
Proof.
  intros Hs Ha H0 H1. cbv zeta.
  destruct (apply_action_ok a s Hs Ha) as (adj & moved & Hmul & Hadd & Hlen).
  pose proof (shape_ok_inv s Hs) as (Ho & Hk & Hc & Hr & Hw & Hm).
  assert (Hclip : Np.clip_upto moved (Fin 0) (capacities s)
                  = Ok (zip_with (fun v h => fclip v (Fin 0) h) moved (capacities s))).
  { unfold Np.clip_upto. apply broadcast2_same. congruence. }
  unfold step. rewrite bind_get; cbv beta.
  rewrite Hmul, bind_lift_ok, Hadd, bind_lift_ok, bind_modify.
  env_simpl. rewrite Hclip.
  rewrite bind_lift_ok, bind_modify, bind_get. env_simpl.
  destruct (Z.ltb_spec (current_step s) (Np.len (load_data s))) as [Hin|Hout].
  2:{ rewrite index_raises, bind_lift_raise by assumption. env_simpl.
      split; [reflexivity|]. split; [reflexivity|]. split; [lia|].
      exists adj, moved. repeat split; assumption. }
  destruct (index_ok (load_data s) (current_step s)) as (x & Hx & _); [lia|].
  rewrite Hx, bind_lift_ok.
  set (clamped := zip_with _ moved (capacities s)) in *.
  set (s2 := set_current_output clamped _).
  assert (Hs2 : shape_ok s2 = true).
  { apply (shape_ok_transfer s); [reflexivity | | assumption].
    subst s2 clamped; env_simpl. rewrite length_zip_with. lia. }
  destruct (calculate_reward_returns unrounded x (Np.sum clamped) adj s2 Hs2)
    as (rw & inf & Hrw & Kc & Kg).
  rewrite (bind_returns _ _ _ _ _ Hrw). cbv beta iota.
  rewrite bind_modify, bind_get.
  set (s3 := set_current_step _ s2).
  rewrite (bind_raises _ _ _ s3 IndexError).
  2:{ apply get_observation_raises. subst s3 s2; env_simpl. lia. }
  subst s3 s2; env_simpl.
  split; [reflexivity|]. split; [reflexivity|]. split; [lia|].
  exists adj, moved. repeat split; assumption.
Qed.

End Failures.

Lemma step_past_the_series_witness :
  fst (step sin_table cos_table (replicate 5 (Fin 1)) scenario_exhausted)
    = Raise IndexError /\
  current_step (snd (step sin_table cos_table (replicate 5 (Fin 1))
                          scenario_exhausted)) = 10.
Proof.
  destruct (step_past_the_series sin_table cos_table (replicate 5 (Fin 1))
              scenario_exhausted) as (H1 & H2 & _).
  - vm_compute. reflexivity.
  - left. reflexivity.
  - vm_compute. discriminate.
  - vm_compute. discriminate.
  - split; [exact H1 | exact H2].
Defined.

(** An action of two entries for five generators is refused. *)
Lemma step_rejects_other_lengths_witness :
  step sin_table cos_table [Fin 1; Fin 1] scenario_started
  = (Raise ValueError, scenario_started).
Proof.
  apply (step_rejects_other_lengths sin_table cos_table [Fin 1; Fin 1]
           scenario_started).
  - vm_compute. reflexivity.
  - vm_compute. discriminate.
  - discriminate.
Defined.

(* ===================================================================== *)
(** ** The in-place sum *)
(* ===================================================================== *)

(** Entry [i] of the in-place sum is entry [i] of the left operand plus
    some entry of the right one. *)
Lemma iadd_lookup (a b r : list fnum) (i : nat) (x : fnum) :
  Np.iadd a b = Ok r -> a !! i = Some x ->
  exists y, y ∈ b /\ r !! i = Some (x + y)%F.
Proof.
  unfold Np.iadd. intros Hr Hx.
  destruct (Nat.eq_dec (length a) (length b)) as [E|E].
  - rewrite broadcast2_same in Hr by assumption.
    destruct (Nat.eqb_spec (length (zip_with fadd a b)) (length a));
      [|discriminate].
    injection Hr as <-.
    destruct (b !! i) as [y|] eqn:Hy.
    + exists y. split; [eapply list_elem_of_lookup_2; eauto|].
      rewrite lookup_zip_with, Hx. simpl. now rewrite Hy.
    + apply lookup_ge_None in Hy. apply lookup_lt_Some in Hx. lia.
  - destruct b as [|y [|y' b]].
    + destruct a as [|x0 [|x1 a]]; try discriminate; simpl in *; congruence.
    + rewrite broadcast2_stretch_r in Hr.
      destruct (Nat.eqb_spec (length (map (fun x => fadd x y) a)) (length a));
        [|discriminate].
      injection Hr as <-. exists y. split; [apply list_elem_of_here|].
      change (map (fun x0 => fadd x0 y) a) with ((fun x0 => fadd x0 y) <$> a).
      now rewrite list_lookup_fmap, Hx.
    + destruct a as [|x0 [|x1 a]].
      * discriminate.
      * rewrite broadcast2_stretch_l in Hr. simpl in Hr. discriminate.
      * rewrite broadcast2_mismatch in Hr by (simpl in *; lia). discriminate.
Qed.

(* ===================================================================== *)
(** ** The greedy baseline *)
(* ===================================================================== *)

Lemma py_index_at {A} (l : list A) (i : Z) (x : A) :
  0 <= i -> l !! Z.to_nat i = Some x -> Py.index l i = Ok x.
Proof.
  intros Hi Hx. unfold Py.index.
  destruct (Z.ltb_spec i 0) as [|_]; [lia|].
  destruct (Z.ltb_spec i 0) as [|_]; [lia|]. now rewrite Hx.
Qed.

Lemma py_index_from_end {A} (l : list A) (i : Z) (x : A) :
  i < 0 -> 0 <= i + Z.of_nat (length l) ->
  l !! Z.to_nat (i + Z.of_nat (length l)) = Some x -> Py.index l i = Ok x.
Proof.
  intros Hi Hj Hx. unfold Py.index.
  destruct (Z.ltb_spec i 0) as [_|]; [|lia].
  destruct (Z.ltb_spec (i + Z.of_nat (length l)) 0) as [|_]; [lia|].
  now rewrite Hx.
Qed.

Lemma py_index_raises {A} (l : list A) (i : Z) :
  Z.of_nat (length l) <= i -> Py.index l i = @Raise A IndexError.
Proof.
  intros Hi. unfold Py.index.
  destruct (Z.ltb_spec i 0) as [|_]; [lia|].
  destruct (Z.ltb_spec i 0) as [|_]; [lia|].
  destruct (l !! Z.to_nat i) as [x|] eqn:E; [|reflexivity].
  apply lookup_lt_Some in E. lia.
Qed.

Lemma py_setitem_at {A} (l : list A) (i : Z) (v : A) :
  0 <= i < Z.of_nat (length l) ->
  Py.setitem l i v = Ok (<[Z.to_nat i := v]> l).
Proof.
  intros Hi. unfold Py.setitem.
  destruct (Z.ltb_spec i 0) as [|_]; [lia|].
  destruct (Z.ltb_spec i 0) as [|_]; [lia|].
  destruct (Z.leb_spec (Z.of_nat (length l)) i) as [|_]; [lia|]. reflexivity.
Qed.

Lemma sort_le_refl (x : fnum) : sort_le x x = true.
Proof.
  destruct x as [q| | |]; try reflexivity.
  unfold sort_le. simpl. apply Qle_bool_iff, Qle_refl.
Qed.

Lemma StronglySorted_lookup {A} (R : A -> A -> Prop) (l : list A)
    (i j : nat) (x y : A) :
  StronglySorted R l -> (i < j)%nat ->
  l !! i = Some x -> l !! j = Some y -> R x y.
Proof.
  intros Hs. revert i j. induction Hs as [|z l Hs IH Hall]; intros i j Hij Hx Hy.
  - rewrite lookup_nil in Hx. discriminate.
  - destruct j as [|j]; [lia|]. simpl in Hy.
    destruct i as [|i].
    + simpl in Hx. injection Hx as <-.
      eapply Forall_forall; [exact Hall|]. eapply list_elem_of_lookup_2; eauto.
    + simpl in Hx. eapply (IH i j); eauto. lia.
Qed.

(** What an argsort result is made of. *)
Lemma argsorts_facts (c : list fnum) (idx : list Z) :
  argsorts c idx ->
  length idx = length c /\ NoDup idx /\
  (forall k, k ∈ idx <-> 0 <= k < Np.len c).
Proof.
  intros [Hp _]. split; [|split].
  - rewrite Hp, length_fmap, length_seq. reflexivity.
  - rewrite Hp. apply NoDup_fmap_2; [apply Nat2Z.inj'|apply NoDup_seq].
  - intros k. rewrite Hp, list_elem_of_fmap. unfold Np.len. split.
    + intros (n & -> & Hn). apply elem_of_seq in Hn. lia.
    + intros Hk. exists (Z.to_nat k). split; [lia|].
      apply elem_of_seq. lia.
Qed.

Section GreedyFacts.
Variable argsort : list fnum -> list Z.

(** With at least four generators the four assignments hit four different
    entries. *)
Lemma greedy_select_action_spec (p : GreedyPolicy) (obs : list fnum) :
  gp_num_generators p = Np.len (gp_costs p) ->
  4 <= gp_num_generators p ->
  argsorts (gp_costs p) (argsort (gp_costs p)) ->
  exists (a : list fnum) (i0 i1 i2 i3 : nat),
    greedy_select_action argsort p obs = Ok a /\
    length a = length (gp_costs p) /\
    argsort (gp_costs p) !! 0%nat = Some (Z.of_nat i0) /\
    argsort (gp_costs p) !! 1%nat = Some (Z.of_nat i1) /\
    argsort (gp_costs p) !! (length (gp_costs p) - 1)%nat = Some (Z.of_nat i2) /\
    argsort (gp_costs p) !! (length (gp_costs p) - 2)%nat = Some (Z.of_nat i3) /\
    a !! i0 = Some (Fin 1) /\ a !! i1 = Some (Fin (1 # 2)) /\
    a !! i2 = Some (Fin (-1)) /\ a !! i3 = Some (Fin (- (1 # 2))) /\
    (forall k, k <> i0 -> k <> i1 -> k <> i2 -> k <> i3 ->
               (k < length (gp_costs p))%nat -> a !! k = Some (Fin 0)).
Proof.
  intros Hn H4 Hs. set (c := gp_costs p) in *. set (idx := argsort c) in *.
  destruct (argsorts_facts c idx Hs) as (Hlen & Hnd & Hmem).
  unfold Np.len in *.
  assert (Hget : forall j, (j < length c)%nat ->
            exists k, idx !! j = Some (Z.of_nat k) /\ (k < length c)%nat).
  { intros j Hj. destruct (idx !! j) as [z|] eqn:E.
    - assert (Hz : 0 <= z < Z.of_nat (length c)).
      { apply Hmem. eapply list_elem_of_lookup_2; eauto. }
      exists (Z.to_nat z). split; [f_equal; lia | lia].
    - apply lookup_ge_None in E. lia. }
  destruct (Hget 0%nat) as (i0 & E0 & R0); [lia|].
  destruct (Hget 1%nat) as (i1 & E1 & R1); [lia|].
  destruct (Hget (length c - 1)%nat) as (i2 & E2 & R2); [lia|].
  destruct (Hget (length c - 2)%nat) as (i3 & E3 & R3); [lia|].
  assert (Hdiff : forall j j' k k', idx !! j = Some (Z.of_nat k) ->
            idx !! j' = Some (Z.of_nat k') -> j <> j' -> k <> k').
  { intros j j' k k' Hj Hj' Hne ->. apply Hne.
    eapply NoDup_lookup; eauto. }
  pose proof (Hdiff _ _ _ _ E0 E1 ltac:(lia)) as D01.
  pose proof (Hdiff _ _ _ _ E0 E2 ltac:(lia)) as D02.
  pose proof (Hdiff _ _ _ _ E0 E3 ltac:(lia)) as D03.
  pose proof (Hdiff _ _ _ _ E1 E2 ltac:(lia)) as D12.
  pose proof (Hdiff _ _ _ _ E1 E3 ltac:(lia)) as D13.
  pose proof (Hdiff _ _ _ _ E2 E3 ltac:(lia)) as D23.
  exists (<[i3 := Fin (- (1 # 2))]>
            (<[i2 := Fin (-1)]>
               (<[i1 := Fin (1 # 2)]>
                  (<[i0 := Fin 1]> (replicate (length c) (Fin 0)))))),
    i0, i1, i2, i3.
  split.
  { unfold greedy_select_action. fold c idx. unfold Np.zeros.
    destruct (Z.ltb_spec (gp_num_generators p) 0) as [|_]; [lia|].
    rewrite Hn, Nat2Z.id.
    rewrite (py_index_at idx 0 (Z.of_nat i0)) by (assumption || lia).
    rewrite py_setitem_at by (rewrite length_replicate; lia).
    rewrite (py_index_at idx 1 (Z.of_nat i1)) by (assumption || lia).
    rewrite py_setitem_at by (rewrite length_insert, length_replicate; lia).
    rewrite (py_index_from_end idx (-1) (Z.of_nat i2));
      [|lia|lia|rewrite Hlen; replace (Z.to_nat (-1 + Z.of_nat (length c)))
                  with (length c - 1)%nat by lia; assumption].
    rewrite py_setitem_at by (rewrite !length_insert, length_replicate; lia).
    rewrite (py_index_from_end idx (-2) (Z.of_nat i3));
      [|lia|lia|rewrite Hlen; replace (Z.to_nat (-2 + Z.of_nat (length c)))
                  with (length c - 2)%nat by lia; assumption].
    rewrite py_setitem_at by (rewrite !length_insert, length_replicate; lia).
    rewrite !Nat2Z.id. reflexivity. }
  split; [now rewrite !length_insert, length_replicate|].
  do 4 (split; [assumption|]).
  split; [rewrite !list_lookup_insert_ne by congruence;
          apply list_lookup_insert_eq; rewrite length_replicate; lia|].
  split; [rewrite !list_lookup_insert_ne by congruence;
          apply list_lookup_insert_eq;
          rewrite !length_insert, length_replicate; lia|].
  split; [rewrite !list_lookup_insert_ne by congruence;
          apply list_lookup_insert_eq;
          rewrite !length_insert, length_replicate; lia|].
  split; [apply list_lookup_insert_eq;
          rewrite !length_insert, length_replicate; lia|].
  intros k K0 K1 K2 K3 Hk.
  rewrite !list_lookup_insert_ne by congruence.
  now apply lookup_replicate_2.
Qed.

End GreedyFacts.

Lemma map_fixed {A} (f : A -> A) (l : list A) :
  Forall (fun x => f x = x) l -> map f l = l.
Proof. induction 1 as [|x l Hx _ IH]; simpl; congruence. Qed.

(** X9.  With one cost per generator and at least four generators, for
    whatever order [np.argsort] gives to equal costs, the greedy policy
    returns an action of one entry per generator that raises a generator
    of least cost by 1.0 and lowers a generator of greatest cost by 1.0;
    every entry is one of 1, 0.5, 0, -0.5 and -1, so the clamp of the
    environment leaves the action as it is. *)
Theorem greedy_raises_cheapest_lowers_dearest
    (argsort : list fnum -> list Z) (p : GreedyPolicy) (obs : list fnum) :
  gp_num_generators p = Np.len (gp_costs p) ->
  4 <= gp_num_generators p ->
  argsorts (gp_costs p) (argsort (gp_costs p)) ->
  exists (a : list fnum) (cheapest dearest : nat),
    greedy_select_action argsort p obs = Ok a /\
    length a = length (gp_costs p) /\
    a !! cheapest = Some (Fin 1) /\
    a !! dearest = Some (Fin (-1)) /\
    (forall k, (k < length (gp_costs p))%nat ->
       sort_le (sample (gp_costs p) (Z.of_nat cheapest))
               (sample (gp_costs p) (Z.of_nat k)) = true /\
       sort_le (sample (gp_costs p) (Z.of_nat k))
               (sample (gp_costs p) (Z.of_nat dearest)) = true) /\
    Forall (fun v => v ∈ greedy_levels) a /\
    Np.clip a (Fin (-1)) (Fin 1) = a.
Proof.
  intros Hn H4 Hs.
  destruct (greedy_select_action_spec argsort p obs Hn H4 Hs)
    as (a & i0 & i1 & i2 & i3 & Ha & Hlen & E0 & E1 & E2 & E3
        & A0 & A1 & A2 & A3 & Arest).
  destruct (argsorts_facts _ _ Hs) as (Hlidx & Hnd & Hmem).
  destruct Hs as [_ Hsorted].
  assert (Hlev : Forall (fun v => v ∈ greedy_levels) a).
  { apply Forall_lookup. intros k x Hk.
    assert (Hkl : (k < length (gp_costs p))%nat)
      by (rewrite <- Hlen; eapply lookup_lt_Some; eauto).
    destruct (Nat.eq_dec k i0) as [->|N0];
      [rewrite A0 in Hk; injection Hk as <-; unfold greedy_levels; repeat constructor|].
    destruct (Nat.eq_dec k i1) as [->|N1];
      [rewrite A1 in Hk; injection Hk as <-; unfold greedy_levels; repeat constructor|].
    destruct (Nat.eq_dec k i2) as [->|N2];
      [rewrite A2 in Hk; injection Hk as <-; unfold greedy_levels; repeat constructor|].
    destruct (Nat.eq_dec k i3) as [->|N3];
      [rewrite A3 in Hk; injection Hk as <-; unfold greedy_levels; repeat constructor|].
    rewrite Arest in Hk by assumption. injection Hk as <-.
    unfold greedy_levels; repeat constructor. }
  exists a, i0, i2. do 4 (split; [assumption|]).
  split; [|split; [assumption|]].
  - intros k Hk.
    assert (Hin : Z.of_nat k ∈ argsort (gp_costs p))
      by (apply Hmem; unfold Np.len; lia).
    apply list_elem_of_lookup in Hin as (j & Hj).
    assert (Hjl : (j < length (gp_costs p))%nat)
      by (rewrite <- Hlidx; eapply lookup_lt_Some; eauto).
    split.
    + destruct j as [|j].
      * rewrite E0 in Hj. injection Hj as Hj. rewrite Hj. apply sort_le_refl.
      * assert (Hlt : (0 < S j)%nat) by lia.
        exact (StronglySorted_lookup _ _ _ _ _ _ Hsorted Hlt E0 Hj).
    + destruct (Nat.eq_dec j (length (gp_costs p) - 1)%nat) as [->|Hne].
      * rewrite E2 in Hj. injection Hj as Hj. rewrite Hj. apply sort_le_refl.
      * assert (Hlt : (j < length (gp_costs p) - 1)%nat) by lia.
        exact (StronglySorted_lookup _ _ _ _ _ _ Hsorted Hlt Hj E2).
  - apply map_fixed. eapply Forall_impl; [exact Hlev|].
    intros v Hv. unfold greedy_levels in Hv.
    repeat (apply elem_of_cons in Hv as [->|Hv]; [reflexivity|]).
    now apply elem_of_nil in Hv.
Qed.

Lemma default_costs_argsorted :
  argsorts (gp_costs default_greedy)
           (insertion_argsort (gp_costs default_greedy)).
Proof.
  split.
  - vm_compute. apply (bool_decide_unpack _). vm_compute. reflexivity.
  - vm_compute. repeat constructor.
Qed.

Lemma greedy_raises_cheapest_lowers_dearest_witness :
  exists (a : list fnum),
    greedy_select_action insertion_argsort default_greedy [] = Ok a /\
    length a = 5%nat /\ Np.clip a (Fin (-1)) (Fin 1) = a.
Proof.
  destruct (greedy_raises_cheapest_lowers_dearest insertion_argsort
              default_greedy [])
    as (a & c & d & Ha & Hl & _ & _ & _ & _ & Hc).
  - reflexivity.
  - vm_compute. discriminate.
  - apply default_costs_argsorted.
  - exists a. repeat split; assumption.
Defined.

Lemma short_argsort (c : list fnum) (idx : list Z) :
  argsorts c idx ->
  (length c = 0%nat -> idx = []) /\
  (length c = 1%nat -> idx = [0]) /\
  (length c = 2%nat -> idx = [0; 1] \/ idx = [1; 0]).
Proof.
  intros Hs. destruct (argsorts_facts c idx Hs) as (Hlen & Hnd & Hmem).
  unfold Np.len in Hmem. repeat split; intros Hc; rewrite Hc in *.
  - destruct idx; [reflexivity | discriminate].
  - destruct idx as [|x [|y idx]]; try discriminate.
    assert (Hx : 0 <= x < 1) by (apply Hmem; repeat constructor).
    f_equal. lia.
  - destruct idx as [|x [|y [|z idx]]]; try discriminate.
    assert (Hx : 0 <= x < 2) by (apply Hmem; repeat constructor).
    assert (Hy : 0 <= y < 2) by (apply Hmem; repeat constructor).
    assert (Hne : x <> y).
    { intros ->. apply NoDup_cons in Hnd as [Hnd _]. apply Hnd.
      repeat constructor. }
    assert (Hc2 : (x = 0 /\ y = 1) \/ (x = 1 /\ y = 0)) by lia.
    destruct Hc2 as [[-> ->] | [-> ->]]; [now left | now right].
Qed.

(** X10.  With fewer than two generators the greedy policy cannot select an
    action: reading the second entry of the sorted positions raises
    [IndexError]. *)
Theorem greedy_needs_two_generators
    (argsort : list fnum -> list Z) (p : GreedyPolicy) (obs : list fnum) :
  gp_num_generators p = Np.len (gp_costs p) ->
  (length (gp_costs p) < 2)%nat ->
  argsorts (gp_costs p) (argsort (gp_costs p)) ->
  greedy_select_action argsort p obs = Raise IndexError.
Proof.
  intros Hn Hlt Hs.
  destruct (short_argsort _ _ Hs) as (H0 & H1 & _).
  unfold greedy_select_action, Np.len in *. rewrite Hn.
  destruct (length (gp_costs p)) as [|[|n]] eqn:E; [| |lia].
  - rewrite H0 by reflexivity. reflexivity.
  - rewrite H1 by reflexivity. reflexivity.
Qed.

Lemma greedy_needs_two_generators_witness :
  greedy_select_action insertion_argsort
    {| gp_num_generators := 1; gp_costs := [Fin 10] |} [] = Raise IndexError.
Proof.
  apply (greedy_needs_two_generators insertion_argsort
           {| gp_num_generators := 1; gp_costs := [Fin 10] |} []).
  - reflexivity.
  - simpl. lia.
  - split; [reflexivity | repeat constructor].
Defined.

(** X11.  With exactly two generators the later assignments of the greedy
    policy overwrite the earlier ones: the action it returns lowers both
    generators, the cheaper by 0.5 and the dearer by 1.0. *)
Theorem greedy_lowers_both_of_two
    (argsort : list fnum -> list Z) (p : GreedyPolicy) (obs : list fnum) :
  gp_num_generators p = 2 ->
  length (gp_costs p) = 2%nat ->
  argsorts (gp_costs p) (argsort (gp_costs p)) ->
  exists (a : list fnum) (cheaper dearer : Z),
    argsort (gp_costs p) = [cheaper; dearer] /\
    greedy_select_action argsort p obs = Ok a /\
    Py.index a cheaper = Ok (Fin (- (1 # 2))) /\
    Py.index a dearer = Ok (Fin (-1)) /\
    Forall (fun v => fltb v (Fin 0) = true) a.
Proof.
  intros Hn Hlen Hs.
  destruct (short_argsort _ _ Hs) as (_ & _ & H2).
  unfold greedy_select_action. rewrite Hn.
  destruct (H2 Hlen) as [E|E]; rewrite E.
  - exists [Fin (- (1 # 2)); Fin (-1)], 0, 1.
    repeat split; repeat constructor.
  - exists [Fin (-1); Fin (- (1 # 2))], 1, 0.
    repeat split; repeat constructor.
Qed.

Lemma greedy_lowers_both_of_two_witness :
  exists a,
    greedy_select_action insertion_argsort
      {| gp_num_generators := 2; gp_costs := [Fin 30; Fin 10] |} [] = Ok a /\
    Forall (fun v => fltb v (Fin 0) = true) a.
Proof.
  destruct (greedy_lowers_both_of_two insertion_argsort
              {| gp_num_generators := 2; gp_costs := [Fin 30; Fin 10] |} [])
    as (a & c & d & _ & Ha & _ & _ & Hall).
  - reflexivity.
  - reflexivity.
  - split; [vm_compute; apply (bool_decide_unpack _); vm_compute; reflexivity
           | vm_compute; repeat constructor].
  - exists a. split; assumption.
Defined.

(* ===================================================================== *)
(** ** The rule-based baseline: the zero action *)
(* ===================================================================== *)

Lemma feq_refl (x : fnum) : feq x x.
Proof.
  destruct x as [q| | |]; unfold feq; simpl; try reflexivity.
  apply Qeq_bool_iff, Qeq_refl.
Qed.

(** Adding nothing and clamping an output that is within bounds gives the
    output back. *)
Lemma clip_noop (o c : fnum) (z : Q) :
  fle (Fin 0) o -> fle o c -> (z == 0)%Q ->
  feq (fclip (o + Fin z) (Fin 0) c) o.
Proof.
  unfold fle, feq, fclip, fmax, fmin.
  destruct o as [q| | |], c as [cq| | |]; cbn [fleb fadd feqb];
    try discriminate; intros H0 H1 Hz; try reflexivity.
  - destruct (Qle_bool (q + z) 0) eqn:E1; cbn [fleb].
    + destruct (Qle_bool 0 cq) eqn:E2; cbn [feqb]; q_reflect;
        apply Qeq_bool_iff; lra.
    + destruct (Qle_bool (q + z) cq) eqn:E2; cbn [feqb]; q_reflect;
        apply Qeq_bool_iff; lra.
  - destruct (Qle_bool (q + z) 0) eqn:E1; cbn [fleb feqb]; q_reflect;
      apply Qeq_bool_iff; lra.
Qed.

Lemma zero_adjustments (n : nat) (ramp : Np.array_like) (adj : list fnum) :
  ramp_finite ramp = true ->
  Np.mul (Np.clip (replicate n (Fin 0)) (Fin (-1)) (Fin 1)) ramp = Ok adj ->
  Forall (fun y => exists z, y = Fin z /\ (z == 0)%Q) adj.
Proof.
  intros Hr.
  assert (Hz : Forall (fun v => v = Fin 0)
                      (Np.clip (replicate n (Fin 0)) (Fin (-1)) (Fin 1))).
  { unfold Np.clip. rewrite Forall_map. apply Forall_replicate. reflexivity. }
  assert (Hmul : forall v x, v = Fin 0 -> isfinite x = true ->
            exists z, (v * x)%F = Fin z /\ (z == 0)%Q).
  { intros v x -> Hx. destruct x as [q| | |]; try discriminate.
    exists (0 * q)%Q. split; [reflexivity | ring]. }
  destruct ramp as [x|l]; simpl in *.
  - intros [= <-]. rewrite Forall_map.
    eapply Forall_impl; [exact Hz|]. simpl. intros v Hv. now apply Hmul.
  - intros Hb. eapply broadcast2_Forall; [exact Hmul | exact Hz | | exact Hb].
    now apply ramp_finite_Forall.
Qed.

(** X12.  The rule-based policy answers every observation with the zero
    action, and on a consistent environment with as many generators as the
    policy, outputs within bounds and finite ramp limits, [step] on that
    action leaves every output at its value, whether it returns or runs off
    the demand series. *)
Theorem rule_based_policy_holds_outputs (sin_hour cos_hour : Z -> fnum)
    (p : RuleBasedPolicy) (obs : list fnum) (s : PowerGridEnvironment) :
  rb_num_generators p = Np.len (capacities s) ->
  shape_ok s = true -> in_bounds s -> ramp_finite (max_ramping s) = true ->
  exists a,
    rule_based_select_action p obs = Ok a /\
    a = replicate (length (capacities s)) (Fin 0) /\
    arr_eq (current_output (snd (step sin_hour cos_hour a s)))
           (current_output s).
Proof.
  intros Hn Hs Hb Hr.
  exists (replicate (length (capacities s)) (Fin 0)).
  split.
  { unfold rule_based_select_action, Np.zeros, Np.len in *. rewrite Hn.
    destruct (Z.ltb_spec (Z.of_nat (length (capacities s))) 0) as [|_]; [lia|].
    now rewrite Nat2Z.id. }
  split; [reflexivity|].
  set (a := replicate _ _).
  assert (Ha : action_fits a s) by (left; subst a; apply length_replicate).
  destruct (apply_action_ok a s Hs Ha) as (adj & moved & Hmul & Hadd & Hlen).
  pose proof (step_output sin_hour cos_hour a s) as Hout. cbv zeta in Hout.
  rewrite Hmul, Hadd in Hout.
  pose proof (Forall2_length _ _ _ Hb) as Hlc.
  unfold Np.clip_upto in Hout. rewrite broadcast2_same in Hout by congruence.
  rewrite Hout.
  pose proof (zero_adjustments _ _ _ Hr Hmul) as Hzero.
  apply Forall2_same_length_lookup. split.
  { rewrite length_zip_with. lia. }
  intros i o' o Ho' Ho.
  destruct (iadd_lookup _ _ _ i o Hadd Ho) as (y & Hy & Hm).
  rewrite lookup_zip_with, Hm in Ho'. simpl in Ho'.
  destruct (capacities s !! i) as [c|] eqn:Hc; [|discriminate].
  simpl in Ho'. injection Ho' as <-.
  destruct (Forall2_lookup_lr _ _ _ _ _ _ Hb Ho Hc) as [B0 B1].
  destruct (proj1 (Forall_forall _ _) Hzero y Hy) as (z & -> & Hz).
  now apply clip_noop.
Qed.

Lemma rule_based_policy_holds_outputs_witness :
  exists a,
    rule_based_select_action {| rb_num_generators := 5 |} [] = Ok a /\
    arr_eq (current_output (snd (step sin_table cos_table a scenario_started)))
           (current_output scenario_started).
Proof.
  destruct (rule_based_policy_holds_outputs sin_table cos_table
              {| rb_num_generators := 5 |} [] scenario_started)
    as (a & Ha & _ & Heq).
  - reflexivity.
  - vm_compute. reflexivity.
  - unfold in_bounds. vm_compute. repeat constructor.
  - reflexivity.
  - exists a. split; assumption.
Defined.

(* ===================================================================== *)
(** ** A NaN output is permanent *)
(* ===================================================================== *)

(** X13.  Once an output of a consistent object is NaN, no [step] repairs
    it: for every action, whether [step] returns or raises, that output is
    still NaN afterwards. *)
Theorem nan_output_is_permanent (sin_hour cos_hour : Z -> fnum)
    (a : list fnum) (s : PowerGridEnvironment) (i : nat) :
  shape_ok s = true ->
  current_output s !! i = Some NaN ->
  current_output (snd (step sin_hour cos_hour a s)) !! i = Some NaN.
Proof.
  intros Hs Hi. pose proof (shape_ok_inv s Hs) as (Ho & _).
  assert (Hmoved : forall adj moved,
            Np.iadd (current_output s) adj = Ok moved -> moved !! i = Some NaN).
  { intros adj moved Hadd.
    destruct (iadd_lookup _ _ _ i NaN Hadd Hi) as (y & _ & Hm). exact Hm. }
  assert (Hclamped : forall moved clamped,
            moved !! i = Some NaN -> length moved = length (current_output s) ->
            Np.clip_upto moved (Fin 0) (capacities s) = Ok clamped ->
            clamped !! i = Some NaN).
  { intros moved clamped Hm Hl Hc. unfold Np.clip_upto in Hc.
    rewrite broadcast2_same in Hc by congruence. injection Hc as <-.
    rewrite lookup_zip_with, Hm. simpl.
    destruct (capacities s !! i) as [c|] eqn:E; [reflexivity|].
    apply lookup_ge_None in E. apply lookup_lt_Some in Hi. lia. }
  destruct (step_state_cases sin_hour cos_hour a s)
    as [-> | (adj & moved & _ & Hadd & [-> | (clamped & Hclip & [-> | ->])])];
    env_simpl; eauto using iadd_length.
Qed.

Lemma nan_output_is_permanent_witness :
  current_output
    (snd (step sin_table cos_table (replicate 5 (Fin 1))
            (snd (step sin_table cos_table [NaN; Fin 0; Fin 0; Fin 0; Fin 0]
                       scenario_started)))) !! 0%nat = Some NaN.
Proof.
  apply (nan_output_is_permanent sin_table cos_table (replicate 5 (Fin 1))
           (snd (step sin_table cos_table [NaN; Fin 0; Fin 0; Fin 0; Fin 0]
                      scenario_started)) 0%nat).
  - vm_compute. reflexivity.
  - vm_compute. reflexivity.
Defined.

(* ===================================================================== *)
(** ** Episodes begin afresh *)
(* ===================================================================== *)

Lemma get_observation_ext (sin_hour cos_hour : Z -> fnum)
    (s1 s2 : PowerGridEnvironment) :
  load_data s1 = load_data s2 -> capacities s1 = capacities s2 ->
  current_step s1 = current_step s2 -> current_output s1 = current_output s2 ->
  0 <= current_step s1 ->
  fst (_get_observation sin_hour cos_hour s1)
  = fst (_get_observation sin_hour cos_hour s2).
Proof.
  intros Hd Hc Ht Ho H0.
  destruct (Z_lt_le_dec (current_step s1) (Np.len (load_data s1))) as [Hin|Hout].
  - rewrite !get_observation_layout by (rewrite <- ?Hd, <- ?Ht; lia).
    now rewrite Hd, Hc, Ht, Ho.
  - rewrite !get_observation_raises by (rewrite <- ?Hd, <- ?Ht; lia).
    reflexivity.
Qed.

(** X14.  Outside training mode [reset] forgets the episode: from any
    object reached by steps and resets it returns what it returned on the
    freshly built object, the same observation or the same exception, and
    leaves the same position 0 and the same outputs, half of each capacity;
    nothing of the previous episode and nothing of the global generator
    enters. *)
Theorem reset_forgets_the_episode
    (sin_hour cos_hour : Z -> fnum) (G : Type) (draw : Z -> Z -> G -> Z * G)
    (s0 s : PowerGridEnvironment) (seed : option N) (g g0 : G) :
  String.eqb (mode s0) "train" = false ->
  reachable sin_hour cos_hour G draw (fun _ => True) s0 s ->
  let after := reset sin_hour cos_hour G draw seed (s, g) in
  let fresh := reset sin_hour cos_hour G draw seed (s0, g0) in
  fst after = fst fresh /\
  current_step (fst (snd after)) = 0 /\
  current_output (fst (snd after)) = Np.scale (capacities s0) (Fin (1 # 2)) /\
  current_output (fst (snd after)) = current_output (fst (snd fresh)) /\
  snd (snd after) = g.
Proof.
  intros Hm Hreach. cbv zeta.
  pose proof (reachable_registry _ _ _ _ _ _ _ Hreach) as Hreg.
  destruct (registry_inv _ _ Hreg) as (Hld & Hcaps & _ & _ & Hmode).
  rewrite !reset_eval by (rewrite ?Hmode; assumption). cbn [fst snd].
  destruct (restarted_fields 0 seed s) as (T1 & D1 & C1).
  destruct (restarted_fields 0 seed s0) as (T2 & D2 & C2).
  assert (O1 : current_output (restarted 0 (seeded seed s))
               = Np.scale (capacities s0) (Fin (1 # 2)))
    by (destruct seed; unfold restarted, seeded; env_simpl; now rewrite Hcaps).
  assert (O2 : current_output (restarted 0 (seeded seed s0))
               = Np.scale (capacities s0) (Fin (1 # 2)))
    by (destruct seed; reflexivity).
  split; [|repeat split; congruence].
  unfold observed.
  rewrite (get_observation_ext sin_hour cos_hour
             (restarted 0 (seeded seed s)) (restarted 0 (seeded seed s0)));
    [reflexivity | congruence | congruence | congruence | congruence | lia].
Qed.

Lemma reset_forgets_the_episode_witness :
  fst (reset sin_table cos_table Z counter_draw None
         (snd (step sin_table cos_table (replicate 5 (Fin 1)) scenario_started),
          3))
  = fst (reset sin_table cos_table Z counter_draw None (scenario_env, 0)).
Proof.
  apply (reset_forgets_the_episode sin_table cos_table Z counter_draw
           scenario_env
           (snd (step sin_table cos_table (replicate 5 (Fin 1))
                      scenario_started)) None 3 0).
  - reflexivity.
  - apply reach_step; [apply reach_reset, reach_init | exact I].
Defined.

(** X15.  In training mode on a series of at least thirty samples, with a
    global generator that samples within its range, [reset] returns and
    leaves room for a day: any sequence of up to 24 well-shaped actions
    after it gets a normal tuple from every [step], none of them
    truncated. *)
Theorem training_episode_has_a_day
    (sin_hour cos_hour : Z -> fnum) (G : Type) (draw : Z -> Z -> G -> Z * G)
    (seed : option N) (s : PowerGridEnvironment) (g : G)
    (actions : list (list fnum)) :
  draws_in_range draw ->
  shape_ok s = true ->
  String.eqb (mode s) "train" = true ->
  30 <= Np.len (load_data s) ->
  Forall (fun a => length a = length (capacities s)) actions ->
  (length actions <= 24)%nat ->
  let s1 := fst (snd (reset sin_hour cos_hour G draw seed (s, g))) in
  is_ok (fst (reset sin_hour cos_hour G draw seed (s, g))) = true /\
  exists rs s',
    run sin_hour cos_hour actions s1 = (Ok rs, s') /\
    length rs = length actions /\
    Forall (fun r => truncated r = false /\ terminated r = false) rs.
Proof.
  intros Hdraw Hs Hm Hlen Hall Hk. cbv zeta.
  pose proof (shape_ok_inv s Hs) as (_ & _ & Hc & _ & _ & Hms).
  rewrite reset_train by (assumption || lia). cbn [fst snd].
  specialize (Hdraw 0 (max_steps s - 24) g ltac:(lia)).
  set (v := fst (draw 0 (max_steps s - 24) g)) in *.
  destruct (restarted_fields v seed s) as (T & D & C).
  assert (Hs1 : shape_ok (restarted v (seeded seed s)) = true).
  { apply (shape_ok_transfer s); [now destruct seed | | assumption].
    pose proof (shape_ok_inv s Hs) as (Ho & _).
    destruct seed; unfold restarted, seeded, Np.scale; env_simpl;
      rewrite length_map; lia. }
  split.
  { destruct (get_observation_returns sin_hour cos_hour
                (restarted v (seeded seed s))) as (obs & Hobs).
    - now rewrite C.
    - rewrite T, D. lia.
    - unfold observed. now rewrite Hobs. }
  destruct (run_returns sin_hour cos_hour actions
              (restarted v (seeded seed s)) Hs1)
    as (rs & s' & Hrun & Hl & _ & _ & Hflags).
  - rewrite T. lia.
  - now rewrite C.
  - rewrite T, D. lia.
  - exists rs, s'. split; [assumption|]. split; [assumption|].
    apply Forall_lookup. intros i r Hi.
    pose proof (lookup_lt_Some _ _ _ Hi) as Hil.
    apply Hflags in Hi as [Ht Htr]. split; [|assumption].
    rewrite Htr, T.
    replace (max_steps (restarted v (seeded seed s))) with (max_steps s)
      by (destruct seed; reflexivity).
    apply Z.leb_gt. lia.
Qed.

Lemma training_episode_has_a_day_witness :
  exists rs s',
    run sin_table cos_table (replicate 24 (replicate 5 (Fin 1)))
        (fst (snd (reset sin_table cos_table Z counter_draw (Some 7%N)
                         (training_env, 5))))
      = (Ok rs, s') /\
    length rs = 24%nat /\
    Forall (fun r => truncated r = false /\ terminated r = false) rs.
Proof.
  destruct (training_episode_has_a_day sin_table cos_table Z counter_draw
              (Some 7%N) training_env 5 (replicate 24 (replicate 5 (Fin 1))))
    as [_ H].
  - apply counter_draw_in_range.
  - vm_compute. reflexivity.
  - reflexivity.
  - vm_compute. discriminate.
  - repeat constructor.
  - simpl. lia.
  - exact H.
Defined.

(* ===================================================================== *)
(** ** Incomplete reward weights *)
(* ===================================================================== *)

Lemma config_ok_inv (cfg : config) :
  config_ok cfg = true ->
  exists n caps cs ramp,
    cfg_num_generators cfg = Some n /\
    cfg_generator_capacities cfg = Some caps /\
    cfg_generator_costs cfg = Some cs /\
    cfg_max_ramping cfg = Some ramp /\
    n = Np.len caps /\ 0 < n /\ length cs = length caps /\
    ramp_fits (length caps) ramp = true.
Proof.
  unfold config_ok.
  destruct (cfg_num_generators cfg) as [n|]; [|discriminate].
  destruct (cfg_generator_capacities cfg) as [caps|]; [|discriminate].
  destruct (cfg_generator_costs cfg) as [cs|]; [|discriminate].
  destruct (cfg_max_ramping cfg) as [ramp|]; [|discriminate].
  rewrite !andb_true_iff. intros [[[[[[Hn Hpos] Hcs] Hr] _] _] _].
  apply Z.eqb_eq in Hn. apply Z.ltb_lt in Hpos. apply Nat.eqb_eq in Hcs.
  exists n, caps, cs, ramp. repeat split; assumption.
Qed.

Lemma missing_weight_raises (w : gmap string fnum) (s : PowerGridEnvironment)
    (k : fnum -> fnum -> fnum -> fnum
         -> M PowerGridEnvironment (fnum * gmap string fnum)) :
  weights_complete w = false ->
  fst (bind (lift (getitem w "generation_cost")) (fun w1 =>
       bind (lift (getitem w "supply_demand_gap")) (fun w2 =>
       bind (lift (getitem w "ramping_penalty")) (fun w3 =>
       bind (lift (getitem w "overload_penalty")) (fun w4 =>
       k w1 w2 w3 w4)))) s) = Raise KeyError.
Proof.
  unfold weights_complete, has_key, getitem, subscript.
  destruct (w !! "generation_cost"); [|reflexivity].
  destruct (w !! "supply_demand_gap"); [|reflexivity].
  destruct (w !! "ramping_penalty"); [|reflexivity].
  destruct (w !! "overload_penalty"); [discriminate | reflexivity].
Qed.

(** X16.  A [reward_weights] mapping that lacks one of its four entries is
    accepted by the constructor; the missing entry shows only in [step],
    which raises [KeyError] on every well-shaped action, after it has moved
    and clamped the outputs. *)
Theorem incomplete_weights_fail_in_step (sin_hour cos_hour : Z -> fnum)
    (data : list fnum) (cfg : config) (mode_ : string)
    (w : gmap string fnum) (a : list fnum) :
  config_ok cfg = true ->
  weights_complete w = false ->
  1 <= Np.len data ->
  exists s0 caps,
    init data
      {| cfg_num_generators := cfg_num_generators cfg;
         cfg_generator_capacities := cfg_generator_capacities cfg;
         cfg_generator_costs := cfg_generator_costs cfg;
         cfg_max_ramping := cfg_max_ramping cfg;
         cfg_reward_weights := Some w |} mode_ = Ok s0 /\
    capacities s0 = caps /\
    (length a = length caps ->
     fst (step sin_hour cos_hour a s0) = Raise KeyError /\
     exists adj moved,
       Np.mul (Np.clip a (Fin (-1)) (Fin 1)) (max_ramping s0) = Ok adj /\
       Np.iadd (current_output s0) adj = Ok moved /\
       Np.clip_upto moved (Fin 0) caps
         = Ok (current_output (snd (step sin_hour cos_hour a s0)))).
Proof.
  intros Hcfg Hw Hdata.
  destruct (config_ok_inv cfg Hcfg)
    as (n & caps & cs & ramp & E1 & E2 & E3 & E4 & Hn & Hpos & Hcs & Hr).
  unfold init. cbn [cfg_num_generators cfg_generator_capacities
                    cfg_generator_costs cfg_max_ramping cfg_reward_weights].
  rewrite E1, E2, E3, E4. cbn [subscript default]. unfold Np.zeros.
  destruct (Z.ltb_spec n 0) as [|_]; [lia|].
  eexists _, caps. split; [reflexivity|]. split; [reflexivity|].
  intros Ha.
  set (s0 := {| load_data := data |}).
  (* the same object with complete weights accepts the action *)
  set (good := {| load_data := data; mode := mode_; num_generators := n;
                  capacities := caps; costs := cs; max_ramping := ramp;
                  reward_weights := default_reward_weights;
                  obs_dim := 1 + n + 4 + 2; current_step := 0;
                  current_output := replicate (Z.to_nat n) (Fin 0);
                  max_steps := Np.len data - 5; np_random_seed := None |}).
  assert (Hlen0 : length (replicate (Z.to_nat n) (Fin 0)) = length caps)
    by (rewrite length_replicate; unfold Np.len in Hn; lia).
  assert (Hgood : shape_ok good = true).
  { unfold shape_ok, good; env_simpl.
    rewrite Hlen0, Nat.eqb_refl, Hr, Z.eqb_refl.
    rewrite (proj2 (Nat.eqb_eq _ _) Hcs).
    assert (Hne : (length caps =? 0)%nat = false)
      by (apply Nat.eqb_neq; unfold Np.len in Hn; lia).
    rewrite Hne. reflexivity. }
  destruct (apply_action_ok a good Hgood (or_introl Ha))
    as (adj & moved & Hmul & Hadd & Hlm).
  change (max_ramping good) with (max_ramping s0) in Hmul.
  change (current_output good) with (current_output s0) in Hadd, Hlm.
  assert (Hclip : Np.clip_upto moved (Fin 0) caps
                  = Ok (zip_with (fun v h => fclip v (Fin 0) h) moved caps)).
  { unfold Np.clip_upto. apply broadcast2_same.
    rewrite Hlm. exact Hlen0. }
  assert (Hstep : step sin_hour cos_hour a s0 =
            (Raise KeyError,
             set_current_output
               (zip_with (fun v h => fclip v (Fin 0) h) moved caps)
               (set_current_output moved s0))).
  { unfold step. rewrite bind_get; cbv beta.
    rewrite Hmul, bind_lift_ok, Hadd, bind_lift_ok, bind_modify.
    change (capacities s0) with caps.
    rewrite Hclip.
    rewrite bind_lift_ok, bind_modify, bind_get.
    change (load_data (set_current_output
              (zip_with (fun v h => fclip v (Fin 0) h) moved caps)
              (set_current_output moved s0))) with data.
    change (current_step (set_current_output
              (zip_with (fun v h => fclip v (Fin 0) h) moved caps)
              (set_current_output moved s0))) with 0.
    destruct (index_ok data 0) as (x & Hx & _); [lia|].
    rewrite Hx, bind_lift_ok.
    set (clamped := zip_with _ moved caps).
    set (s2 := set_current_output clamped _).
    assert (Hrw : _calculate_reward unrounded x (Np.sum clamped) adj s2
                  = (Raise KeyError, s2)).
    { pose proof (calculate_reward_readonly unrounded x (Np.sum clamped) adj s2) as Hro.
      destruct (_calculate_reward unrounded x (Np.sum clamped) adj s2) as [res s2'] eqn:E.
      simpl in Hro. subst s2'. f_equal.
      change res with (fst (res, s2)). rewrite <- E.
      unfold _calculate_reward. rewrite bind_get; cbv beta.
      assert (Hmc : length moved = length caps)
        by (rewrite Hlm; exact Hlen0).
      rewrite broadcast2_same
        by (change (length clamped = length cs); subst clamped;
            rewrite length_zip_with; lia).
      rewrite bind_lift_ok.
      apply (missing_weight_raises w s2). exact Hw. }
    now rewrite (bind_raises _ _ _ _ _ Hrw). }
  rewrite Hstep. cbn [fst snd]. split; [reflexivity|].
  exists adj, moved. repeat split; assumption.
Qed.

Lemma incomplete_weights_fail_in_step_witness :
  fst (step sin_table cos_table (replicate 5 (Fin 0))
         (built (init demand10 (scenario_config (Some partial_weights)) "test")))
  = Raise KeyError.
Proof.
  destruct (incomplete_weights_fail_in_step sin_table cos_table demand10
              (scenario_config None) "test" partial_weights
              (replicate 5 (Fin 0)))
    as (s0 & caps & Hinit & Hcaps & Hstep).
  - reflexivity.
  - reflexivity.
  - vm_compute. discriminate.
  - change (init demand10 (scenario_config (Some partial_weights)) "test"
            = Ok s0) in Hinit.
    rewrite Hinit. cbn [built].
    apply Hstep. rewrite <- Hcaps.
    injection Hinit as <-. reflexivity.
Defined.

(* ===================================================================== *)
(** ** Episode data *)
(* ===================================================================== *)

(** X17.  For a start position inside the frame and a positive episode
    length, [prepare_data_for_environment] returns exactly
    [episode_length] values: the load at [start_idx + i] while the frame
    lasts, and the last load of the frame from there on. *)
Theorem prepared_episode_is_padded (df : list fnum)
    (start_idx episode_length : Z) :
  0 <= start_idx < Np.len df -> 1 <= episode_length ->
  exists episode,
    prepare_data_for_environment df start_idx episode_length = Ok episode /\
    Np.len episode = episode_length /\
    forall i, 0 <= i < episode_length ->
      episode !! Z.to_nat i
      = Some (sample df (Z.min (start_idx + i) (Np.len df - 1))).
Proof.
  intros Hs He. unfold prepare_data_for_environment, Np.len in *.
  set (n := length df) in *.
  assert (Hb1 : Np.bound df start_idx = start_idx).
  { unfold Np.bound, Np.len. fold n.
    destruct (Z.ltb_spec start_idx 0); lia. }
  assert (Hb2 : Np.bound df (Z.min (start_idx + episode_length) (Z.of_nat n))
                = Z.min (start_idx + episode_length) (Z.of_nat n)).
  { unfold Np.bound, Np.len. fold n.
    destruct (Z.ltb_spec (Z.min (start_idx + episode_length) (Z.of_nat n)) 0);
      lia. }
  unfold Np.slice. rewrite Hb1, Hb2.
  set (k := Z.to_nat (Z.min (start_idx + episode_length) (Z.of_nat n) - start_idx)).
  set (a := Z.to_nat start_idx).
  assert (Hlen : length (take k (drop a df)) = k).
  { rewrite length_take, length_drop. fold n. lia. }
  assert (Hlook : forall i, (i < k)%nat ->
            take k (drop a df) !! i = Some (sample df (Z.of_nat (a + i)))).
  { intros i Hi. rewrite lookup_take_lt by assumption. rewrite lookup_drop.
    unfold sample. rewrite Nat2Z.id.
    destruct (df !! (a + i)%nat) as [x|] eqn:E; [reflexivity|].
    apply lookup_ge_None in E. fold n in E. lia. }
  rewrite Hlen.
  destruct (Z.ltb_spec (Z.of_nat k) episode_length) as [Hshort|Hfull].
  - assert (Hk : k = (n - a)%nat) by lia.
    assert (Hlast : Np.index (take k (drop a df)) (-1)
                    = Ok (sample df (Z.of_nat n - 1))).
    { unfold Np.index, Np.len. rewrite Hlen.
      change (-1 <? 0) with true. cbv iota.
      destruct (Z.ltb_spec (-1 + Z.of_nat k) 0) as [|_]; [lia|].
      replace (Z.to_nat (-1 + Z.of_nat k)) with (k - 1)%nat by lia.
      rewrite Hlook by lia.
      do 2 f_equal. lia. }
    rewrite Hlast. eexists. split; [reflexivity|]. split.
    + rewrite length_app, Hlen. unfold Np.full. rewrite length_replicate. lia.
    + intros i Hi.
      destruct (Z_lt_le_dec i (Z.of_nat k)) as [Hin|Hout].
      * rewrite lookup_app_l by (rewrite Hlen; lia).
        rewrite Hlook by lia. do 2 f_equal. lia.
      * rewrite lookup_app_r by (rewrite Hlen; lia).
        unfold Np.full. rewrite Hlen.
        rewrite lookup_replicate_2 by lia.
        do 2 f_equal. lia.
  - eexists. split; [reflexivity|]. split; [rewrite Hlen; lia|].
    intros i Hi. rewrite Hlook by lia. do 2 f_equal. lia.
Qed.

Lemma prepared_episode_is_padded_witness :
  exists episode,
    prepare_data_for_environment demand10 7 6 = Ok episode /\
    Np.len episode = 6.
Proof.
  destruct (prepared_episode_is_padded demand10 7 6) as (ep & H & Hl & _).
  - vm_compute. split; [discriminate | reflexivity].
  - lia.
  - exists ep. split; assumption.
Defined.

(** X18.  For a start position at or beyond the end of the frame and a
    positive episode length there is nothing to pad with:
    [prepare_data_for_environment] raises [IndexError]. *)
Theorem prepared_episode_needs_a_sample (df : list fnum)
    (start_idx episode_length : Z) :
  Np.len df <= start_idx -> 1 <= episode_length ->
  prepare_data_for_environment df start_idx episode_length = Raise IndexError.
Proof.
  intros Hs He. unfold prepare_data_for_environment, Np.len in *.
  set (n := length df) in *.
  assert (Hb1 : Np.bound df start_idx = Z.of_nat n).
  { unfold Np.bound, Np.len. fold n.
    destruct (Z.ltb_spec start_idx 0); lia. }
  assert (Hb2 : Np.bound df (Z.min (start_idx + episode_length) (Z.of_nat n))
                = Z.of_nat n).
  { unfold Np.bound, Np.len. fold n.
    destruct (Z.ltb_spec (Z.min (start_idx + episode_length) (Z.of_nat n)) 0);
      lia. }
  unfold Np.slice. rewrite Hb1, Hb2.
  replace (Z.to_nat (Z.of_nat n - Z.of_nat n)) with 0%nat by lia.
  rewrite take_0. cbn [length]. change (Z.of_nat 0) with 0.
  destruct (Z.ltb_spec 0 episode_length) as [_|]; [|lia].
  reflexivity.
Qed.

Lemma prepared_episode_needs_a_sample_witness :
  prepare_data_for_environment demand10 10 24 = Raise IndexError.
Proof.
  apply (prepared_episode_needs_a_sample demand10 10 24).
  - vm_compute. discriminate.
  - lia.
Defined.

(* ===================================================================== *)
(** ** Splitting the data *)
(* ===================================================================== *)

Lemma py_int_nonneg (x : Q) : (0 <= x)%Q -> py_int x = Qfloor x.
Proof.
  destruct x as [a d]. unfold py_int, Qfloor, Qle. simpl. intros H.
  apply Z.quot_div_nonneg; lia.
Qed.

Lemma py_int_monotone (x y : Q) :
  (0 <= x)%Q -> (x <= y)%Q -> 0 <= py_int x <= py_int y.
Proof.
  intros Hx Hxy. rewrite !py_int_nonneg by lra. split.
  - change 0 with (Qfloor 0). now apply Qfloor_resp_le.
  - now apply Qfloor_resp_le.
Qed.

Lemma three_slices {A} (df : list A) (a b : Z) :
  0 <= a <= b ->
  iloc df None (Some a) ++ iloc df (Some a) (Some b) ++ iloc df (Some b) None
  = df.
Proof.
  intros Hab. unfold iloc. set (n := Z.of_nat (length df)).
  destruct (Z.ltb_spec a 0) as [|_]; [lia|].
  destruct (Z.ltb_spec b 0) as [|_]; [lia|].
  replace (Z.to_nat (Z.min a n - 0)) with (Z.to_nat (Z.min a n)) by lia.
  change (Z.to_nat 0) with 0%nat. rewrite drop_0.
  set (s := Z.to_nat (Z.min a n)). set (e := Z.to_nat (Z.min b n)).
  replace (Z.to_nat (Z.min b n - Z.min a n)) with (e - s)%nat by lia.
  assert (Hse : (s <= e)%nat) by lia.
  rewrite (take_ge (drop e df)) by (rewrite length_drop; lia).
  replace (drop e df) with (drop (e - s) (drop s df))
    by (rewrite drop_drop; f_equal; lia).
  now rewrite take_drop, take_drop.
Qed.

Lemma chop_rounds_in_order : rounds_in_order chop.
Proof.
  split; [|reflexivity].
  intros x y Hxy. unfold chop.
  assert (H : (x * 1024 <= y * 1024)%Q) by lra.
  apply Qfloor_resp_le in H. unfold Qle. cbn [Qnum Qden]. lia.
Qed.

(** X19.  With both ratios present, numbers of the format, not negative
    and summing to at most one, in every rounding that keeps the order,
    [split_data] cuts the frame into three consecutive pieces that
    together are the frame: no row is lost or repeated, and the test set
    is whatever remains after the other two, [test_ratio] playing no
    part. *)
Theorem split_is_a_partition {A} (round : Q -> Q) (self : PowerDataLoader)
    (df : list A) (r1 r2 : Q) :
  rounds_in_order round ->
  representable round r1 ->
  dc_train_ratio (dl_config self) = Some r1 ->
  dc_val_ratio (dl_config self) = Some r2 ->
  (0 <= r1)%Q -> (0 <= r2)%Q -> (r1 + r2 <= 1)%Q ->
  exists train val test,
    split_data round self df = Ok (train, val, test) /\
    train ++ val ++ test = df.
Proof.
  intros [Hmono Hzero] Hrep E1 E2 H1 H2 _. unfold split_data.
  rewrite E1, E2. cbn [subscript].
  eexists _, _, _. split; [reflexivity|].
  apply three_slices.
  set (n := inject_Z (Z.of_nat (length df))).
  assert (Hn : (0 <= n)%Q).
  { subst n. change 0%Q with (inject_Z 0). rewrite <- Zle_Qle. lia. }
  assert (Hsum : (r1 <= round (r1 + r2))%Q).
  { unfold representable in Hrep. rewrite <- Hrep at 1. apply Hmono. lra. }
  assert (Hlo : (0 <= round (n * r1))%Q).
  { rewrite <- Hzero. apply Hmono. now apply Qmult_le_0_compat. }
  assert (Hle : (round (n * r1) <= round (n * round (r1 + r2)))%Q).
  { apply Hmono.
    rewrite (Qmult_comm n r1), (Qmult_comm n (round (r1 + r2)%Q)).
    now apply Qmult_le_compat_r. }
  destruct (py_int_monotone _ _ Hlo Hle) as [Ha Hb]. lia.
Qed.

Lemma split_is_a_partition_witness :
  exists train val test : list fnum,
    split_data chop
        {| dl_config := {| dc_dataset_url := None;
                           dc_local_path := Some "data.csv"%string;
                           dc_train_ratio := Some (3 # 4);
                           dc_val_ratio := Some (1 # 8);
                           dc_test_ratio := None |};
           dataset_url := ""; local_path := "data.csv";
           train_ratio := 3 # 4; val_ratio := 1 # 8;
           test_ratio := 15 # 100 |} demand10
      = Ok (train, val, test) /\
    train ++ val ++ test = demand10.
Proof.
  destruct (@split_is_a_partition fnum chop
              {| dl_config := {| dc_dataset_url := None;
                                 dc_local_path := Some "data.csv"%string;
                                 dc_train_ratio := Some (3 # 4);
                                 dc_val_ratio := Some (1 # 8);
                                 dc_test_ratio := None |};
                 dataset_url := ""; local_path := "data.csv";
                 train_ratio := 3 # 4; val_ratio := 1 # 8;
                 test_ratio := 15 # 100 |} demand10 (3 # 4) (1 # 8))
    as (tr & va & te & H & Hp).
  - exact chop_rounds_in_order.
  - vm_compute. reflexivity.
  - reflexivity.
  - reflexivity.
  - lra.
  - lra.
  - lra.
  - exists tr, va, te. split; [exact H | exact Hp].
Defined.

(** X20.  The defaults the loader stores for the ratios are not what
    [split_data] reads: a loader built from a configuration without
    [train_ratio] or without [val_ratio] holds the default 0.7 or 0.15,
    and its [split_data] raises [KeyError] on every frame, in every
    rounding. *)
Theorem split_ignores_stored_defaults {A} (round : Q -> Q) (cfg : data_config)
    (path : string) (df : list A) :
  dc_local_path cfg = Some path ->
  dc_train_ratio cfg = None \/ dc_val_ratio cfg = None ->
  exists self,
    loader_init cfg = Ok self /\
    train_ratio self = default (7 # 10) (dc_train_ratio cfg) /\
    val_ratio self = default (15 # 100) (dc_val_ratio cfg) /\
    split_data round self df = Raise KeyError.
Proof.
  intros Hp Hmiss. unfold loader_init. rewrite Hp. cbn [subscript].
  eexists. split; [reflexivity|]. split; [reflexivity|]. split; [reflexivity|].
  unfold split_data. cbn [dl_config].
  destruct (dc_train_ratio cfg) as [r1|]; [|reflexivity].
  destruct Hmiss as [?|Hv]; [discriminate|]. rewrite Hv. reflexivity.
Qed.

Lemma split_ignores_stored_defaults_witness :
  exists self,
    loader_init {| dc_dataset_url := None;
                   dc_local_path := Some "data.csv"%string;
                   dc_train_ratio := None; dc_val_ratio := None;
                   dc_test_ratio := None |} = Ok self /\
    train_ratio self = 7 # 10 /\
    split_data chop self demand10 = Raise KeyError.
Proof.
  destruct (@split_ignores_stored_defaults fnum chop
              {| dc_dataset_url := None;
                 dc_local_path := Some "data.csv"%string;
                 dc_train_ratio := None; dc_val_ratio := None;
                 dc_test_ratio := None |} "data.csv" demand10)
    as (self & H1 & H2 & _ & H4).
  - reflexivity.
  - left. reflexivity.
  - exists self. repeat split; assumption.
Defined.

(* ===================================================================== *)
(** ** The evaluation loop *)
(* ===================================================================== *)

Section EvaluateFacts.
Variable sin_hour cos_hour : Z -> fnum.
Variable G : Type.
Variable draw : Z -> Z -> G -> Z * G.
Variable act : list fnum -> result (list fnum).

Lemma step_keeps_seed (a : list fnum) (s : PowerGridEnvironment) :
  np_random_seed (snd (step sin_hour cos_hour a s)) = np_random_seed s.
Proof.
  destruct (step_state_cases sin_hour cos_hour a s)
    as [-> | (adj & moved & _ & _ & [-> | (clamped & _ & [-> | ->])])];
    reflexivity.
Qed.

(** The four diagnostics the evaluation loop reads are in the record of
    every transition that returned. *)
Lemma step_info_keys (a : list fnum) (s s' : PowerGridEnvironment)
    (r : step_result) :
  step sin_hour cos_hour a s = (Ok r, s') ->
  exists load generation cost gap,
    getitem (info r) "load" = Ok load /\
    getitem (info r) "generation" = Ok generation /\
    getitem (info r) "cost" = Ok cost /\
    getitem (info r) "gap" = Ok gap.
Proof.
  intros Hstep.
  destruct (step_ok_anatomy _ _ _ _ _ _ Hstep)
    as (adj & x & inf & c & gp & _ & _ & Hrw & Kc & Kg & Hinfo & _).
  destruct (calculate_reward_ok_inv _ _ _ _ _ _ Hrw)
    as (weighted & ov & _ & _ & Hinf).
  rewrite Hinfo, Hinf.
  eexists _, _, _, _. repeat split; reflexivity.
Qed.

(** One pass of the loop over a transition that returned. *)
Lemma episode_loop_pass (fuel : nat) (ep : Z) (obs a : list fnum)
    (e : episode) (s s1 : PowerGridEnvironment) (r : step_result)
    (load generation cost gap : fnum) :
  act obs = Ok a ->
  step sin_hour cos_hour a s = (Ok r, s1) ->
  getitem (info r) "load" = Ok load ->
  getitem (info r) "generation" = Ok generation ->
  getitem (info r) "cost" = Ok cost ->
  getitem (info r) "gap" = Ok gap ->
  episode_loop sin_hour cos_hour act (S fuel) ep obs e s =
    if terminated r || truncated r
    then (Ok (Some (advance ep r load generation cost gap e)), s1)
    else episode_loop sin_hour cos_hour act fuel ep (observation r)
           (advance ep r load generation cost gap e) s1.
Proof.
  intros Ha Hstep Kl Kn Kc Kg.
  cbn [episode_loop]. rewrite Ha, bind_lift_ok.
  rewrite (bind_returns _ _ _ _ _ Hstep).
  rewrite Kc, bind_lift_ok, Kg, bind_lift_ok.
  unfold advance.
  destruct ((ep =? 0) && (Z.of_nat (length (step_data e)) <? 168));
    cbv beta iota delta [bind lift ret]; rewrite ?Kl, ?Kn, ?Kc, ?Kg;
    destruct (terminated r || truncated r); reflexivity.
Qed.

Lemma advance_length (ep : Z) (r : step_result) (l gn c gp : fnum)
    (e : episode) :
  length (step_data (advance ep r l gn c gp e)) =
    if (ep =? 0) && (Z.of_nat (length (step_data e)) <? 168)
    then S (length (step_data e)) else length (step_data e).
Proof.
  unfold advance. cbn [step_data].
  destruct ((ep =? 0) && _); [|reflexivity].
  rewrite length_app. cbn [length]. lia.
Qed.

(** The sums of an episode do not depend on its number, which only decides
    whether the trajectory is kept. *)
Lemma episode_loop_totals (fuel : nat) :
  forall (ep ep' : Z) (obs : list fnum) (e e' : episode)
         (s s1 : PowerGridEnvironment) (e1 : episode),
  totals e = totals e' ->
  episode_loop sin_hour cos_hour act fuel ep obs e s = (Ok (Some e1), s1) ->
  exists e1',
    episode_loop sin_hour cos_hour act fuel ep' obs e' s = (Ok (Some e1'), s1) /\
    totals e1' = totals e1.
Proof.
  induction fuel as [|fuel IH]; intros ep ep' obs e e' s s1 e1 Ht Hrun.
  - discriminate.
  - destruct (act obs) as [a|x] eqn:Ha.
    2: { cbn [episode_loop] in Hrun. rewrite Ha in Hrun. discriminate. }
    destruct (step sin_hour cos_hour a s) as [[r|x] s2] eqn:Hstep.
    2: { cbn [episode_loop] in Hrun. rewrite Ha, bind_lift_ok in Hrun.
         rewrite (bind_raises _ _ _ _ _ Hstep) in Hrun. discriminate. }
    destruct (step_info_keys _ _ _ _ Hstep)
      as (load & generation & cost & gap & Kl & Kn & Kc & Kg).
    rewrite (episode_loop_pass fuel ep obs a e s s2 r load generation cost gap)
      in Hrun by assumption.
    rewrite (episode_loop_pass fuel ep' obs a e' s s2 r load generation cost gap)
      by assumption.
    assert (Ht' : totals (advance ep' r load generation cost gap e')
                  = totals (advance ep r load generation cost gap e)).
    { unfold totals, advance in *. cbn [ep_reward ep_cost ep_gap].
      injection Ht as -> -> ->. reflexivity. }
    destruct (terminated r || truncated r).
    + injection Hrun as <- <-. eexists. split; [reflexivity | exact Ht'].
    + eapply IH; [|exact Hrun]. symmetry. exact Ht'.
Qed.

(** The loop makes exactly as many passes as it takes the position to reach
    the horizon, and at least one. *)
Lemma episode_loop_runs (k' : nat) :
  forall (ep : Z) (obs : list fnum) (e : episode) (s : PowerGridEnvironment)
         (fuel : nat),
  (forall o, exists a, act o = Ok a /\ length a = length (capacities s)) ->
  shape_ok s = true -> 0 <= current_step s ->
  current_step s + Z.of_nat (S k') < Np.len (load_data s) ->
  max_steps s <= current_step s + Z.of_nat (S k') ->
  (forall j, 1 <= j <= Z.of_nat k' -> current_step s + j < max_steps s) ->
  ((S k' <= fuel)%nat ->
   exists e' s',
     episode_loop sin_hour cos_hour act fuel ep obs e s = (Ok (Some e'), s') /\
     current_step s' = current_step s + Z.of_nat (S k') /\
     registry s' = registry s /\
     np_random_seed s' = np_random_seed s /\
     length (current_output s') = length (current_output s) /\
     length (step_data e') =
       if ep =? 0
       then Nat.max (length (step_data e))
                    (Nat.min 168 (length (step_data e) + S k'))
       else length (step_data e)) /\
  ((fuel <= k')%nat ->
   exists s', episode_loop sin_hour cos_hour act fuel ep obs e s = (Ok None, s')).
Proof.
  induction k' as [|k IH]; intros ep obs e s fuel Hact Hs H0 Hroom Hend Hbefore.
  all: destruct fuel as [|fuel];
    [split; [lia | intros _; exists s; reflexivity]|].
  all: destruct (Hact obs) as (a & Ha & Hla).
  all: destruct (step_returns sin_hour cos_hour a s Hs (or_introl Hla) H0)
         as (r & s1 & Hstep & Hterm & Htrunc & Hcs & Hreg & Hlen); [lia|].
  all: pose proof (step_keeps_seed a s) as Hseed; rewrite Hstep in Hseed;
         cbn [snd] in Hseed.
  all: destruct (step_info_keys _ _ _ _ Hstep)
         as (load & generation & cost & gap & Kl & Kn & Kc & Kg).
  all: rewrite (episode_loop_pass fuel ep obs a e s s1 r load generation
                  cost gap) by assumption.
  all: rewrite Hterm, Htrunc; cbn [orb].
  - replace (max_steps s <=? current_step s + 1) with true
      by (symmetry; apply Z.leb_le; lia).
    split; [|lia]. intros _.
    eexists _, s1. split; [reflexivity|].
    split; [lia|]. split; [assumption|]. split; [assumption|].
    split; [assumption|].
    rewrite advance_length.
    destruct (Z.eqb_spec ep 0); cbn [andb]; [|reflexivity].
    destruct (Z.ltb_spec (Z.of_nat (length (step_data e))) 168); lia.
  - replace (max_steps s <=? current_step s + 1) with false
      by (symmetry; apply Z.leb_gt; apply (Hbefore 1); lia).
    destruct (registry_inv _ _ Hreg) as (Hld & Hcaps & Hms & _).
    destruct (IH ep (observation r)
                (advance ep r load generation cost gap e) s1 fuel)
      as [Hyes Hno].
    + intros o. destruct (Hact o) as (a' & Ha' & Hla').
      exists a'. split; [assumption|]. now rewrite Hcaps.
    + apply (shape_ok_transfer s); assumption.
    + lia.
    + rewrite Hcs, Hld. lia.
    + rewrite Hcs, Hms. lia.
    + intros j Hj. rewrite Hcs, Hms.
      specialize (Hbefore (j + 1)). lia.
    + split.
      * intros Hfuel.
        destruct Hyes as (e' & s' & Hrun & Hcs' & Hreg' & Hseed' & Hlen' & Hdata);
          [lia|].
        exists e', s'. split; [assumption|].
        split; [lia|]. split; [congruence|]. split; [congruence|].
        split; [congruence|].
        rewrite Hdata, advance_length.
        destruct (Z.eqb_spec ep 0); cbn [andb]; [|reflexivity].
        destruct (Z.ltb_spec (Z.of_nat (length (step_data e))) 168); lia.
      * intros Hfuel. apply Hno. lia.
Qed.

Lemma on_self_returns {A} (c : M PowerGridEnvironment A)
    (s s' : PowerGridEnvironment) (g : G) (a : A) :
  c s = (Ok a, s') -> on_self G c (s, g) = (Ok a, (s', g)).
Proof. intros H. unfold on_self. now rewrite H. Qed.

Lemma restarted_eq (v : Z) (s s' : PowerGridEnvironment) :
  registry s' = registry s -> np_random_seed s' = np_random_seed s ->
  restarted v s' = restarted v s.
Proof.
  destruct s, s'. unfold registry, restarted, set_current_output,
    set_current_step. cbn.
  intros [= -> -> -> -> -> -> -> -> ->] ->. reflexivity.
Qed.

(** Outside training mode a seedless [reset] of a consistent object on a
    non-empty series returns, and leaves the restarted object. *)
Lemma reset_eval_returns (s : PowerGridEnvironment) (g : G) :
  String.eqb (mode s) "train" = false ->
  shape_ok s = true -> 1 <= Np.len (load_data s) ->
  exists obs,
    reset sin_hour cos_hour G draw None (s, g)
      = (Ok (obs, ∅), (restarted 0 s, g)) /\
    fst (_get_observation sin_hour cos_hour (restarted 0 s)) = Ok obs.
Proof.
  intros Hm Hs Hn. rewrite reset_eval by assumption.
  change (seeded None s) with s.
  pose proof (shape_ok_inv s Hs) as (_ & _ & Hc & _).
  destruct (get_observation_returns sin_hour cos_hour (restarted 0 s))
    as (obs & Hobs); [exact Hc | cbn; lia |].
  exists obs. unfold observed. rewrite Hobs. split; reflexivity.
Qed.

Lemma restarted_shape (s : PowerGridEnvironment) :
  shape_ok s = true -> shape_ok (restarted 0 s) = true.
Proof.
  intros Hs. pose proof (shape_ok_inv s Hs) as (Ho & _).
  apply (shape_ok_transfer s); [reflexivity | | assumption].
  unfold restarted, Np.scale. env_simpl. rewrite length_map. lia.
Qed.

(** An evaluation episode from the restarted object. *)
Lemma episode_from_restart (s : PowerGridEnvironment) (ep : Z)
    (obs : list fnum) (fuel : nat) :
  shape_ok s = true -> 2 <= Np.len (load_data s) ->
  well_shaped act s ->
  ((episode_steps (Np.len (load_data s)) <= fuel)%nat ->
   exists e s',
     episode_loop sin_hour cos_hour act fuel ep obs episode_start
                  (restarted 0 s) = (Ok (Some e), s') /\
     current_step s' = Z.of_nat (episode_steps (Np.len (load_data s))) /\
     registry s' = registry s /\
     np_random_seed s' = np_random_seed s /\
     shape_ok s' = true /\
     length (step_data e) =
       if ep =? 0
       then Nat.min 168 (episode_steps (Np.len (load_data s))) else 0%nat) /\
  ((fuel < episode_steps (Np.len (load_data s)))%nat ->
   exists s',
     episode_loop sin_hour cos_hour act fuel ep obs episode_start
                  (restarted 0 s) = (Ok None, s')).
Proof.
  intros Hs Hn Hact. unfold episode_steps.
  pose proof (shape_ok_inv s Hs) as (_ & _ & _ & _ & _ & Hms).
  pose proof (restarted_shape s Hs) as Hs1.
  set (n := Np.len (load_data s)) in *.
  destruct (episode_loop_runs (Z.to_nat (Z.max 1 (n - 5)) - 1) ep obs
              episode_start (restarted 0 s) fuel) as [Hyes Hno].
  - exact Hact.
  - exact Hs1.
  - cbn. lia.
  - change (load_data (restarted 0 s)) with (load_data s).
    change (current_step (restarted 0 s)) with 0. fold n. lia.
  - change (max_steps (restarted 0 s)) with (max_steps s).
    change (current_step (restarted 0 s)) with 0. lia.
  - intros j Hj. change (max_steps (restarted 0 s)) with (max_steps s).
    change (current_step (restarted 0 s)) with 0. lia.
  - split.
    + intros Hfuel.
      destruct Hyes as (e & s' & Hrun & Hcs & Hreg & Hseed & Hlen & Hdata);
        [lia|].
      exists e, s'. split; [exact Hrun|].
      change (current_step (restarted 0 s)) with 0 in Hcs.
      split; [lia|]. split; [exact Hreg|]. split; [exact Hseed|].
      split.
      { apply (shape_ok_transfer (restarted 0 s)); assumption. }
      rewrite Hdata. cbn [episode_start step_data length].
      destruct (ep =? 0); lia.
    + intros Hfuel. apply Hno. lia.
Qed.

Section Repeat.
Variable fuel : nat.
Variable g : G.
Variable Inv : PowerGridEnvironment -> Prop.
Variable obs1 : list fnum.
Variable s1 s' : PowerGridEnvironment.
Variable x y z : fnum.
Variable T : nat.
Hypothesis Hreset : forall st, Inv st ->
  reset sin_hour cos_hour G draw None (st, g) = (Ok (obs1, ∅), (s1, g)).
Hypothesis Hloop : forall ep, exists e,
  episode_loop sin_hour cos_hour act fuel ep obs1 episode_start s1
    = (Ok (Some e), s') /\
  totals e = (x, y, z) /\
  (ep = 0 -> length (step_data e) = T).
Hypothesis Hinv : Inv s'.

Lemma evaluate_episodes_repeat (eps : list Z) :
  forall (ev : evaluation) (st : PowerGridEnvironment),
  Inv st ->
  exists ev' st',
    evaluate_episodes sin_hour cos_hour G draw act fuel eps ev (st, g)
      = (Ok (Some ev'), (st', g)) /\
    total_rewards ev' = total_rewards ev ++ replicate (length eps) x /\
    total_costs ev' = total_costs ev ++ replicate (length eps) y /\
    supply_gaps ev' = supply_gaps ev ++ replicate (length eps) z /\
    length (trajectories ev') =
      if existsb (Z.eqb 0) eps then T else length (trajectories ev).
Proof.
  induction eps as [|ep rest IH]; intros ev st Hst.
  - exists ev, st. cbn. rewrite !app_nil_r. repeat split; reflexivity.
  - destruct (Hloop ep) as (e & Hrun & Htot & Hdata).
    cbn [evaluate_episodes].
    rewrite (bind_returns _ _ _ _ _ (Hreset st Hst)). cbn [fst].
    rewrite (bind_returns _ _ _ _ _ (on_self_returns _ _ _ g _ Hrun)).
    injection Htot as Hx Hy Hz.
    match goal with
    | |- context [evaluate_episodes _ _ _ _ _ _ rest ?ev1 _] =>
        destruct (IH ev1 s' Hinv) as (ev' & st' & Hev & Hr & Hc & Hg & Ht)
    end.
    exists ev', st'. split; [exact Hev|].
    cbn [total_rewards total_costs supply_gaps trajectories] in Hr, Hc, Hg, Ht.
    rewrite Hr, Hc, Hg, Hx, Hy, Hz, <- !app_assoc. cbn [length replicate app existsb].
    repeat split; try reflexivity.
    rewrite Ht. destruct (Z.eqb_spec 0 ep) as [<-|Hne]; cbn [orb].
    + destruct (existsb _ rest); [reflexivity | auto].
    + destruct (Z.eqb_spec ep 0); [congruence | reflexivity].
Qed.

End Repeat.

End EvaluateFacts.

(** X21.  Outside training mode, on a consistent object with a series of
    [n >= 2] samples and a policy that answers every observation with one
    entry per generator, an episode of the evaluation loop after [reset]
    makes exactly [max 1 (n - 5)] passes: with that many passes allowed it
    ends, at position [max 1 (n - 5)], and with fewer it has not ended.
    Episode 0 keeps one trajectory point per pass up to 168, every other
    episode keeps none. *)
Theorem evaluation_episode_length
    (sin_hour cos_hour : Z -> fnum) (G : Type) (draw : Z -> Z -> G -> Z * G)
    (act : list fnum -> result (list fnum))
    (s : PowerGridEnvironment) (g : G) (ep : Z) (fuel : nat) :
  String.eqb (mode s) "train" = false ->
  shape_ok s = true ->
  2 <= Np.len (load_data s) ->
  well_shaped act s ->
  let steps := episode_steps (Np.len (load_data s)) in
  exists obs s1,
    reset sin_hour cos_hour G draw None (s, g) = (Ok (obs, ∅), (s1, g)) /\
    ((steps <= fuel)%nat ->
     exists e s',
       episode_loop sin_hour cos_hour act fuel ep obs episode_start s1
         = (Ok (Some e), s') /\
       current_step s' = Z.of_nat steps /\
       length (step_data e) = if ep =? 0 then Nat.min 168 steps else 0%nat) /\
    ((fuel < steps)%nat ->
     exists s',
       episode_loop sin_hour cos_hour act fuel ep obs episode_start s1
         = (Ok None, s')).
Proof.
  intros Hm Hs Hn Hact. cbv zeta.
  destruct (reset_eval_returns sin_hour cos_hour G draw s g Hm Hs)
    as (obs & Hreset & _); [lia|].
  exists obs, (restarted 0 s). split; [exact Hreset|].
  destruct (episode_from_restart sin_hour cos_hour act s ep obs fuel Hs Hn Hact)
    as [Hyes Hno].
  split; [|exact Hno].
  intros Hfuel.
  destruct (Hyes Hfuel) as (e & s' & Hrun & Hcs & _ & _ & _ & Hdata).
  exists e, s'. repeat split; assumption.
Qed.

Lemma evaluation_episode_length_witness :
  exists obs s1 e s',
    reset sin_table cos_table Z counter_draw None (scenario_env, 0)
      = (Ok (obs, ∅), (s1, 0)) /\
    episode_loop sin_table cos_table
        (rule_based_select_action {| rb_num_generators := 5 |})
        5 0 obs episode_start s1 = (Ok (Some e), s') /\
    current_step s' = 5 /\
    length (step_data e) = 5%nat.
Proof.
  destruct (evaluation_episode_length sin_table cos_table Z counter_draw
              (rule_based_select_action {| rb_num_generators := 5 |})
              scenario_env 0 0 5)
    as (obs & s1 & Hreset & Hyes & _).
  - reflexivity.
  - vm_compute. reflexivity.
  - vm_compute. discriminate.
  - intros o. eexists. split; reflexivity.
  - destruct Hyes as (e & s' & Hrun & Hcs & Hdata).
    + vm_compute. lia.
    + exists obs, s1, e, s'. repeat split; assumption.
Defined.

(** X22.  Outside training mode, with a policy whose action is a function
    of the observation and has one entry per generator, [evaluate_policy]
    returns on every consistent object with at least two samples, without
    drawing from the global generator, and every episode is the same
    episode: each of the three lists holds one value, [episodes] times.
    The trajectory is that of episode 0. *)
Theorem evaluation_episodes_repeat
    (sin_hour cos_hour : Z -> fnum) (G : Type) (draw : Z -> Z -> G -> Z * G)
    (act : list fnum -> result (list fnum))
    (s : PowerGridEnvironment) (g : G) (episodes : Z) (fuel : nat) :
  String.eqb (mode s) "train" = false ->
  shape_ok s = true ->
  2 <= Np.len (load_data s) ->
  well_shaped act s ->
  (episode_steps (Np.len (load_data s)) <= fuel)%nat ->
  exists ev s' x y z,
    evaluate_policy sin_hour cos_hour G draw act fuel episodes (s, g)
      = (Ok (Some ev), (s', g)) /\
    total_rewards ev = replicate (Z.to_nat episodes) x /\
    total_costs ev = replicate (Z.to_nat episodes) y /\
    supply_gaps ev = replicate (Z.to_nat episodes) z /\
    length (trajectories ev) =
      if 0 <? episodes
      then Nat.min 168 (episode_steps (Np.len (load_data s))) else 0%nat.
Proof.
  intros Hm Hs Hn Hact Hfuel.
  destruct (reset_eval_returns sin_hour cos_hour G draw s g Hm Hs)
    as (obs1 & Hreset & Hobs1); [lia|].
  destruct (episode_from_restart sin_hour cos_hour act s 0 obs1 fuel Hs Hn Hact)
    as [Hyes _].
  destruct (Hyes Hfuel) as (e0 & s1 & Hrun0 & _ & Hreg & Hseed & Hs1 & Hdata0).
  set (Inv := fun st : PowerGridEnvironment =>
                registry st = registry s /\
                np_random_seed st = np_random_seed s /\
                shape_ok st = true).
  destruct (evaluate_episodes_repeat sin_hour cos_hour G draw act fuel g Inv
              obs1 (restarted 0 s) s1
              (ep_reward e0) (ep_cost e0) (ep_gap e0)
              (Nat.min 168 (episode_steps (Np.len (load_data s)))))
    with (eps := Z.of_nat <$> seq 0 (Z.to_nat episodes))
         (ev := {| total_rewards := []; total_costs := []; supply_gaps := [];
                   trajectories := [] |})
         (st := s)
    as (ev & st' & Hev & Hr & Hc & Hg & Ht).
  - intros st (Hreg' & Hseed' & Hshape).
    destruct (registry_inv _ _ Hreg') as (Hld & _ & _ & _ & Hmode).
    destruct (reset_eval_returns sin_hour cos_hour G draw st g)
      as (obs & Hres & Hobs); [congruence | assumption | rewrite Hld; lia |].
    rewrite (restarted_eq 0 s st Hreg' Hseed') in Hres, Hobs.
    rewrite Hres. rewrite Hobs1 in Hobs. injection Hobs as <-. reflexivity.
  - intros ep.
    destruct (episode_loop_totals sin_hour cos_hour act fuel 0 ep obs1
                episode_start episode_start (restarted 0 s) s1 e0 eq_refl Hrun0)
      as (e & Hrun & Htot).
    exists e. split; [exact Hrun|]. split; [exact Htot|].
    intros ->. rewrite Hrun0 in Hrun. injection Hrun as <-. exact Hdata0.
  - repeat split; assumption.
  - repeat split; first [reflexivity | assumption].
  - exists ev, st', (ep_reward e0), (ep_cost e0), (ep_gap e0).
    rewrite length_fmap, length_seq in Hr, Hc, Hg.
    cbn [total_rewards total_costs supply_gaps trajectories app length] in *.
    split; [exact Hev|]. split; [exact Hr|]. split; [exact Hc|].
    split; [exact Hg|]. rewrite Ht.
    destruct (Z.ltb_spec 0 episodes) as [Hpos|Hnon].
    + destruct (Z.to_nat episodes) as [|m] eqn:Em; [lia|]. reflexivity.
    + replace (Z.to_nat episodes) with 0%nat by lia. reflexivity.
Qed.

Lemma evaluation_episodes_repeat_witness :
  exists ev s' x,
    evaluate_policy sin_table cos_table Z counter_draw
        (rule_based_select_action {| rb_num_generators := 5 |})
        5 3 (scenario_env, 0) = (Ok (Some ev), (s', 0)) /\
    total_rewards ev = [x; x; x] /\
    length (trajectories ev) = 5%nat.
Proof.
  destruct (evaluation_episodes_repeat sin_table cos_table Z counter_draw
              (rule_based_select_action {| rb_num_generators := 5 |})
              scenario_env 0 3 5)
    as (ev & s' & x & y & z & Hev & Hr & _ & _ & Ht).
  - reflexivity.
  - vm_compute. reflexivity.
  - vm_compute. discriminate.
  - intros o. eexists. split; reflexivity.
  - vm_compute. lia.
  - exists ev, s', x. repeat split; assumption.
Defined.
